(** * Shopping assistant: confirmation gate, element resolver, browser session

    A shallow embedding of the three stateful cores of the shopping tool
    ([shopping_tool/server.py], [shopping_tool/element_resolver.py],
    [shopping_tool/browser.py]) together with the properties the design
    document states about them.

    Conventions.
    - Python [str] values are Stdlib [string]s and the texts are ASCII: the
      case and whitespace primitives are the ASCII ones (a character outside
      ASCII is left alone by [upper] and [lower] and is not a blank).
    - [time.time()] readings are integers (seconds); each reading is an input
      of the operation that takes it.
    - The process-wide dict of pending confirmations is a [gmap string _].
    - External collaborators (the random source, the LLM transport, the
      Playwright objects) are inputs: every call to one of them takes its
      outcome from an explicit argument. *)

From Stdlib Require Import ZArith Lia Ascii String List Strings.Byte.
From stdpp Require Import base option list gmap strings fin_maps.

Local Open Scope string_scope.
Local Open Scope Z_scope.

(** ** Python string primitives *)

Module PyStr.

Definition code (c : ascii) : N := N_of_ascii c.

Definition is_lower (c : ascii) : bool := (97 <=? code c)%N && (code c <=? 122)%N.
Definition is_upper (c : ascii) : bool := (65 <=? code c)%N && (code c <=? 90)%N.

(** [str.isspace] on ASCII: TAB, LF, VT, FF, CR, FS, GS, RS, US, SPACE. *)
Definition is_space (c : ascii) : bool :=
  ((9 <=? code c)%N && (code c <=? 13)%N)
  || ((28 <=? code c)%N && (code c <=? 32)%N).

Definition upper_char (c : ascii) : ascii :=
  if is_lower c then ascii_of_N (code c - 32) else c.
Definition lower_char (c : ascii) : ascii :=
  if is_upper c then ascii_of_N (code c + 32) else c.

Fixpoint map_chars (f : ascii -> ascii) (s : string) : string :=
  match s with
  | EmptyString => EmptyString
  | String c r => String (f c) (map_chars f r)
  end.

(** [s.upper()], [s.lower()] *)
Definition upper : string -> string := map_chars upper_char.
Definition lower : string -> string := map_chars lower_char.

Fixpoint lstrip (s : string) : string :=
  match s with
  | EmptyString => EmptyString
  | String c r => if is_space c then lstrip r else s
  end.

(** [rstrip] keeps a character when it is not a space or when something
    survives to its right. *)
Fixpoint rstrip (s : string) : string :=
  match s with
  | EmptyString => EmptyString
  | String c r =>
      match rstrip r with
      | EmptyString => if is_space c then EmptyString else String c EmptyString
      | r' => String c r'
      end
  end.

(** [s.strip()] *)
Definition strip (s : string) : string := rstrip (lstrip s).

(** [s.startswith(p)] *)
Fixpoint starts_with (p s : string) : bool :=
  match p, s with
  | EmptyString, _ => true
  | String a p', String b s' => if Ascii.eqb a b then starts_with p' s' else false
  | String _ _, EmptyString => false
  end.

(** [s.find(sub)] as an offset, [None] for Python's -1. *)
Fixpoint find_nat (sub s : string) : option nat :=
  if starts_with sub s then Some O
  else match s with
       | EmptyString => None
       | String _ r => S <$> find_nat sub r
       end.

Definition find (sub s : string) : Z :=
  match find_nat sub s with
  | Some i => Z.of_nat i
  | None => -1
  end.

(** [sub in s] *)
Definition contains (sub s : string) : bool :=
  match find_nat sub s with Some _ => true | None => false end.

Fixpoint take (n : nat) (s : string) : string :=
  match n, s with
  | S n', String c r => String c (take n' r)
  | _, _ => EmptyString
  end.

Fixpoint drop (n : nat) (s : string) : string :=
  match n, s with
  | S n', String _ r => drop n' r
  | _, _ => s
  end.

(** [s[a:b]] for [0 <= a] and [0 <= b] (the only slices the code takes). *)
Definition slice (a b : Z) (s : string) : string :=
  drop (Z.to_nat a) (take (Z.to_nat b) s).

Definition len (s : string) : Z := Z.of_nat (String.length s).

(** [s.split(sep)] for a non-empty [sep]: [cur] is the piece being read,
    reversed; [skip] counts the separator characters still to be jumped. *)
Fixpoint split_go (sep s cur : string) (skip : nat) : list string :=
  match s with
  | EmptyString => [String.rev cur]
  | String c r =>
      match skip with
      | S k => split_go sep r cur k
      | O =>
          if starts_with sep s
          then String.rev cur :: split_go sep r EmptyString (String.length sep - 1)
          else split_go sep r (String c cur) O
      end
  end.

Definition split (sep s : string) : list string := split_go sep s EmptyString O.

(** [s.split()]: the maximal runs of non-blank characters; [cur] is the
    run being read, reversed. *)
Fixpoint split_ws_go (s cur : string) : list string :=
  match s with
  | EmptyString =>
      match cur with EmptyString => [] | _ => [String.rev cur] end
  | String c r =>
      if is_space c
      then match cur with
           | EmptyString => split_ws_go r EmptyString
           | _ => String.rev cur :: split_ws_go r EmptyString
           end
      else split_ws_go r (String c cur)
  end.

Definition split_ws (s : string) : list string := split_ws_go s EmptyString.

(** [s.split(sep, 1)] when [sep] occurs in [s]: what is before the first
    occurrence and what is after it; [None] when it does not occur. *)
Definition split_once (sep s : string) : option (string * string) :=
  match find_nat sep s with
  | Some i => Some (take i s, drop (i + String.length sep) s)
  | None => None
  end.

(** [s[-n:]] for a positive [n]. *)
Definition last_chars (n : nat) (s : string) : string :=
  drop (String.length s - n) s.

Definition is_digit (c : ascii) : bool := (48 <=? code c)%N && (code c <=? 57)%N.

(** [re.sub(r"\D", "", s)] on ASCII text: the digits of [s], in order. *)
Fixpoint digits_of (s : string) : string :=
  match s with
  | EmptyString => EmptyString
  | String c r => if is_digit c then String c (digits_of r) else digits_of r
  end.

(** [s.title()] on ASCII text: a letter is upper-cased after a non-letter
    and lower-cased after a letter. *)
Fixpoint title_go (previous_cased : bool) (s : string) : string :=
  match s with
  | EmptyString => EmptyString
  | String c r =>
      if is_lower c || is_upper c
      then String (if previous_cased then lower_char c else upper_char c)
                  (title_go true r)
      else String c (title_go false r)
  end.

Definition title (s : string) : string := title_go false s.

(** The pieces of a split with a text put in front of the first one. *)
Definition prepend_first (a : string) (pieces : list string) : list string :=
  match pieces with
  | [] => []
  | first :: others => (a ++ first) :: others
  end.

(** [c * n] *)
Fixpoint repeat (c : ascii) (n : nat) : string :=
  match n with
  | O => EmptyString
  | S n' => String c (repeat c n')
  end.

End PyStr.

(** ** Purchase confirmation gate ([shopping_tool/server.py]) *)

Module Gate.

(** The value stored under a code: [{"created_at": ..., "url": ...}]. *)
Record PendingConfirmation := mkPending {
  created_at : Z;
  url : string
}.

(** [_CONFIRMATION_TTL = 300] *)
Definition _CONFIRMATION_TTL : Z := 300.

(** [binascii.hexlify]: two lower-case hexadecimal digits per byte. *)
Definition hex_digit (n : N) : ascii :=
  if (n <? 10)%N then ascii_of_N (48 + n) else ascii_of_N (87 + n).

Definition hex_byte (b : byte) : string :=
  let n := Byte.to_N b in
  String (hex_digit (n / 16)) (String (hex_digit (n mod 16)) EmptyString).

(** [secrets.token_hex(nbytes)], given the bytes [secrets.token_bytes]
    drew from the operating system's random source. *)
Fixpoint token_hex (random_bytes : list byte) : string :=
  match random_bytes with
  | [] => EmptyString
  | b :: r => hex_byte b ++ token_hex r
  end.

(** [_generate_confirmation_code]: [secrets.token_hex(3).upper()]; the
    three arguments are the three random bytes. *)
Definition _generate_confirmation_code (b0 b1 b2 : byte) : string :=
  PyStr.upper (token_hex [b0; b1; b2]).

(** The test of the comprehension in [_cleanup_expired_confirmations]:
    [now - v["created_at"] > _CONFIRMATION_TTL]. *)
Definition is_expired (now : Z) (v : PendingConfirmation) : bool :=
  _CONFIRMATION_TTL <? now - created_at v.

(** [expired = [k for k, v in pending.items() if ...]] *)
Definition expired_keys (now : Z) (pending : gmap string PendingConfirmation)
  : list string :=
  fst <$> filter (fun kv => is_expired now (snd kv) = true) (map_to_list pending).

(** [_cleanup_expired_confirmations]: [for k in expired: del pending[k]]. *)
Definition _cleanup_expired_confirmations
    (now : Z) (pending : gmap string PendingConfirmation)
  : gmap string PendingConfirmation :=
  fold_left (fun m k => delete k m) (expired_keys now pending) pending.

(** What a handler returns, reduced to the fields that depend on the gate:
    the status, the code and the checkout url. *)
Inductive Response :=
| RespError                                   (* status "error": no profile *)
| RespPreview (confirmation_code : string)    (* status "preview" *)
| RespRejected                                (* status "rejected" *)
| RespAccepted (code checkout_url : string).  (* status "stub": code accepted *)

(** [_handle_preview_checkout].  [profile_exists] is [pm.exists()];
    [now_sweep] and [now_store] are the two clock readings (the sweep's and
    the one stored as [created_at]); [arg_url] is [args.get("url")].  The
    redacted profile summary is read after the code is stored and only
    fills the reply. *)
Definition _handle_preview_checkout
    (profile_exists : bool) (now_sweep now_store : Z) (b0 b1 b2 : byte)
    (arg_url : option string) (pending : gmap string PendingConfirmation)
  : Response * gmap string PendingConfirmation :=
  if negb profile_exists then (RespError, pending)
  else
    let pending1 := _cleanup_expired_confirmations now_sweep pending in
    let code := _generate_confirmation_code b0 b1 b2 in
    let pending2 :=
      <[code := mkPending now_store (default "current_cart" arg_url)]> pending1 in
    (RespPreview code, pending2).

(** [_handle_confirm_purchase]; [supplied] is [args["confirmation_code"]]. *)
Definition _handle_confirm_purchase
    (now : Z) (supplied : string) (pending : gmap string PendingConfirmation)
  : Response * gmap string PendingConfirmation :=
  let code := PyStr.upper (PyStr.strip supplied) in
  let pending1 := _cleanup_expired_confirmations now pending in
  match pending1 !! code with
  | None => (RespRejected, pending1)
  | Some confirmation =>
      (RespAccepted code (url confirmation), delete code pending1)
  end.

(** A run of confirm calls, each with its own clock reading. *)
Fixpoint confirm_all (calls : list (Z * string))
    (pending : gmap string PendingConfirmation)
  : list Response * gmap string PendingConfirmation :=
  match calls with
  | [] => ([], pending)
  | (now, supplied) :: rest =>
      let '(r, pending1) := _handle_confirm_purchase now supplied pending in
      let '(rs, pending2) := confirm_all rest pending1 in
      (r :: rs, pending2)
  end.

(** The alphabet [0-9A-F], and the strings over an alphabet. *)
Definition is_upper_hex (c : ascii) : bool :=
  let n := PyStr.code c in
  ((48 <=? n)%N && (n <=? 57)%N) || ((65 <=? n)%N && (n <=? 70)%N).

Fixpoint all_chars (p : ascii -> bool) (s : string) : bool :=
  match s with
  | EmptyString => true
  | String c r => p c && all_chars p r
  end.

(** The inverse of [hex_byte] after upper-casing, used to count codes. *)
Definition hex_value (c : ascii) : N :=
  let n := PyStr.code c in
  if (n <? 58)%N then (n - 48)%N else (n - 55)%N.

Definition unhex_pair (c1 c2 : ascii) : option byte :=
  Byte.of_N (16 * hex_value c1 + hex_value c2).

End Gate.

(** ** Element resolver ([shopping_tool/element_resolver.py]) *)

Module Resolver.

(** The double quote and the line feed, for the literals that hold them. *)
Definition dq : string := String "034"%char EmptyString.
Definition nl : string := String "010"%char EmptyString.

(** [RETAILER_URL_PATTERNS], in the order of the dict literal (the order
    [_detect_retailer] iterates in). *)
Definition RETAILER_URL_PATTERNS : list (string * list string) :=
  [ ("amazon", ["amazon.com"; "amazon.co.uk"; "amazon.ca"]);
    ("bestbuy", ["bestbuy.com"]);
    ("walmart", ["walmart.com"]);
    ("target", ["target.com"]);
    ("newegg", ["newegg.com"]);
    ("ebay", ["ebay.com"]) ].

(** [_detect_retailer] *)
Fixpoint detect_in (table : list (string * list string)) (url_lower : string)
  : option string :=
  match table with
  | [] => None
  | (retailer, patterns) :: rest =>
      if existsb (fun pattern => PyStr.contains pattern url_lower) patterns
      then Some retailer
      else detect_in rest url_lower
  end.

Definition _detect_retailer (url : string) : option string :=
  detect_in RETAILER_URL_PATTERNS (PyStr.lower url).

Definition reviews_link : string :=
  "a[data-hook=" ++ dq ++ "see-all-reviews-link-foot" ++ dq ++ "]".
Definition search_input : string := "input[type=" ++ dq ++ "search" ++ dq ++ "]".
Definition testid_cart : string :=
  "button[data-testid=" ++ dq ++ "add-to-cart-button" ++ dq ++ "]".

(** [KNOWN_SELECTORS] *)
Definition KNOWN_SELECTORS : list (string * list (string * string)) :=
  [ ("amazon",
      [ ("search box", "#twotabsearchtextbox");
        ("search field", "#twotabsearchtextbox");
        ("search input", "#twotabsearchtextbox");
        ("search bar", "#twotabsearchtextbox");
        ("search amazon", "#twotabsearchtextbox");
        ("search button", "#nav-search-submit-button");
        ("submit search", "#nav-search-submit-button");
        ("add to cart", "#add-to-cart-button");
        ("add to cart button", "#add-to-cart-button");
        ("buy now", "#buy-now-button");
        ("buy now button", "#buy-now-button");
        ("quantity", "select#quantity");
        ("quantity selector", "select#quantity");
        ("quantity dropdown", "select#quantity");
        ("see all reviews", reviews_link);
        ("all reviews", reviews_link);
        ("reviews link", reviews_link);
        ("next page", "ul.a-pagination li.a-last a");
        ("next", "ul.a-pagination li.a-last a") ]);
    ("bestbuy",
      [ ("search box", "#gh-search-input");
        ("search field", "#gh-search-input");
        ("add to cart", "button.add-to-cart-button");
        ("add to cart button", "button.add-to-cart-button") ]);
    ("walmart",
      [ ("search box", search_input);
        ("search field", search_input);
        ("add to cart", testid_cart);
        ("add to cart button", testid_cart) ]) ].

(** [d.get(k)] on a dict literal (its keys are distinct). *)
Fixpoint dict_get {V : Type} (d : list (string * V)) (k : string) : option V :=
  match d with
  | [] => None
  | (k', v) :: rest => if String.eqb k' k then Some v else dict_get rest k
  end.

(** No entry of a selector table is the empty string. *)
Definition entries_nonempty (d : list (string * string)) : bool :=
  forallb (fun kv => negb (String.eqb (snd kv) "")) d.

(** [_fast_resolve] *)
Definition _fast_resolve (description url : string) : option string :=
  match _detect_retailer url with
  | None => None
  | Some retailer =>
      if String.eqb retailer "" then None
      else match dict_get KNOWN_SELECTORS retailer with
           | None => None
           | Some selectors =>
               let desc_lower := PyStr.strip (PyStr.lower description) in
               dict_get selectors desc_lower
           end
  end.

#[local] Set Warnings "-register-all".

(** The values [json.loads] can produce.  A float is [m * 2^e]. *)
Inductive PyVal :=
| PNone
| PBool (b : bool)
| PInt (z : Z)
| PFloat (m e : Z)
| PStr (s : string)
| PList (l : list PyVal)
| PDict (items : list (string * PyVal)).

(** [bool(v)] *)
Definition truthy (v : PyVal) : bool :=
  match v with
  | PNone => false
  | PBool b => b
  | PInt z => negb (z =? 0)
  | PFloat m _ => negb (m =? 0)
  | PStr s => negb (String.eqb s "")
  | PList l => match l with [] => false | _ => true end
  | PDict items => match items with [] => false | _ => true end
  end.

(** The three exception classes the retry loop tells apart. *)
Inductive Exn :=
| TimeoutError       (* asyncio.TimeoutError *)
| JSONDecodeError    (* json.JSONDecodeError *)
| OtherException.    (* any other Exception *)

(** What [asyncio.wait_for(provider.run(...), timeout=60.0)] did. *)
Inductive Outcome :=
| Reply (content : string)
| TimedOut
| Failed.

(** What the caller of the resolver can observe besides the result. *)
Inductive Event :=
| Call (attempt : nat) (prompt : string)
| Sleep (seconds : Z).

(** How one pass through the [try] block ends. *)
Inductive Attempt :=
| Returned (v : PyVal)
| EmptyContent
| Raised (e : Exn).

(** How one iteration of the loop ends. *)
Inductive Step :=
| Return (v : PyVal)
| Continue (slept : list Event).

(** [page_elements]: the two keys the resolver reads, each possibly
    missing. *)
Record PageElements := mkPageElements {
  pe_url : option string;
  pe_html : option string
}.

Definition max_length : Z := 100000.

Definition truncation_marker : string := nl ++ "<!-- HTML truncated -->".

(** The block under [# Get HTML, truncate if needed]. *)
Definition truncate_html (page_html : string) : string :=
  if max_length <? PyStr.len page_html then
    let body_start := PyStr.find "<body" page_html in
    (if 0 <? body_start
     then PyStr.slice body_start (body_start + max_length) page_html
     else PyStr.slice 0 max_length page_html)
    ++ truncation_marker
  else page_html.

(** Where the kept part of an over-long markup starts: at the first
    "<body", or at the beginning when there is none. *)
Definition kept_from (page_html : string) : Z :=
  Z.max 0 (PyStr.find "<body" page_html).

Definition prompt_head : string :=
  "Find the element matching this description:" ++ nl ++ dq.
Definition prompt_hint : string :=
  dq ++ nl ++ nl ++ "Element type hint: ".
Definition prompt_html : string :=
  nl ++ nl ++ "PAGE HTML:" ++ nl ++ "```html" ++ nl.
Definition prompt_tail : string :=
  nl ++ "```" ++ nl ++ nl ++ "Return JSON with selector, found, and reason.".

(** The f-string [prompt]. *)
Definition build_prompt (description element_type page_html : string) : string :=
  prompt_head ++ description ++ prompt_hint ++ element_type
    ++ prompt_html ++ page_html ++ prompt_tail.

Section WithJson.

(** [json.loads]: [None] when it raises [JSONDecodeError]. *)
Variable json_loads : string -> option PyVal.

(** [xs[i]], an [IndexError] when out of range. *)
Definition index (xs : list string) (i : nat) : Exn + string :=
  match xs !! i with
  | Some x => inr x
  | None => inl OtherException
  end.

(** The fence stripping: [content.split(fence)[1].split("```")[0]]. *)
Definition between (fence content : string) : Exn + string :=
  match index (PyStr.split fence content) 1 with
  | inl e => inl e
  | inr inner => index (PyStr.split "```" inner) 0
  end.

Definition unfence (content : string) : Exn + string :=
  if PyStr.contains "```json" content then between "```json" content
  else if PyStr.contains "```" content then between "```" content
  else inr content.

(** [data.get(key, fallback)]: an [AttributeError] unless [data] is a
    dict. *)
Definition get (data : PyVal) (key : string) (fallback : PyVal) : Exn + PyVal :=
  match data with
  | PDict items => inr (default fallback (dict_get items key))
  | _ => inl OtherException
  end.

(** The body of the [try] once the transport call has been made. *)
Definition try_body (outcome : Outcome) : Attempt :=
  match outcome with
  | TimedOut => Raised TimeoutError
  | Failed => Raised OtherException
  | Reply content =>
      if String.eqb content "" then EmptyContent
      else
        match unfence content with
        | inl e => Raised e
        | inr inner =>
            match json_loads (PyStr.strip inner) with
            | None => Raised JSONDecodeError
            | Some data =>
                match get data "found" (PBool false) with
                | inl e => Raised e
                | inr found =>
                    if truthy found then
                      match get data "selector" (PStr "") with
                      | inl e => Raised e
                      | inr selector => Returned selector
                      end
                    else Returned PNone
                end
            end
        end
  end.

(** [await asyncio.sleep((attempt + 1) * 2)] *)
Definition backoff (attempt : nat) : Event := Sleep ((Z.of_nat attempt + 1) * 2).

(** One iteration: the [try] body followed by the [if attempt < 2]
    tests of the empty-reply branch and of the three handlers. *)
Definition attempt_step (attempt : nat) (outcome : Outcome) : Step :=
  match try_body outcome with
  | Returned v => Return v
  | EmptyContent =>
      if (attempt <? 2)%nat then Continue [backoff attempt] else Return PNone
  | Raised TimeoutError =>
      if (attempt <? 2)%nat then Continue [] else Return PNone
  | Raised JSONDecodeError =>
      if (attempt <? 2)%nat then Continue [backoff attempt] else Return PNone
  | Raised OtherException =>
      if (attempt <? 2)%nat then Continue [backoff attempt] else Return PNone
  end.

(** [for attempt in range(3): ...] followed by the final [return None]. *)
Fixpoint retry_loop (transport : nat -> string -> Outcome) (prompt : string)
    (attempts : list nat) : PyVal * list Event :=
  match attempts with
  | [] => (PNone, [])
  | attempt :: rest =>
      match attempt_step attempt (transport attempt prompt) with
      | Return v => (v, [Call attempt prompt])
      | Continue slept =>
          let '(v, events) := retry_loop transport prompt rest in
          (v, Call attempt prompt :: slept ++ events)
      end
  end.

(** Everything below [if fast_result: return fast_result]. *)
Definition slow_path
    (api_key_set : bool) (transport : nat -> string -> Outcome)
    (description element_type : string) (page_elements : PageElements)
  : PyVal * list Event :=
  let page_html := truncate_html (default "" (pe_html page_elements)) in
  let prompt := build_prompt description element_type page_html in
  if negb api_key_set then (PNone, [])
  else retry_loop transport prompt (seq 0 3).

(** [resolve_selector].  [api_key_set] tells whether [get_provider]
    returns (it raises [ValueError] without the key); [transport] gives
    the outcome of each awaited [provider.run].  The system text only
    travels to the transport and is left out of [Call]. *)
Definition resolve_selector
    (api_key_set : bool) (transport : nat -> string -> Outcome)
    (description element_type : string) (page_elements : PageElements)
  : PyVal * list Event :=
  let url := default "" (pe_url page_elements) in
  let fast_result := _fast_resolve description url in
  match fast_result with
  | Some selector =>
      if negb (String.eqb selector "") then (PStr selector, [])
      else slow_path api_key_set transport description element_type page_elements
  | None =>
      slow_path api_key_set transport description element_type page_elements
  end.

(** *** Vocabulary of the statements about the retry loop *)

(** The attempt did not return: it ended in the empty-reply branch or
    in one of the three handlers. *)
Definition attempt_failed (outcome : Outcome) : bool :=
  match try_body outcome with
  | Returned _ => false
  | EmptyContent | Raised _ => true
  end.

(** What the loop awaits between a failed attempt and the next one:
    nothing after a timeout, the linear backoff after anything else. *)
Definition pause_after (attempt : nat) (outcome : Outcome) : list Event :=
  match outcome with
  | TimedOut => []
  | Reply _ | Failed => [backoff attempt]
  end.

(** The reply is a JSON object, possibly fenced, whose [found] member is
    the literal [false]. *)
Definition explicit_absence (content : string) : Prop :=
  content <> ""
  /\ exists inner items,
      unfence content = inr inner
      /\ json_loads (PyStr.strip inner) = Some (PDict items)
      /\ dict_get items "found" = Some (PBool false).

End WithJson.

Definition is_call (e : Event) : bool :=
  match e with Call _ _ => true | Sleep _ => false end.

Definition is_sleep (e : Event) : bool :=
  match e with Call _ _ => false | Sleep _ => true end.

(** The number of transport calls in a run. *)
Definition transport_calls (events : list Event) : nat :=
  length (filter (fun e => is_call e = true) events).

(** The request misses the static table: [if fast_result:] is not taken. *)
Definition misses_table (description : string) (page_elements : PageElements)
  : Prop :=
  _fast_resolve description (default "" (pe_url page_elements)) = None.

(** The prompt the slow path sends. *)
Definition prompt_of (description element_type : string)
    (page_elements : PageElements) : string :=
  build_prompt description element_type
    (truncate_html (default "" (pe_html page_elements))).

(** The seconds a run spends in backoff sleeps. *)
Definition slept_seconds (events : list Event) : Z :=
  fold_right (fun e total => match e with
                             | Sleep seconds => seconds + total
                             | Call _ _ => total
                             end) 0 events.

(** The text holds no backtick, the character fences are made of. *)
Definition no_tick (s : string) : bool :=
  Gate.all_chars (fun c => negb (Ascii.eqb "`" c)) s.

End Resolver.

(** ** Browser session ([shopping_tool/browser.py]) *)

Module Browser.

(** Playwright objects are opaque handles. *)
Definition Handle := nat.
Definition Page := nat.

(** A raised Python exception: an instance of [Exception], or one that
    only derives from [BaseException] (cancellation, interpreter exit),
    which [except Exception] does not catch. *)
Inductive PyExn :=
| PyException (what : string)
| PyBaseException (what : string).

Definition is_Exception (e : PyExn) : bool :=
  match e with PyException _ => true | PyBaseException _ => false end.

Inductive Result (A : Type) :=
| Ok (a : A)
| Raise (e : PyExn).
Arguments Ok {A} a.
Arguments Raise {A} e.

(** The fields of [BrowserManager]. *)
Record BrowserManager := mkBrowserManager {
  _playwright : option Handle;
  _browser : option Handle;
  _context : option Handle;
  _tabs : list Page;
  _active_tab_index : Z
}.

(** [BrowserManager.__init__] *)
Definition init : BrowserManager :=
  {| _playwright := None; _browser := None; _context := None;
     _tabs := []; _active_tab_index := -1 |}.

(** What the Playwright side answers to each call the manager makes. *)
Record Env := mkEnv {
  playwright_start : Result Handle;          (* async_playwright().start() *)
  chromium_launch : Result Handle;           (* playwright.chromium.launch(...) *)
  is_connected : Handle -> bool;             (* browser.is_connected() *)
  new_context : Result Handle;               (* browser.new_context(...) *)
  context_new_page : Result Page;            (* context.new_page() *)
  page_goto : Page -> string -> Result unit; (* page.goto(url, ...) *)
  page_url : Page -> Result string;          (* page.url *)
  page_title : Page -> Result string;        (* page.title() *)
  page_close : Page -> Result unit;          (* page.close() *)
  context_close : Handle -> Result unit;     (* context.close() *)
  browser_close : Handle -> Result unit;     (* browser.close() *)
  playwright_stop : Handle -> Result unit    (* playwright.stop() *)
}.

(** The calls that act on the Playwright side, as the manager makes them. *)
Inductive ExtCall :=
| CallStart
| CallLaunch
| CallNewContext
| CallNewPage
| CallGoto (page : Page) (url : string)
| CallPageClose (page : Page)
| CallContextClose (context : Handle)
| CallBrowserClose (browser : Handle)
| CallPlaywrightStop (playwright : Handle).

(** The manager together with the log of the calls made so far. *)
Record World := mkWorld {
  mgr : BrowserManager;
  calls : list ExtCall
}.

(** Methods run in a state monad in which a computation either returns or
    raises; the fields keep the writes made before a raise. *)
Definition M (A : Type) : Type := World -> Result A * World.

Definition ret {A} (a : A) : M A := fun w => (Ok a, w).
Definition bind {A B} (m : M A) (k : A -> M B) : M B :=
  fun w => match m w with
           | (Ok a, w') => k a w'
           | (Raise e, w') => (Raise e, w')
           end.
Definition lift {A} (r : Result A) : M A := fun w => (r, w).
Definition gets {A} (f : BrowserManager -> A) : M A :=
  fun w => (Ok (f (mgr w)), w).
Definition modify (f : BrowserManager -> BrowserManager) : M unit :=
  fun w => (Ok tt, mkWorld (f (mgr w)) (calls w)).

(** An awaited call: it is logged and answers as the environment says. *)
Definition call {A} (c : ExtCall) (answer : Result A) : M A :=
  fun w => (answer, mkWorld (mgr w) (calls w ++ [c])).

Notation "x <- m ;; k" := (bind m (fun x => k))
  (at level 62, m at next level, right associativity).
Notation "m ;;; k" := (bind m (fun _ => k))
  (at level 62, right associativity).

(** [try: body / except Exception: pass] *)
Definition try_pass (body : M unit) : M unit :=
  fun w => match body w with
           | (Ok tt, w') => (Ok tt, w')
           | (Raise e, w') => if is_Exception e then (Ok tt, w') else (Raise e, w')
           end.

(** [for x in xs: body(x)] *)
Fixpoint for_each {A} (xs : list A) (body : A -> M unit) : M unit :=
  match xs with
  | [] => ret tt
  | x :: rest => body x ;;; for_each rest body
  end.

Definition set_playwright (h : option Handle) (s : BrowserManager) :=
  {| _playwright := h; _browser := _browser s; _context := _context s;
     _tabs := _tabs s; _active_tab_index := _active_tab_index s |}.
Definition set_browser (h : option Handle) (s : BrowserManager) :=
  {| _playwright := _playwright s; _browser := h; _context := _context s;
     _tabs := _tabs s; _active_tab_index := _active_tab_index s |}.
Definition set_context (h : option Handle) (s : BrowserManager) :=
  {| _playwright := _playwright s; _browser := _browser s; _context := h;
     _tabs := _tabs s; _active_tab_index := _active_tab_index s |}.
Definition set_tabs (tabs : list Page) (s : BrowserManager) :=
  {| _playwright := _playwright s; _browser := _browser s; _context := _context s;
     _tabs := tabs; _active_tab_index := _active_tab_index s |}.
Definition set_active_tab_index (i : Z) (s : BrowserManager) :=
  {| _playwright := _playwright s; _browser := _browser s; _context := _context s;
     _tabs := _tabs s; _active_tab_index := i |}.

(** [len(self._tabs)], also the [tab_count] property. *)
Definition tab_count (s : BrowserManager) : Z := Z.of_nat (length (_tabs s)).

(** [active_page] *)
Definition active_page (s : BrowserManager) : option Page :=
  if (0 <=? _active_tab_index s) && (_active_tab_index s <? tab_count s)
  then _tabs s !! Z.to_nat (_active_tab_index s)
  else None.

(** The launch part of [_ensure_browser]. *)
Definition launch (env : Env) : M Handle :=
  pw <- call CallStart (playwright_start env) ;;
  modify (set_playwright (Some pw)) ;;;
  b <- call CallLaunch (chromium_launch env) ;;
  modify (set_browser (Some b)) ;;;
  ret b.

(** [_ensure_browser] *)
Definition _ensure_browser (env : Env) : M Handle :=
  browser <- gets _browser ;;
  match browser with
  | Some b => if is_connected env b then ret b else launch env
  | None => launch env
  end.

(** [_ensure_context] *)
Definition _ensure_context (env : Env) : M Handle :=
  context <- gets _context ;;
  match context with
  | Some c => ret c
  | None =>
      _ <- _ensure_browser env ;;
      c <- call CallNewContext (new_context env) ;;
      modify (set_context (Some c)) ;;;
      ret c
  end.

(** [new_page]; the settle delay neither raises nor touches the fields. *)
Definition new_page (env : Env) (url : string) : M Page :=
  _ <- _ensure_context env ;;
  page <- call CallNewPage (context_new_page env) ;;
  call (CallGoto page url) (page_goto env page url) ;;;
  tabs <- gets _tabs ;;
  modify (set_tabs (tabs ++ [page])) ;;;
  n <- gets tab_count ;;
  modify (set_active_tab_index (n - 1)) ;;;
  ret page.

(** [open_in_new_tab] *)
Definition open_in_new_tab (env : Env) (url : string) : M Page :=
  new_page env url.

(** [switch_tab]: [None] for an invalid index. *)
Definition switch_tab (index : Z) : M (option Page) :=
  n <- gets tab_count ;;
  if (0 <=? index) && (index <? n) then
    modify (set_active_tab_index index) ;;;
    tabs <- gets _tabs ;;
    ret (tabs !! Z.to_nat index)
  else ret None.

(** One entry of [get_tab_list]. *)
Record TabInfo := mkTabInfo {
  tab_index : Z;
  tab_url : string;
  tab_title : string;
  tab_active : bool
}.

(** The [try] of [get_tab_list]: a tab that cannot be read shows as
    "(closed)". *)
Definition read_tab (env : Env) (page : Page) : Result (string * string) :=
  match page_url env page with
  | Raise e => if is_Exception e then Ok ("(closed)", "(closed)") else Raise e
  | Ok u =>
      match page_title env page with
      | Raise e => if is_Exception e then Ok ("(closed)", "(closed)") else Raise e
      | Ok t => Ok (u, t)
      end
  end.

(** [for i, page in enumerate(self._tabs): ...] *)
Fixpoint list_from (env : Env) (i : Z) (pages : list Page) (active : Z)
  : Result (list TabInfo) :=
  match pages with
  | [] => Ok []
  | page :: rest =>
      match read_tab env page with
      | Raise e => Raise e
      | Ok (u, t) =>
          match list_from env (i + 1) rest active with
          | Raise e => Raise e
          | Ok infos => Ok (mkTabInfo i u t (i =? active) :: infos)
          end
      end
  end.

(** [get_tab_list] *)
Definition get_tab_list (env : Env) : M (list TabInfo) :=
  tabs <- gets _tabs ;;
  active <- gets _active_tab_index ;;
  lift (list_from env 0 tabs active).

(** [if self.<field>: try: await <close it> / except Exception: pass;
    self.<field> = None] *)
Definition release (field : BrowserManager -> option Handle)
    (what : Handle -> ExtCall) (closer : Handle -> Result unit)
    (clear : BrowserManager -> BrowserManager) : M unit :=
  h <- gets field ;;
  match h with
  | Some x => try_pass (call (what x) (closer x)) ;;; modify clear
  | None => ret tt
  end.

(** The body of the loop over the tabs in [close]. *)
Definition close_page (env : Env) (page : Page) : M unit :=
  try_pass (call (CallPageClose page) (page_close env page)).

(** [close] after the loop over the tabs: the tab list and the index are
    reset, then the context, the browser and the driver are released. *)
Definition release_all (env : Env) : M unit :=
  modify (set_tabs []) ;;;
  modify (set_active_tab_index (-1)) ;;;
  release _context CallContextClose (context_close env) (set_context None) ;;;
  release _browser CallBrowserClose (browser_close env) (set_browser None) ;;;
  release _playwright CallPlaywrightStop (playwright_stop env)
    (set_playwright None).

(** [close] *)
Definition close (env : Env) : M unit :=
  tabs <- gets _tabs ;;
  for_each tabs (close_page env) ;;;
  release_all env.

(** The operations of a session. *)
Inductive Op :=
| OpNewPage (url : string)
| OpOpenInNewTab (url : string)
| OpSwitchTab (index : Z)
| OpGetTabList
| OpClose.

Definition forget {A} (m : M A) : World -> World := fun w => snd (m w).

(** The world after an operation, whether it returned or raised. *)
Definition run_op (env : Env) (op : Op) : World -> World :=
  match op with
  | OpNewPage url => forget (new_page env url)
  | OpOpenInNewTab url => forget (open_in_new_tab env url)
  | OpSwitchTab index => forget (switch_tab index)
  | OpGetTabList => forget (get_tab_list env)
  | OpClose => forget (close env)
  end.

(** A run of operations, each against its own environment. *)
Definition run_ops (script : list (Env * Op)) (w : World) : World :=
  fold_left (fun w' step => run_op (fst step) (snd step) w') script w.

Definition init_world : World := mkWorld init [].

(** The session invariant of the design document: the active index is a
    position of the tab sequence exactly when the sequence is non-empty,
    and is -1 exactly when it is empty. *)
Definition tab_invariant (s : BrowserManager) : Prop :=
  (0 <= _active_tab_index s < tab_count s <-> _tabs s <> [])
  /\ (_active_tab_index s = -1 <-> _tabs s = []).

(** Every failure the Playwright side reports on a close is an instance
    of [Exception]. *)
Definition closes_raise_Exception (env : Env) : Prop :=
  (forall page e, page_close env page = Raise e -> is_Exception e = true)
  /\ (forall h e, context_close env h = Raise e -> is_Exception e = true)
  /\ (forall h e, browser_close env h = Raise e -> is_Exception e = true)
  /\ (forall h e, playwright_stop env h = Raise e -> is_Exception e = true).

(** The loop of [get_page]: the first tab whose url reads equal to [url];
    a tab whose url cannot be read is passed over. *)
Fixpoint find_page (env : Env) (url : string) (pages : list Page)
  : Result (option Page) :=
  match pages with
  | [] => Ok None
  | page :: rest =>
      match page_url env page with
      | Ok u => if String.eqb u url then Ok (Some page) else find_page env url rest
      | Raise e => if is_Exception e then find_page env url rest else Raise e
      end
  end.

(** [get_page] *)
Definition get_page (env : Env) (url : string) : M (option Page) :=
  tabs <- gets _tabs ;;
  lift (find_page env url tabs).

(** [try: body / except Exception as e: handler(e)] *)
Definition try_except {A} (body : M A) (handler : PyExn -> M A) : M A :=
  fun w => match body w with
           | (Ok a, w') => (Ok a, w')
           | (Raise e, w') => if is_Exception e then handler e w' else (Raise e, w')
           end.

(** [str(e)] *)
Definition message (e : PyExn) : string :=
  match e with PyException what => what | PyBaseException what => what end.

(** Every failure of reading a tab's url or title is an instance of
    [Exception]. *)
Definition reads_raise_Exception (env : Env) : Prop :=
  (forall page e, page_url env page = Raise e -> is_Exception e = true)
  /\ (forall page e, page_title env page = Raise e -> is_Exception e = true).

(** The entries of a tab list that are marked active. *)
Definition active_entries (infos : list TabInfo) : list TabInfo :=
  filter (fun info => tab_active info = true) infos.

(** The calls [new_page] makes once a context is there. *)
Definition open_calls (env : Env) (url : string) : list ExtCall :=
  match context_new_page env with
  | Ok page => [CallNewPage; CallGoto page url]
  | Raise _ => [CallNewPage]
  end.

(** The call that releases a field, if the field is set. *)
Definition release_call (what : Handle -> ExtCall) (field : option Handle)
  : list ExtCall :=
  match field with Some h => [what h] | None => [] end.

End Browser.

(** ** Page actions ([shopping_tool/browser.py], the element primitives) *)

Module PageActions.
Import Browser.

(** An element handle. *)
Definition Element := nat.

(** What the page answers to the calls of the action primitives. *)
Record PageEnv := mkPageEnv {
  locator_count : string -> Result Z;                 (* locator.count() *)
  locator_first_handle : string -> Result (option Element);
                                         (* locator.first.element_handle() *)
  query_selector : string -> Result (option Element); (* page.query_selector *)
  is_visible : Element -> Result bool;                (* element.is_visible() *)
  scroll_into_view_if_needed : Element -> Result unit;
  element_click : Element -> Result unit;             (* element.click(...) *)
  element_evaluate : Element -> string -> Result unit; (* element.evaluate(js) *)
  element_type : Element -> string -> Result unit;    (* element.type(value) *)
  element_press : Element -> string -> Result unit;   (* element.press(key) *)
  element_select_option : Element -> string -> Result unit
                                         (* element.select_option(label=...) *)
}.

Definition rbind {A B} (r : Result A) (k : A -> Result B) : Result B :=
  match r with
  | Ok a => k a
  | Raise e => Raise e
  end.

Notation "x <~ r ;; k" := (rbind r (fun x => k))
  (at level 62, r at next level, right associativity).

(** [try: body / except Exception: handler] *)
Definition catch {A} (body handler : Result A) : Result A :=
  match body with
  | Ok a => Ok a
  | Raise e => if is_Exception e then handler else Raise e
  end.

(** How [click] gets its element: through a locator for the selectors of
    the text dialect, through [query_selector] otherwise.  A locator that
    matches nothing gives no element ([click] returns [False] for both). *)
Definition locate (env : PageEnv) (selector : string) : Result (option Element) :=
  if PyStr.contains ":has-text(" selector || PyStr.contains ":has(" selector
  then
    n <~ locator_count env selector ;;
    if n =? 0 then Ok None else locator_first_handle env selector
  else query_selector env selector.

Definition js_click : string := "el => el.click()".

(** [click]; the pauses neither raise nor are observed. *)
Definition click (env : PageEnv) (selector : string) : Result bool :=
  catch
    (element <~ locate env selector ;;
     match element with
     | None => Ok false
     | Some el =>
         visible <~ is_visible env el ;;
         if negb visible then Ok false
         else
           _ <~ scroll_into_view_if_needed env el ;;
           _ <~ catch (element_click env el) (element_evaluate env el js_click) ;;
           Ok true
     end)
    (Ok false).

Definition js_scroll_center : string :=
  "el => { el.scrollIntoView({block: " ++ Resolver.dq ++ "center" ++ Resolver.dq
    ++ ", behavior: " ++ Resolver.dq ++ "instant" ++ Resolver.dq ++ "}); }".
Definition js_clear : string :=
  "el => el.value = " ++ Resolver.dq ++ Resolver.dq.

(** [fill] *)
Definition fill (env : PageEnv) (selector value : string) : Result bool :=
  catch
    (element <~ query_selector env selector ;;
     match element with
     | None => Ok false
     | Some el =>
         visible <~ is_visible env el ;;
         if negb visible then Ok false
         else
           _ <~ element_evaluate env el js_scroll_center ;;
           _ <~ element_evaluate env el js_click ;;
           _ <~ element_evaluate env el js_clear ;;
           _ <~ element_type env el value ;;
           _ <~ element_press env el "Escape" ;;
           Ok true
     end)
    (Ok false).

(** [select_option] *)
Definition select_option (env : PageEnv) (selector value : string) : Result bool :=
  catch
    (element <~ query_selector env selector ;;
     match element with
     | None => Ok false
     | Some el =>
         _ <~ element_select_option env el value ;;
         Ok true
     end)
    (Ok false).

(** The native click worked, or it failed with an [Exception] and the
    script click worked. *)
Definition click_lands (env : PageEnv) (el : Element) : Prop :=
  element_click env el = Ok tt
  \/ (exists e, element_click env el = Raise e /\ is_Exception e = true
                /\ element_evaluate env el js_click = Ok tt).

End PageActions.

(** ** Search action ([shopping_tool/actions/search.py]) *)

Module Search.
Import Browser.

(** [ProductListing] ([scrapers/base.py]). *)
Record ProductListing := mkListing {
  title : string;
  price : option string;
  url : option string;
  image_url : option string;
  rating : option string;
  review_count : option string;
  retailer : string;
  in_stock : bool
}.

(** One dict of [results]: a listing without its image. *)
Record ResultRow := mkRow {
  row_title : string;
  row_price : option string;
  row_url : option string;
  row_rating : option string;
  row_review_count : option string;
  row_retailer : string;
  row_in_stock : bool
}.

Definition row_of (listing : ProductListing) : ResultRow :=
  mkRow (title listing) (price listing) (url listing) (rating listing)
        (review_count listing) (retailer listing) (in_stock listing).

(** The keys of [SCRAPER_CLASSES]. *)
Definition SCRAPER_CLASSES : list string := ["amazon"].

(** The dict [search] returns (its status is always "ok"). *)
Record SearchResult := mkSearchResult {
  query : string;
  results : list ResultRow;
  retailers_searched : list string;
  total_results : Z
}.

(** [if not retailers or "all" in retailers: retailers = list(SCRAPER_CLASSES)] *)
Definition requested (retailers : option (list string)) : list string :=
  match retailers with
  | None => SCRAPER_CLASSES
  | Some [] => SCRAPER_CLASSES
  | Some names =>
      if existsb (String.eqb "all") names then SCRAPER_CLASSES else names
  end.

(** [_get_scraper] as far as [search] can tell: whether the registry has a
    class for the retailer (the instances are cached, which nothing
    observes). *)
Definition has_scraper (name : string) : bool :=
  existsb (String.eqb name) SCRAPER_CLASSES.

(** The loop of [search]; [scrape name] is what [scraper.search(query,
    max_results)] of that retailer does: it answers or raises, and changes
    the state [S] of what it works on (the browser and the site). *)
Fixpoint search_loop {S : Type}
    (scrape : string -> S -> Result (list ProductListing) * S)
    (names : list string) (all_results : list ResultRow) (searched : list string)
    (st : S) : Result (list ResultRow * list string) * S :=
  match names with
  | [] => (Ok (all_results, searched), st)
  | name :: rest =>
      if negb (has_scraper name)
      then search_loop scrape rest all_results searched st
      else
        match scrape name st with
        | (Ok listings, st') =>
            search_loop scrape rest
              (all_results ++ (row_of <$> listings)) (searched ++ [name]) st'
        | (Raise e, st') =>
            if is_Exception e
            then search_loop scrape rest all_results
                   (searched ++ [name ++ " (error)"]) st'
            else (Raise e, st')
        end
  end.

(** [SearchAction.search] *)
Definition search {S : Type}
    (scrape : string -> string -> Z -> S -> Result (list ProductListing) * S)
    (query_text : string) (max_results : Z) (retailers : option (list string))
    (st : S) : Result SearchResult * S :=
  match search_loop (fun name => scrape name query_text max_results)
          (requested retailers) [] [] st with
  | (Ok (all_results, searched), st') =>
      (Ok (mkSearchResult query_text all_results searched
             (Z.of_nat (length all_results))), st')
  | (Raise e, st') => (Raise e, st')
  end.

(** The requested retailers the registry knows, in the order asked. *)
Definition supported (names : list string) : list string :=
  List.filter has_scraper names.

(** What the scrapers of the known retailers answer when they are asked one
    after the other, in the order of [names]. *)
Fixpoint answers {S : Type}
    (scrape : string -> S -> Result (list ProductListing) * S)
    (names : list string) (st : S)
  : list (string * Result (list ProductListing)) :=
  match names with
  | [] => []
  | name :: rest =>
      if has_scraper name
      then (name, fst (scrape name st)) :: answers scrape rest (snd (scrape name st))
      else answers scrape rest st
  end.

(** What an answer contributes to [retailers_searched] and to [results]. *)
Definition searched_entry (answer : string * Result (list ProductListing))
  : string :=
  match snd answer with
  | Ok _ => fst answer
  | Raise _ => fst answer ++ " (error)"
  end.

Definition rows_of (answer : string * Result (list ProductListing))
  : list ResultRow :=
  match snd answer with
  | Ok listings => row_of <$> listings
  | Raise _ => []
  end.

(** Every failure of a scraper is an instance of [Exception]. *)
Definition scrapers_raise_Exception {S : Type}
    (scrape : string -> S -> Result (list ProductListing) * S) : Prop :=
  forall name st e, fst (scrape name st) = Raise e -> is_Exception e = true.

(** [SearchAction._detect_retailer] *)
Fixpoint detect_in (names : list string) (url_lower : string) : option string :=
  match names with
  | [] => None
  | name :: rest =>
      if PyStr.contains name url_lower then Some name else detect_in rest url_lower
  end.

Definition _detect_retailer (url : string) : option string :=
  detect_in SCRAPER_CLASSES (PyStr.lower url).

(** One element of a list the extraction script returns: a JS object. *)
Definition Item := list (string * Resolver.PyVal).

(** The dict [extract_page_elements] returns. *)
Record Elements := mkElements {
  e_url : option string;
  e_title : option string;
  e_buttons : list Item;
  e_inputs : list Item;
  e_selects : list Item;
  e_links : list Item;
  e_text_content : list string;
  e_html : string
}.

(** What the page answers to [page.content()] and to the extraction
    script. *)
Record DomEnv := mkDomEnv {
  page_content : Page -> Result string;
  page_evaluate : Page -> Result Elements
}.

(** What [extract_page_elements] evaluates to: the script's result with
    the markup stored under [html]. *)
Definition extracted (dom : DomEnv) (page : Page) : Result Elements :=
  match page_content dom page with
  | Raise e => Raise e
  | Ok page_html =>
      match page_evaluate dom page with
      | Raise e => Raise e
      | Ok elements =>
          Ok (mkElements (e_url elements) (e_title elements)
                (e_buttons elements) (e_inputs elements) (e_selects elements)
                (e_links elements) (e_text_content elements) page_html)
      end
  end.

(** [BrowserManager.extract_page_elements] (it leaves the manager alone). *)
Definition extract_page_elements (dom : DomEnv) (page : Page) : M Elements :=
  lift (extracted dom page).

(** What [open_page] returns. *)
Inductive Opened :=
| OpenedOk (url title : string) (buttons_found inputs_found : Z)
           (text_content : list string)
| OpenedError (message : string).

(** [SearchAction.open_page] *)
Definition open_page (env : Env) (dom : DomEnv) (url : string) : M Opened :=
  try_except
    (page <- new_page env url ;;
     elements <- extract_page_elements dom page ;;
     ret (OpenedOk (default url (e_url elements))
                   (default "" (e_title elements))
                   (Z.of_nat (length (e_buttons elements)))
                   (Z.of_nat (length (e_inputs elements)))
                   (take 10 (e_text_content elements))))
    (fun e => ret (OpenedError (message e))).

End Search.

(** ** Output redaction ([shopping_tool/output_sanitizer.py]) *)

Module Sanitizer.
Import Browser.

(** [redact_card_number] *)
Definition redact_card_number (number : string) : string :=
  let digits := PyStr.digits_of number in
  if (String.length digits <? 4)%nat then "****"
  else "****-****-****-" ++ PyStr.last_chars 4 digits.

(** [redact_email]; [local[0]] raises [IndexError] when nothing precedes
    the first "@". *)
Definition redact_email (email : string) : Result string :=
  match PyStr.split_once "@" email with
  | None => Ok email
  | Some (local, domain) =>
      match local with
      | EmptyString => Raise (PyException "IndexError")
      | String first _ => Ok (String first "***@" ++ domain)
      end
  end.

End Sanitizer.

(** ** Profile summary ([shopping_tool/profile/manager.py], [schema.py]) *)

Module Profile.
Import Browser.

Record ShippingAddress := mkShipping {
  full_name : string;
  street : string;
  apt : string;
  city : string;
  state : string;
  zip_code : string;
  country : string;
  phone : string
}.

Record PaymentMethod := mkPayment {
  card_type : string;
  card_number : string;
  expiry_month : Z;
  expiry_year : Z;
  cvv : string;
  billing_same_as_shipping : bool;
  billing_address : option ShippingAddress
}.

Record UserProfile := mkProfile {
  email : string;
  shipping : ShippingAddress;
  payment : PaymentMethod
}.

(** The dict [get_redacted_summary] returns. *)
Record Summary := mkSummary {
  s_email : string;
  s_name : string;
  s_city : string;
  s_state : string;
  s_zip : string;
  s_type : string;
  s_last_four : string
}.

Definition IndexError : PyExn := PyException "IndexError".

(** [xs[i]] *)
Definition nth_or_raise (xs : list string) (i : nat) : Result string :=
  match xs !! i with
  | Some x => Ok x
  | None => Raise IndexError
  end.

(** [s[0]] *)
Definition first_char (s : string) : Result string :=
  match s with
  | EmptyString => Raise IndexError
  | String c _ => Ok (String c EmptyString)
  end.

(** [redacted_name]: first word and the initial of the last one, or the
    only word. *)
Definition redacted_name (full : string) : Result string :=
  let name_parts := PyStr.split_ws full in
  if (1 <? length name_parts)%nat then
    match name_parts, last name_parts with
    | first :: _, Some final =>
        match first_char final with
        | Ok initial => Ok (first ++ " " ++ initial ++ ".")
        | Raise e => Raise e
        end
    | _, _ => Raise IndexError
    end
  else nth_or_raise name_parts 0.

(** [profile.email[0] + "***@" + profile.email.split("@")[1]] *)
Definition redacted_email (address : string) : Result string :=
  match first_char address with
  | Raise e => Raise e
  | Ok first =>
      match nth_or_raise (PyStr.split "@" address) 1 with
      | Raise e => Raise e
      | Ok domain => Ok (first ++ "***@" ++ domain)
      end
  end.

(** [get_redacted_summary] of the profile that [load] returned. *)
Definition get_redacted_summary (profile : UserProfile) : Result Summary :=
  match redacted_name (full_name (shipping profile)) with
  | Raise e => Raise e
  | Ok name =>
      match redacted_email (email profile) with
      | Raise e => Raise e
      | Ok shown_email =>
          Ok (mkSummary shown_email name
                (city (shipping profile)) (state (shipping profile))
                (PyStr.take 3 (zip_code (shipping profile)) ++ "**")
                (PyStr.title (card_type (payment profile)))
                (PyStr.last_chars 4 (card_number (payment profile))))
      end
  end.

(** A word: a non-empty text without blanks. *)
Definition is_word (w : string) : bool :=
  negb (String.eqb w "")
  && Gate.all_chars (fun c => negb (PyStr.is_space c)) w.

(** Words written one after the other with a single space between them. *)
Fixpoint spaced (words : list string) : string :=
  match words with
  | [] => ""
  | [w] => w
  | w :: rest => w ++ " " ++ spaced rest
  end.

(** [_handle_preview_checkout] with the summary it reads at the end:
    [loaded] is what [pm.load()] gives.  The reply carries the code and the
    summary; a summary that raises makes the handler raise. *)
Definition preview_with_summary
    (profile_exists : bool) (loaded : Result UserProfile)
    (now_sweep now_store : Z) (b0 b1 b2 : byte) (arg_url : option string)
    (pending : gmap string Gate.PendingConfirmation)
  : Result (Gate.Response * option Summary) * gmap string Gate.PendingConfirmation :=
  let '(reply, pending') :=
    Gate._handle_preview_checkout profile_exists now_sweep now_store
      b0 b1 b2 arg_url pending in
  if negb profile_exists then (Ok (reply, None), pending')
  else
    match loaded with
    | Raise e => (Raise e, pending')
    | Ok profile =>
        match get_redacted_summary profile with
        | Raise e => (Raise e, pending')
        | Ok summary => (Ok (reply, Some summary), pending')
        end
    end.

End Profile.

(** ** Sample inputs used to exercise the statements *)

Module Samples.
Import Resolver.

(** The text of the JSON object [{found: false}] with its member name
    quoted, and a fenced reply carrying it. *)
Definition absent_json : string := "{" ++ dq ++ "found" ++ dq ++ ": false}".
Definition fenced_absent_reply : string :=
  "```json" ++ nl ++ absent_json ++ nl ++ "```".

(** A stand-in for [json.loads] that knows that one text. *)
Definition json_loads (text : string) : option PyVal :=
  if String.eqb text absent_json then Some (PDict [("found", PBool false)])
  else None.

(** A page of a site that no retailer pattern matches. *)
Definition other_page : PageElements :=
  mkPageElements (Some "https://shop.example.org/item/1")
                 (Some "<html><body><button>Wishlist</button></body></html>").

(** A transport whose three attempts fail in three different ways. *)
Definition flaky (attempt : nat) (prompt : string) : Outcome :=
  match attempt with
  | O => Reply ""
  | S O => TimedOut
  | _ => Failed
  end.

(** Markup of 100,001 characters whose body tag sits at offset 2. *)
Definition long_html : string :=
  "xx<body" ++ PyStr.repeat "a" (Z.to_nat 99994).

(** A Playwright side on which every close fails and navigation to
    "https://down.example.org/" fails. *)
Definition hostile : Browser.Env :=
  Browser.mkEnv (Browser.Ok 1%nat) (Browser.Ok 2%nat) (fun _ => true)
    (Browser.Ok 3%nat) (Browser.Ok 7%nat)
    (fun _ url =>
       if String.eqb url "https://down.example.org/"
       then Browser.Raise (Browser.PyException "net::ERR_NAME_NOT_RESOLVED")
       else Browser.Ok tt)
    (fun _ => Browser.Ok "https://shop.example.org/")
    (fun _ => Browser.Raise (Browser.PyException "Target closed"))
    (fun _ => Browser.Raise (Browser.PyException "Target closed"))
    (fun _ => Browser.Raise (Browser.PyException "Context closed"))
    (fun _ => Browser.Raise (Browser.PyException "Browser closed"))
    (fun _ => Browser.Raise (Browser.PyException "Connection closed")).

(** A session with two tabs open, the first one active. *)
Definition two_tabs : Browser.World :=
  Browser.mkWorld
    (Browser.mkBrowserManager (Some 1%nat) (Some 2%nat) (Some 3%nat)
       [5%nat; 6%nat] 0)
    [].

End Samples.

(** ** More sample inputs *)

Module Fixtures.
Import Resolver.

(** The text of [{selector: "#wishlist", found: true}] with its member
    names and its string quoted. *)
Definition present_json : string :=
  "{" ++ dq ++ "selector" ++ dq ++ ": " ++ dq ++ "#wishlist" ++ dq ++ ", "
      ++ dq ++ "found" ++ dq ++ ": true}".

(** A stand-in for [json.loads] that knows two texts. *)
Definition json_loads (text : string) : option PyVal :=
  if String.eqb text present_json
  then Some (PDict [("selector", PStr "#wishlist"); ("found", PBool true)])
  else Samples.json_loads text.

(** The selector in a fenced block between two sentences. *)
Definition fenced_present_reply : string :=
  ("Here it is:" ++ nl) ++ "```json" ++ (nl ++ present_json ++ nl)
    ++ "```" ++ (nl ++ "Good luck.").

(** A transport that answers nothing at first and then the selector. *)
Definition second_time_lucky (attempt : nat) (prompt : string) : Outcome :=
  match attempt with
  | O => Reply ""
  | _ => Reply fenced_present_reply
  end.

(** A scraper that finds one product and counts its searches. *)
Definition one_mouse (name : string) (query : string) (max_results : Z)
    (searches : nat) : Browser.Result (list Search.ProductListing) * nat :=
  (Browser.Ok [ Search.mkListing "Wireless Mouse" (Some "$19.99")
                  (Some "https://www.amazon.com/dp/B0MOUSE") None
                  (Some "4.5 out of 5 stars") (Some "1,234") "amazon" true ],
   S searches).

(** A page whose markup can be read but whose extraction script fails. *)
Definition broken_dom : Search.DomEnv :=
  Search.mkDomEnv (fun _ => Browser.Ok "<html></html>")
    (fun _ => Browser.Raise (Browser.PyException "Execution context was destroyed")).

(** A stored profile, and one whose name is blank. *)
Definition shopper : Profile.UserProfile :=
  Profile.mkProfile "ada@example.org"
    (Profile.mkShipping "Ada King Lovelace" "12 St James Square" ""
       "London" "LN" "90210-1234" "United States" "555-0100")
    (Profile.mkPayment "visa" "4111111111111111" 12 2030 "123" true None).

Definition nameless : Profile.UserProfile :=
  Profile.mkProfile "ada@example.org"
    (Profile.mkShipping "  " "12 St James Square" ""
       "London" "LN" "90210-1234" "United States" "555-0100")
    (Profile.mkPayment "visa" "4111111111111111" 12 2030 "123" true None).

End Fixtures.

(** * Properties *)

(** ** The primitives on concrete inputs *)

Example strip_then_upper : PyStr.upper (PyStr.strip "  a1b2c3 ") = "A1B2C3".
Proof. reflexivity. Qed.

Example split_on_dashes : PyStr.split "--" "a--bc----d" = ["a"; "bc"; ""; "d"].
Proof. reflexivity. Qed.

Example split_overlapping : PyStr.split "aa" "aaa" = [""; "a"].
Proof. reflexivity. Qed.

Example find_body : PyStr.find "<body" "<html><body class=x>" = 6.
Proof. reflexivity. Qed.

Example find_nothing : PyStr.find "<body" "<html>" = -1.
Proof. reflexivity. Qed.

Example code_of_bytes : Gate._generate_confirmation_code x00 xab xff = "00ABFF".
Proof. reflexivity. Qed.

Example detect_amazon :
  Resolver._detect_retailer "https://www.Amazon.co.uk/dp/B0" = Some "amazon".
Proof. vm_compute. reflexivity. Qed.

Example unfence_json_block :
  Resolver.unfence Samples.fenced_absent_reply
  = inr (Resolver.nl ++ Samples.absent_json ++ Resolver.nl).
Proof. vm_compute. reflexivity. Qed.

(** Opening three tabs, switching to the second and listing: only index 1
    is marked active. *)
Example three_tabs_switch_list :
  fst (Browser.bind (Browser.new_page Samples.hostile "https://a.example.org/")
         (fun _ =>
          Browser.bind (Browser.new_page Samples.hostile "https://b.example.org/")
            (fun _ =>
             Browser.bind (Browser.new_page Samples.hostile "https://c.example.org/")
               (fun _ =>
                Browser.bind (Browser.switch_tab 1)
                  (fun _ => Browser.get_tab_list Samples.hostile))))
         Browser.init_world)
  = Browser.Ok
      [ Browser.mkTabInfo 0 "(closed)" "(closed)" false;
        Browser.mkTabInfo 1 "(closed)" "(closed)" true;
        Browser.mkTabInfo 2 "(closed)" "(closed)" false ].
Proof. vm_compute. reflexivity. Qed.

(** ** Confirmation gate *)

Section GateFacts.
Import Gate.

Implicit Types (pending : gmap string PendingConfirmation) (now : Z).

Lemma lookup_fold_delete (keys : list string) pending (k : string) :
  fold_left (fun m k' => delete k' m) keys pending !! k
  = if decide (k ∈ keys) then None else pending !! k.
Proof.
  revert pending. induction keys as [|k0 keys IH]; intros pending.
  - case_decide as Hin; [by apply elem_of_nil in Hin | done].
  - cbn [fold_left]. rewrite IH.
    destruct (decide (k = k0)) as [->|Hne].
    + rewrite lookup_delete_eq, (decide_True (P := k0 ∈ k0 :: keys)) by (by left).
      by case_decide.
    + rewrite lookup_delete_ne by done.
      destruct (decide (k ∈ keys)) as [Hin|Hnin].
      * by rewrite decide_True by (by right).
      * rewrite decide_False; [done |].
        intros [?|?]%elem_of_cons; congruence.
Qed.

Lemma elem_of_expired_keys now pending (k : string) :
  k ∈ expired_keys now pending
  <-> exists v, pending !! k = Some v /\ is_expired now v = true.
Proof.
  unfold expired_keys. rewrite list_elem_of_fmap. split.
  - intros [[k' v] [-> [Hexp Hin]%list_elem_of_filter]].
    apply elem_of_map_to_list in Hin. by exists v.
  - intros [v [Hk Hexp]]. exists (k, v). split; [done |].
    apply list_elem_of_filter. split; [done | by apply elem_of_map_to_list].
Qed.

(** The sweep, entry by entry. *)
Lemma lookup_cleanup now pending (k : string) :
  _cleanup_expired_confirmations now pending !! k
  = match pending !! k with
    | Some v => if is_expired now v then None else Some v
    | None => None
    end.
Proof.
  unfold _cleanup_expired_confirmations. rewrite lookup_fold_delete.
  destruct (decide (k ∈ expired_keys now pending)) as [Hin|Hnin].
  - apply elem_of_expired_keys in Hin as [v [-> ->]]. done.
  - destruct (pending !! k) as [v|] eqn:Hk; [|done].
    destruct (is_expired now v) eqn:Hexp; [|done].
    exfalso. apply Hnin, elem_of_expired_keys. by exists v.
Qed.

Lemma is_expired_spec now v :
  is_expired now v = true <-> now - created_at v > 300.
Proof. unfold is_expired, _CONFIRMATION_TTL. rewrite Z.ltb_lt. lia. Qed.

Lemma cleanup_lookup_Some now pending (k : string) v :
  _cleanup_expired_confirmations now pending !! k = Some v
  <-> pending !! k = Some v /\ now - created_at v <= 300.
Proof.
  rewrite lookup_cleanup. destruct (pending !! k) as [w|] eqn:Hk.
  - destruct (is_expired now w) eqn:Hexp.
    + apply is_expired_spec in Hexp. split; [done |].
      intros [[= ->] ?]. lia.
    + split.
      * intros [= ->]. split; [done |].
        destruct (Z_le_gt_dec (now - created_at v) 300) as [|Hgt]; [done |].
        apply is_expired_spec in Hgt. congruence.
      * by intros [-> _].
  - split; [done | by intros [? _]].
Qed.

Lemma cleanup_nothing_expired now pending :
  (forall k v, pending !! k = Some v -> now - created_at v <= 300) ->
  _cleanup_expired_confirmations now pending = pending.
Proof.
  intros Hall. apply map_eq. intros k. rewrite lookup_cleanup.
  destruct (pending !! k) as [v|] eqn:Hk; [|done].
  destruct (is_expired now v) eqn:Hexp; [|done].
  apply is_expired_spec in Hexp. specialize (Hall k v Hk). lia.
Qed.

Lemma cleanup_absent now pending (k : string) :
  pending !! k = None -> _cleanup_expired_confirmations now pending !! k = None.
Proof. intros Hk. by rewrite lookup_cleanup, Hk. Qed.

(** A confirm call never brings a code into the store. *)
Lemma confirm_absent now supplied pending (k : string) :
  pending !! k = None ->
  snd (_handle_confirm_purchase now supplied pending) !! k = None.
Proof.
  intros Hk. unfold _handle_confirm_purchase.
  destruct (_ !! PyStr.upper _) eqn:Hc; simpl.
  - destruct (decide (PyStr.upper (PyStr.strip supplied) = k)) as [->|Hne].
    + apply lookup_delete_eq.
    + rewrite lookup_delete_ne by done. by apply cleanup_absent.
  - by apply cleanup_absent.
Qed.

Lemma confirm_all_absent calls pending (k : string) :
  pending !! k = None -> snd (confirm_all calls pending) !! k = None.
Proof.
  revert pending. induction calls as [|[now supplied] calls IH]; intros pending Hk.
  - done.
  - simpl. pose proof (confirm_absent now supplied pending k Hk) as H1.
    destruct (_handle_confirm_purchase now supplied pending) as [r p1].
    specialize (IH p1 H1). destruct (confirm_all calls p1) as [rs p2]. done.
Qed.

(** A confirm call whose code is not pending is rejected, and the store
    it leaves is the swept one. *)
Lemma confirm_unknown now supplied pending :
  pending !! PyStr.upper (PyStr.strip supplied) = None ->
  _handle_confirm_purchase now supplied pending
  = (RespRejected, _cleanup_expired_confirmations now pending).
Proof.
  intros Hk. unfold _handle_confirm_purchase.
  by rewrite (cleanup_absent _ _ _ Hk).
Qed.

(** *** The shape of a code *)

Lemma append_cons (c : ascii) (a b : string) :
  String c a ++ b = String c (a ++ b).
Proof. reflexivity. Qed.

Lemma append_nil (b : string) : EmptyString ++ b = b.
Proof. reflexivity. Qed.

Lemma upper_app (a b : string) :
  PyStr.upper (a ++ b) = PyStr.upper a ++ PyStr.upper b.
Proof.
  unfold PyStr.upper. induction a as [|c a IH]; [done |].
  rewrite append_cons. cbn [PyStr.map_chars]. by rewrite append_cons, IH.
Qed.

(** One byte gives two characters of [0-9A-F], from which the byte can be
    read back. *)
Lemma hex_byte_upper (b : byte) :
  exists c1 c2,
    PyStr.upper (hex_byte b) = String c1 (String c2 EmptyString)
    /\ is_upper_hex c1 = true /\ is_upper_hex c2 = true
    /\ unhex_pair c1 c2 = Some b.
Proof. destruct b; do 2 eexists; repeat split; reflexivity. Qed.

Lemma code_unfold (b0 b1 b2 : byte) :
  _generate_confirmation_code b0 b1 b2
  = PyStr.upper (hex_byte b0) ++ PyStr.upper (hex_byte b1)
      ++ PyStr.upper (hex_byte b2).
Proof.
  unfold _generate_confirmation_code. cbn [token_hex].
  rewrite !upper_app.
  destruct (hex_byte_upper b2) as (d1 & d2 & -> & _). reflexivity.
Qed.

Lemma upper_hex_cases (c : ascii) :
  is_upper_hex c = true ->
  c ∈ ["0"; "1"; "2"; "3"; "4"; "5"; "6"; "7"; "8"; "9";
       "A"; "B"; "C"; "D"; "E"; "F"]%char.
Proof.
  destruct c as [[] [] [] [] [] [] [] []]; vm_compute; intros H;
    first [discriminate H | clear H; repeat first [by left | right]].
Qed.

Lemma unhex_complete (c1 c2 : ascii) :
  is_upper_hex c1 = true -> is_upper_hex c2 = true ->
  exists b, unhex_pair c1 c2 = Some b
            /\ PyStr.upper (hex_byte b) = String c1 (String c2 EmptyString).
Proof.
  intros H1%upper_hex_cases H2%upper_hex_cases.
  repeat (apply elem_of_cons in H1 as [->|H1]);
    [..| by apply elem_of_nil in H1];
    repeat (apply elem_of_cons in H2 as [->|H2]);
    first [by apply elem_of_nil in H2 | eexists; split; reflexivity].
Qed.

Lemma upper_hex_char_fixed (c : ascii) :
  is_upper_hex c = true -> PyStr.upper_char c = c /\ PyStr.is_space c = false.
Proof.
  intros H%upper_hex_cases.
  repeat (apply elem_of_cons in H as [->|H]);
    first [by apply elem_of_nil in H | split; reflexivity].
Qed.

Lemma rstrip_no_space (s : string) :
  all_chars (fun c => negb (PyStr.is_space c)) s = true -> PyStr.rstrip s = s.
Proof.
  induction s as [|c s IH]; [done |]. cbn.
  intros [Hc Hs]%andb_prop. rewrite (IH Hs).
  destruct s; [|done]. by destruct (PyStr.is_space c).
Qed.

(** A string over [0-9A-F] is its own normal form. *)
Lemma upper_hex_normal (s : string) :
  all_chars is_upper_hex s = true -> PyStr.upper (PyStr.strip s) = s.
Proof.
  intros Hs.
  assert (Hns : all_chars (fun c => negb (PyStr.is_space c)) s = true).
  { induction s as [|c s IH]; [done |]. cbn in *.
    apply andb_prop in Hs as [Hc Hs].
    destruct (upper_hex_char_fixed c Hc) as [_ ->]. by apply IH. }
  unfold PyStr.strip.
  replace (PyStr.lstrip s) with s.
  2:{ destruct s as [|c s]; [done |]. cbn in *.
      apply andb_prop in Hns as [Hc _]. by destruct (PyStr.is_space c). }
  rewrite (rstrip_no_space s Hns). clear Hns.
  induction s as [|c s IH]; [done |]. cbn in *.
  apply andb_prop in Hs as [Hc Hs].
  destruct (upper_hex_char_fixed c Hc) as [Hu _].
  rewrite Hu. f_equal. exact (IH Hs).
Qed.

Lemma code_all_upper_hex (b0 b1 b2 : byte) :
  String.length (_generate_confirmation_code b0 b1 b2) = 6%nat
  /\ all_chars is_upper_hex (_generate_confirmation_code b0 b1 b2) = true.
Proof.
  rewrite code_unfold.
  destruct (hex_byte_upper b0) as (a1 & a2 & -> & Ha1 & Ha2 & _).
  destruct (hex_byte_upper b1) as (c1 & c2 & -> & Hc1 & Hc2 & _).
  destruct (hex_byte_upper b2) as (d1 & d2 & -> & Hd1 & Hd2 & _).
  rewrite !append_cons, !append_nil. split; [reflexivity |].
  cbn [all_chars]. by rewrite Ha1, Ha2, Hc1, Hc2, Hd1, Hd2.
Qed.

(** The code a preview issues is what confirm looks up when the caller
    sends it back as it is. *)
Lemma code_normal (b0 b1 b2 : byte) :
  PyStr.upper (PyStr.strip (_generate_confirmation_code b0 b1 b2))
  = _generate_confirmation_code b0 b1 b2.
Proof. apply upper_hex_normal, code_all_upper_hex. Qed.

Lemma code_injective (b0 b1 b2 b0' b1' b2' : byte) :
  _generate_confirmation_code b0 b1 b2 = _generate_confirmation_code b0' b1' b2' ->
  (b0, b1, b2) = (b0', b1', b2').
Proof.
  rewrite !code_unfold.
  destruct (hex_byte_upper b0) as (a1 & a2 & -> & _ & _ & Ha).
  destruct (hex_byte_upper b1) as (c1 & c2 & -> & _ & _ & Hc).
  destruct (hex_byte_upper b2) as (d1 & d2 & -> & _ & _ & Hd).
  destruct (hex_byte_upper b0') as (a1' & a2' & -> & _ & _ & Ha').
  destruct (hex_byte_upper b1') as (c1' & c2' & -> & _ & _ & Hc').
  destruct (hex_byte_upper b2') as (d1' & d2' & -> & _ & _ & Hd').
  rewrite !append_cons, !append_nil.
  intros [= -> -> -> -> -> ->]. congruence.
Qed.

End GateFacts.

(** C10.  Every confirmation code [_generate_confirmation_code] produces is
    exactly six characters long and uses only the upper-case hexadecimal
    digits 0-9 and A-F; conversely every six-character string over that
    alphabet is the code of exactly one triple of random bytes, so the codes
    are as many as the byte triples, 256^3 = 16^6. *)
Theorem confirmation_code_is_six_upper_hex_digits :
  (forall b0 b1 b2 : byte,
      String.length (Gate._generate_confirmation_code b0 b1 b2) = 6%nat
      /\ Gate.all_chars Gate.is_upper_hex
           (Gate._generate_confirmation_code b0 b1 b2) = true)
  /\ (forall s : string,
        String.length s = 6%nat ->
        Gate.all_chars Gate.is_upper_hex s = true ->
        exists b0 b1 b2 : byte,
          Gate._generate_confirmation_code b0 b1 b2 = s
          /\ forall b0' b1' b2' : byte,
              Gate._generate_confirmation_code b0' b1' b2' = s ->
              (b0', b1', b2') = (b0, b1, b2))
  /\ (256 ^ 3 = 16 ^ 6)%N.
Proof.
  split; [exact code_all_upper_hex |]. split; [| reflexivity].
  intros s Hlen Hhex.
  destruct s as [|a1 [|a2 [|c1 [|c2 [|d1 [|d2 [|? ?]]]]]]]; try discriminate Hlen.
  cbn [Gate.all_chars] in Hhex.
  apply andb_prop in Hhex as [Ha1 Hhex]. apply andb_prop in Hhex as [Ha2 Hhex].
  apply andb_prop in Hhex as [Hc1 Hhex]. apply andb_prop in Hhex as [Hc2 Hhex].
  apply andb_prop in Hhex as [Hd1 Hhex]. apply andb_prop in Hhex as [Hd2 _].
  destruct (unhex_complete a1 a2 Ha1 Ha2) as (b0 & _ & E0).
  destruct (unhex_complete c1 c2 Hc1 Hc2) as (b1 & _ & E1).
  destruct (unhex_complete d1 d2 Hd1 Hd2) as (b2 & _ & E2).
  assert (Hcode : Gate._generate_confirmation_code b0 b1 b2
                  = String a1 (String a2 (String c1 (String c2
                      (String d1 (String d2 EmptyString)))))).
  { rewrite code_unfold, E0, E1, E2. reflexivity. }
  exists b0, b1, b2. split; [exact Hcode |].
  intros b0' b1' b2' Heq. apply code_injective. by rewrite Heq, Hcode.
Qed.

(** C2.  A pending confirmation whose age exceeds the 300-second TTL when a
    confirm call arrives is removed by the sweep that precedes the lookup, so
    the call is rejected although the supplied code matches; the sweep
    removes exactly the entries whose age is strictly greater than 300
    seconds and keeps every other entry as it was. *)
Theorem expired_confirmation_is_swept_then_rejected
    (now : Z) (supplied : string)
    (pending : gmap string Gate.PendingConfirmation)
    (v : Gate.PendingConfirmation) :
  pending !! PyStr.upper (PyStr.strip supplied) = Some v ->
  now - Gate.created_at v > 300 ->
  Gate._handle_confirm_purchase now supplied pending
  = (Gate.RespRejected, Gate._cleanup_expired_confirmations now pending)
  /\ Gate._cleanup_expired_confirmations now pending
       !! PyStr.upper (PyStr.strip supplied) = None
  /\ forall (k : string) (w : Gate.PendingConfirmation),
       Gate._cleanup_expired_confirmations now pending !! k = Some w
       <-> pending !! k = Some w /\ ~ now - Gate.created_at w > 300.
Proof.
  intros Hk Hold.
  assert (Hgone : Gate._cleanup_expired_confirmations now pending
                    !! PyStr.upper (PyStr.strip supplied) = None).
  { rewrite lookup_cleanup, Hk.
    by rewrite (proj2 (is_expired_spec now v) Hold). }
  split; [| split; [exact Hgone |]].
  - unfold Gate._handle_confirm_purchase. by rewrite Hgone.
  - intros k w. rewrite cleanup_lookup_Some. intuition lia.
Qed.

Lemma expired_confirmation_is_swept_then_rejected_witness :
  Gate._handle_confirm_purchase 301 " a1b2c3 "
    {[ "A1B2C3" := Gate.mkPending 0 "current_cart" ]}
  = (Gate.RespRejected,
     Gate._cleanup_expired_confirmations 301
       {[ "A1B2C3" := Gate.mkPending 0 "current_cart" ]}).
Proof.
  refine (proj1 (expired_confirmation_is_swept_then_rejected 301 " a1b2c3 "
            {[ "A1B2C3" := Gate.mkPending 0 "current_cart" ]}
            (Gate.mkPending 0 "current_cart") _ _)).
  - vm_compute. reflexivity.
  - simpl. lia.
Defined.

(** C1 as stated fails in its last clause: a repeated confirm call is
    rejected, but the sweep it runs first can still remove another entry
    that has expired in the meantime, so the store is not left unchanged.
    Two previews at t=0 and t=200, a confirm of the first code at t=210 and a
    replay of it at t=600. *)
Lemma replayed_confirm_can_change_the_store :
  let p1 := snd (Gate._handle_preview_checkout true 0 0 x00 xab xff None ∅) in
  let p2 := snd (Gate._handle_preview_checkout true 200 200 x01 x02 x03 None p1) in
  let first := Gate._handle_confirm_purchase 210 "00ABFF" p2 in
  let replay := Gate._handle_confirm_purchase 600 "00ABFF" (snd first) in
  fst first = Gate.RespAccepted "00ABFF" "current_cart"
  /\ fst replay = Gate.RespRejected
  /\ snd first !! "010203" = Some (Gate.mkPending 200 "current_cart")
  /\ snd replay !! "010203" = None
  /\ snd replay <> snd first.
Proof.
  cbv zeta.
  assert (H3 : snd (Gate._handle_confirm_purchase 210 "00ABFF"
                 (snd (Gate._handle_preview_checkout true 200 200 x01 x02 x03 None
                    (snd (Gate._handle_preview_checkout true 0 0 x00 xab xff None ∅)))))
               !! "010203" = Some (Gate.mkPending 200 "current_cart"))
    by (vm_compute; reflexivity).
  assert (H4 : snd (Gate._handle_confirm_purchase 600 "00ABFF"
                 (snd (Gate._handle_confirm_purchase 210 "00ABFF"
                 (snd (Gate._handle_preview_checkout true 200 200 x01 x02 x03 None
                    (snd (Gate._handle_preview_checkout true 0 0 x00 xab xff None ∅)))))))
               !! "010203" = None)
    by (vm_compute; reflexivity).
  split; [vm_compute; reflexivity |].
  split; [vm_compute; reflexivity |].
  split; [exact H3 |]. split; [exact H4 |].
  intros Heq. rewrite Heq in H4. rewrite H3 in H4. discriminate H4.
Qed.

(** C1, amended.  For every code issued by a preview, a first confirm call
    that supplies the code (in any case, with any surrounding blanks) while
    it is unexpired is accepted with the previewed url and removes the record
    as part of returning it; after any further confirm calls, a confirm call
    supplying the same code is rejected, and the store it leaves is the one
    its own expiry sweep leaves: it is unchanged whenever no entry is older
    than 300 seconds at that call. *)
Theorem issued_code_confirms_exactly_once
    (pending : gmap string Gate.PendingConfirmation)
    (now_sweep now_store : Z) (b0 b1 b2 : byte) (arg_url : option string)
    (now : Z) (supplied : string) :
  PyStr.upper (PyStr.strip supplied) = Gate._generate_confirmation_code b0 b1 b2 ->
  now - now_store <= 300 ->
  let code := Gate._generate_confirmation_code b0 b1 b2 in
  let issued :=
    Gate._handle_preview_checkout true now_sweep now_store b0 b1 b2 arg_url pending in
  let first := Gate._handle_confirm_purchase now supplied (snd issued) in
  fst issued = Gate.RespPreview code
  /\ PyStr.upper (PyStr.strip code) = code
  /\ fst first = Gate.RespAccepted code (default "current_cart" arg_url)
  /\ snd first = delete code (Gate._cleanup_expired_confirmations now (snd issued))
  /\ snd first !! code = None
  /\ forall (calls : list (Z * string)) (later : Z) (again : string),
       PyStr.upper (PyStr.strip again) = code ->
       let before := snd (Gate.confirm_all calls (snd first)) in
       Gate._handle_confirm_purchase later again before
       = (Gate.RespRejected, Gate._cleanup_expired_confirmations later before)
       /\ ((forall k w, before !! k = Some w -> later - Gate.created_at w <= 300) ->
           Gate._cleanup_expired_confirmations later before = before).
Proof.
  intros Hnorm Hfresh code issued first.
  assert (Hissued : issued
            = (Gate.RespPreview code,
               <[code := Gate.mkPending now_store (default "current_cart" arg_url)]>
                 (Gate._cleanup_expired_confirmations now_sweep pending)))
    by reflexivity.
  assert (Hlook : Gate._cleanup_expired_confirmations now (snd issued) !! code
                  = Some (Gate.mkPending now_store (default "current_cart" arg_url))).
  { apply cleanup_lookup_Some. rewrite Hissued. simpl.
    split; [apply lookup_insert_eq | lia]. }
  assert (Hfirst : first
            = (Gate.RespAccepted code (default "current_cart" arg_url),
               delete code (Gate._cleanup_expired_confirmations now (snd issued)))).
  { unfold first, Gate._handle_confirm_purchase. rewrite Hnorm.
    fold code. by rewrite Hlook. }
  assert (Hgone : snd first !! code = None).
  { rewrite Hfirst. apply lookup_delete_eq. }
  split; [by rewrite Hissued |].
  split; [apply code_normal |].
  split; [by rewrite Hfirst |].
  split; [by rewrite Hfirst |].
  split; [exact Hgone |].
  intros calls later again Hagain before. split.
  - apply confirm_unknown. rewrite Hagain.
    by apply confirm_all_absent.
  - apply cleanup_nothing_expired.
Qed.

Lemma issued_code_confirms_exactly_once_witness :
  fst (Gate._handle_confirm_purchase 10 "a1b2c3"
         (snd (Gate._handle_preview_checkout true 0 0 xa1 xb2 xc3 None ∅)))
  = Gate.RespAccepted "A1B2C3" "current_cart"
  /\ fst (Gate._handle_confirm_purchase 11 "A1B2C3"
           (snd (Gate._handle_confirm_purchase 10 "a1b2c3"
              (snd (Gate._handle_preview_checkout true 0 0 xa1 xb2 xc3 None ∅)))))
     = Gate.RespRejected.
Proof.
  pose proof (issued_code_confirms_exactly_once ∅ 0 0 xa1 xb2 xc3 None 10 "a1b2c3"
                ltac:(reflexivity) ltac:(lia)) as H.
  cbv zeta in H. destruct H as (_ & _ & Hacc & _ & _ & Hrej).
  split; [exact Hacc |].
  destruct (Hrej [] 11 "A1B2C3" ltac:(reflexivity)) as [Hr _].
  cbn [Gate.confirm_all snd] in Hr. by rewrite Hr.
Defined.

(** ** Element resolver *)

Section ResolverFacts.
Import Resolver.

Variable json_loads : string -> option PyVal.

(** *** The static table *)

Lemma dict_get_elem {V : Type} (d : list (string * V)) (k : string) (v : V) :
  dict_get d k = Some v -> (k, v) ∈ d.
Proof.
  induction d as [|[k' v'] d IH]; [done |]. cbn.
  destruct (String.eqb k' k) eqn:Hk.
  - apply String.eqb_eq in Hk as ->. intros [= ->]. by left.
  - intros H. right. by apply IH.
Qed.

Lemma known_selectors_nonempty (retailer : string) selectors (k selector : string) :
  dict_get KNOWN_SELECTORS retailer = Some selectors ->
  dict_get selectors k = Some selector ->
  retailer <> "" /\ selector <> "".
Proof.
  intros Hr Hs. apply dict_get_elem in Hr. apply dict_get_elem in Hs.
  assert (Hall : forallb (fun rs => negb (String.eqb (fst rs) "")
                                    && entries_nonempty (snd rs))
                   KNOWN_SELECTORS = true) by (vm_compute; reflexivity).
  rewrite forallb_forall in Hall.
  apply list_elem_of_In, Hall in Hr. cbn in Hr.
  apply andb_prop in Hr as [Hname Hentries].
  unfold entries_nonempty in Hentries. rewrite forallb_forall in Hentries.
  apply list_elem_of_In, Hentries in Hs. cbn in Hs.
  split; intros ->; [by rewrite String.eqb_refl in Hname
                    | by rewrite String.eqb_refl in Hs].
Qed.

Lemma fast_resolve_hit (description url retailer : string) selectors selector :
  _detect_retailer url = Some retailer ->
  dict_get KNOWN_SELECTORS retailer = Some selectors ->
  dict_get selectors (PyStr.strip (PyStr.lower description)) = Some selector ->
  _fast_resolve description url = Some selector /\ selector <> "".
Proof.
  intros Hd Hr Hs.
  destruct (known_selectors_nonempty _ _ _ _ Hr Hs) as [Hne Hsel].
  split; [| exact Hsel].
  unfold _fast_resolve. rewrite Hd.
  apply String.eqb_neq in Hne. by rewrite Hne, Hr.
Qed.

(** *** The retry loop *)

Lemma calls_carry_the_prompt transport prompt attempts v events attempt p :
  retry_loop json_loads transport prompt attempts = (v, events) ->
  Call attempt p ∈ events -> p = prompt /\ attempt ∈ attempts.
Proof.
  revert v events. induction attempts as [|a rest IH]; intros v events; cbn.
  - intros [= <- <-] Hin. by apply elem_of_nil in Hin.
  - destruct (attempt_step json_loads a (transport a prompt)) as [w|slept] eqn:Hstep.
    + intros [= <- <-] [[= -> ->]|Hin%elem_of_nil]%elem_of_cons; [|done].
      split; [done | by left].
    + destruct (retry_loop json_loads transport prompt rest) as [w evs] eqn:Hrest.
      intros [= <- <-] [[= -> ->]|Hin]%elem_of_cons; [split; [done | by left] |].
      apply elem_of_app in Hin as [Hin|Hin].
      * exfalso. unfold attempt_step in Hstep.
        destruct (try_body json_loads (transport a prompt)) as [| |[]];
          destruct (a <? 2)%nat; simplify_eq;
          try (by apply elem_of_nil in Hin);
          by apply list_elem_of_singleton in Hin.
      * destruct (IH _ _ eq_refl Hin) as [-> ?]. split; [done | by right].
Qed.

Lemma transport_calls_cons_call a p events :
  transport_calls (Call a p :: events) = S (transport_calls events).
Proof. reflexivity. Qed.

Lemma transport_calls_app xs ys :
  transport_calls (xs ++ ys) = (transport_calls xs + transport_calls ys)%nat.
Proof. unfold transport_calls. by rewrite filter_app, length_app. Qed.

Lemma index_raises xs i e : index xs i = inl e -> e = OtherException.
Proof. unfold index. destruct (xs !! i); congruence. Qed.

Lemma unfence_raises content e : unfence content = inl e -> e = OtherException.
Proof.
  unfold unfence, between.
  repeat match goal with
         | |- context [if ?b then _ else _] => destruct b
         | |- context [match index ?xs ?i with _ => _ end] =>
             destruct (index xs i) eqn:?
         end; intros; simplify_eq; eauto using index_raises.
Qed.

Lemma get_raises data key fallback e :
  get data key fallback = inl e -> e = OtherException.
Proof. destruct data; cbn; congruence. Qed.

(** Only a transport timeout reaches the [asyncio.TimeoutError] handler. *)
Lemma raised_timeout outcome :
  try_body json_loads outcome = Raised TimeoutError -> outcome = TimedOut.
Proof.
  destruct outcome as [content| |]; cbn; [| done | done].
  destruct (String.eqb content ""); [done |].
  destruct (unfence content) as [e|inner] eqn:Hun.
  { apply unfence_raises in Hun as ->. done. }
  destruct (json_loads (PyStr.strip inner)) as [data|]; [| done].
  destruct (get data "found" (PBool false)) as [e|found] eqn:Hf.
  { apply get_raises in Hf as ->. done. }
  destruct (truthy found); [| done].
  destruct (get data "selector" (PStr "")) as [e|sel] eqn:Hs; [| done].
  apply get_raises in Hs as ->. done.
Qed.

Lemma step_sleeps_only a outcome slept :
  attempt_step json_loads a outcome = Continue slept ->
  transport_calls slept = 0%nat
  /\ (a < 2)%nat
  /\ attempt_failed json_loads outcome = true
  /\ slept = pause_after a outcome.
Proof.
  unfold attempt_step, attempt_failed.
  destruct (try_body json_loads outcome) as [| |[]] eqn:Hbody;
    destruct (a <? 2)%nat eqn:Ha; intros [= <-];
    apply Nat.ltb_lt in Ha; repeat split; try done.
  - destruct outcome; done.
  - apply raised_timeout in Hbody as ->. done.
  - destruct outcome; done.
  - destruct outcome; done.
Qed.

Lemma retry_loop_calls_bounded transport prompt attempts :
  (transport_calls (snd (retry_loop json_loads transport prompt attempts))
   <= length attempts)%nat.
Proof.
  induction attempts as [|a rest IH]; cbn; [done |].
  destruct (attempt_step json_loads a (transport a prompt)) as [w|slept] eqn:Hstep.
  - cbn [snd]. rewrite transport_calls_cons_call.
    change (transport_calls []) with 0%nat. lia.
  - destruct (retry_loop json_loads transport prompt rest) as [w evs].
    cbn [snd] in *. rewrite transport_calls_cons_call, transport_calls_app.
    destruct (step_sleeps_only _ _ _ Hstep) as [-> _]. lia.
Qed.

(** A failed attempt before the last is followed by its pause and the
    next attempt; a failed last attempt returns [None]. *)
Lemma step_of_failed a outcome :
  attempt_failed json_loads outcome = true ->
  attempt_step json_loads a outcome
  = if (a <? 2)%nat then Continue (pause_after a outcome) else Return PNone.
Proof.
  intros Hfail.
  destruct (attempt_step json_loads a outcome) as [v|slept] eqn:Hstep.
  - revert Hfail Hstep. unfold attempt_step, attempt_failed.
    destruct (try_body json_loads outcome) as [| |[]]; try done;
      by destruct (a <? 2)%nat.
  - destruct (step_sleeps_only _ _ _ Hstep) as (_ & Ha & _ & ->).
    apply Nat.ltb_lt in Ha. by rewrite Ha.
Qed.

Lemma explicit_absence_returns content :
  explicit_absence json_loads content ->
  try_body json_loads (Reply content) = Returned PNone.
Proof.
  intros [Hne (inner & items & Hun & Hjs & Hfound)]. cbn.
  apply String.eqb_neq in Hne. rewrite Hne, Hun, Hjs. cbn. by rewrite Hfound.
Qed.

End ResolverFacts.

Section ResolverEntry.
Import Resolver.

Variable json_loads : string -> option PyVal.

Lemma fast_resolve_nonempty (description url selector : string) :
  _fast_resolve description url = Some selector -> selector <> "".
Proof.
  unfold _fast_resolve.
  destruct (_detect_retailer url) as [retailer|]; [| done].
  destruct (String.eqb retailer ""); [done |].
  destruct (dict_get KNOWN_SELECTORS retailer) as [selectors|] eqn:Hr; [| done].
  intros Hs. by destruct (known_selectors_nonempty _ _ _ _ Hr Hs).
Qed.

(** The two ways out of [resolve_selector]. *)
Lemma resolve_selector_hit api_key_set transport description element_type pe selector :
  _fast_resolve description (default "" (pe_url pe)) = Some selector ->
  resolve_selector json_loads api_key_set transport description element_type pe
  = (PStr selector, []).
Proof.
  intros Hfast. unfold resolve_selector. rewrite Hfast.
  apply fast_resolve_nonempty, String.eqb_neq in Hfast. by rewrite Hfast.
Qed.

Lemma resolve_selector_miss api_key_set transport description element_type pe :
  misses_table description pe ->
  resolve_selector json_loads api_key_set transport description element_type pe
  = if api_key_set
    then retry_loop json_loads transport
           (prompt_of description element_type pe) (seq 0 3)
    else (PNone, []).
Proof.
  unfold misses_table, resolve_selector, slow_path, prompt_of.
  intros ->. by destruct api_key_set.
Qed.

End ResolverEntry.

(** C5.  When the lower-cased, trimmed description is a key of the static
    selector table of the retailer detected from the page url,
    [resolve_selector] returns the table's selector, makes no transport call,
    and gives the same result whatever the transport, the JSON parser and the
    API key are: two runs on equal inputs agree. *)
Theorem static_table_hit_is_deterministic_and_offline
    (json_loads : string -> option Resolver.PyVal) (api_key_set : bool)
    (transport : nat -> string -> Resolver.Outcome)
    (description element_type : string) (pe : Resolver.PageElements)
    (retailer : string) (selectors : list (string * string)) (selector : string) :
  Resolver._detect_retailer (default "" (Resolver.pe_url pe)) = Some retailer ->
  Resolver.dict_get Resolver.KNOWN_SELECTORS retailer = Some selectors ->
  Resolver.dict_get selectors (PyStr.strip (PyStr.lower description)) = Some selector ->
  Resolver.resolve_selector json_loads api_key_set transport
    description element_type pe = (Resolver.PStr selector, [])
  /\ Resolver.transport_calls
       (snd (Resolver.resolve_selector json_loads api_key_set transport
               description element_type pe)) = 0%nat
  /\ forall json_loads' api_key_set' transport',
       Resolver.resolve_selector json_loads' api_key_set' transport'
         description element_type pe
       = Resolver.resolve_selector json_loads api_key_set transport
           description element_type pe.
Proof.
  intros Hd Hr Hs.
  destruct (fast_resolve_hit _ _ _ _ _ Hd Hr Hs) as [Hfast _].
  assert (Hrun : forall jl key tr,
             Resolver.resolve_selector jl key tr description element_type pe
             = (Resolver.PStr selector, []))
    by (intros; by apply resolve_selector_hit).
  split; [apply Hrun |]. split.
  - by rewrite Hrun.
  - intros. by rewrite !Hrun.
Qed.

Lemma static_table_hit_is_deterministic_and_offline_witness :
  Resolver.resolve_selector (fun _ => None) true (fun _ _ => Resolver.Failed)
    "Add to Cart" "button"
    (Resolver.mkPageElements (Some "https://www.amazon.com/dp/B0TEST") (Some "<html>"))
  = (Resolver.PStr "#add-to-cart-button", []).
Proof.
  refine (proj1 (static_table_hit_is_deterministic_and_offline
                   (fun _ => None) true (fun _ _ => Resolver.Failed)
                   "Add to Cart" "button"
                   (Resolver.mkPageElements
                      (Some "https://www.amazon.com/dp/B0TEST") (Some "<html>"))
                   "amazon" _ "#add-to-cart-button" _ _ _)).
  - vm_compute. reflexivity.
  - vm_compute. reflexivity.
  - vm_compute. reflexivity.
Defined.

(** C4.  A reply that parses (after the fence stripping) to a JSON object
    whose [found] is [false] makes the resolver return not-found right after
    that attempt: when it is the first reply the run consists of that single
    transport call, and at whichever attempt it arrives the loop returns
    without calling the transport again, whatever attempts remained. *)
Theorem found_false_returns_without_retry
    (json_loads : string -> option Resolver.PyVal)
    (transport : nat -> string -> Resolver.Outcome)
    (description element_type : string) (pe : Resolver.PageElements)
    (content : string) :
  Resolver.misses_table description pe ->
  transport 0%nat (Resolver.prompt_of description element_type pe)
  = Resolver.Reply content ->
  Resolver.explicit_absence json_loads content ->
  Resolver.resolve_selector json_loads true transport description element_type pe
  = (Resolver.PNone, [Resolver.Call 0 (Resolver.prompt_of description element_type pe)])
  /\ forall (transport' : nat -> string -> Resolver.Outcome) (prompt : string)
            (attempt : nat) (rest : list nat),
       transport' attempt prompt = Resolver.Reply content ->
       Resolver.retry_loop json_loads transport' prompt (attempt :: rest)
       = (Resolver.PNone, [Resolver.Call attempt prompt]).
Proof.
  intros Hmiss Hreply Habsent.
  assert (Hloop : forall transport' prompt attempt rest,
             transport' attempt prompt = Resolver.Reply content ->
             Resolver.retry_loop json_loads transport' prompt (attempt :: rest)
             = (Resolver.PNone, [Resolver.Call attempt prompt])).
  { intros transport' prompt attempt rest Hr.
    cbn [Resolver.retry_loop]. unfold Resolver.attempt_step.
    by rewrite Hr, (explicit_absence_returns json_loads content Habsent). }
  split; [| exact Hloop].
  rewrite (resolve_selector_miss json_loads) by exact Hmiss.
  by apply Hloop.
Qed.

Lemma found_false_returns_without_retry_witness :
  Resolver.resolve_selector Samples.json_loads true
    (fun _ _ => Resolver.Reply Samples.fenced_absent_reply)
    "wishlist" "button" Samples.other_page
  = (Resolver.PNone,
     [Resolver.Call 0 (Resolver.prompt_of "wishlist" "button" Samples.other_page)]).
Proof.
  refine (proj1 (found_false_returns_without_retry Samples.json_loads
                   (fun _ _ => Resolver.Reply Samples.fenced_absent_reply)
                   "wishlist" "button" Samples.other_page
                   Samples.fenced_absent_reply _ _ _)).
  - vm_compute. reflexivity.
  - reflexivity.
  - split; [vm_compute; discriminate |].
    exists (Resolver.nl ++ Samples.absent_json ++ Resolver.nl),
           [("found", Resolver.PBool false)].
    repeat split; vm_compute; reflexivity.
Defined.

(** C3 as stated fails for timeouts: the [asyncio.TimeoutError] handler
    retries at once, so a run of three timeouts makes its three calls with no
    backoff sleep between them. *)
Lemma timeouts_are_retried_without_backoff :
  let run := Resolver.resolve_selector Samples.json_loads true
               (fun _ _ => Resolver.TimedOut) "wishlist" "button" Samples.other_page in
  let prompt := Resolver.prompt_of "wishlist" "button" Samples.other_page in
  Resolver.misses_table "wishlist" Samples.other_page
  /\ run = (Resolver.PNone,
            [Resolver.Call 0 prompt; Resolver.Call 1 prompt; Resolver.Call 2 prompt])
  /\ filter (fun e => Resolver.is_sleep e = true) (snd run) = []
  /\ snd run <> [Resolver.Call 0 prompt; Resolver.Sleep 2;
                 Resolver.Call 1 prompt; Resolver.Sleep 4; Resolver.Call 2 prompt].
Proof.
  cbv zeta. split; [vm_compute; reflexivity |].
  assert (Hrun : Resolver.resolve_selector Samples.json_loads true
                   (fun _ _ => Resolver.TimedOut) "wishlist" "button" Samples.other_page
                 = (Resolver.PNone,
                    [Resolver.Call 0 (Resolver.prompt_of "wishlist" "button" Samples.other_page);
                     Resolver.Call 1 (Resolver.prompt_of "wishlist" "button" Samples.other_page);
                     Resolver.Call 2 (Resolver.prompt_of "wishlist" "button" Samples.other_page)]))
    by (vm_compute; reflexivity).
  rewrite Hrun. split; [reflexivity |]. split; [reflexivity |].
  cbn [snd]. discriminate.
Qed.

(** C3, amended.  A request that misses the static table makes at most three
    transport calls, all with the same prompt.  An attempt that ends in an
    empty reply, a JSON parse failure, a timeout or any other error is
    retried while attempts remain: after a timeout at once, after any other
    failure once the backoff of (attempt index + 1) * 2 seconds has been
    slept.  When all three attempts fail the resolver returns not-found after
    exactly three calls; it returns a value in every case. *)
Theorem retry_policy_of_the_slow_path
    (json_loads : string -> option Resolver.PyVal) (api_key_set : bool)
    (transport : nat -> string -> Resolver.Outcome)
    (description element_type : string) (pe : Resolver.PageElements) :
  Resolver.misses_table description pe ->
  let prompt := Resolver.prompt_of description element_type pe in
  let run := Resolver.resolve_selector json_loads api_key_set transport
               description element_type pe in
  (Resolver.transport_calls (snd run) <= 3)%nat
  /\ (forall attempt p, Resolver.Call attempt p ∈ snd run ->
                        p = prompt /\ (attempt < 3)%nat)
  /\ (api_key_set = true ->
      Resolver.attempt_failed json_loads (transport 0%nat prompt) = true ->
      Resolver.attempt_failed json_loads (transport 1%nat prompt) = true ->
      Resolver.attempt_failed json_loads (transport 2%nat prompt) = true ->
      run = (Resolver.PNone,
             Resolver.Call 0 prompt
               :: Resolver.pause_after 0 (transport 0%nat prompt)
               ++ Resolver.Call 1 prompt
               :: Resolver.pause_after 1 (transport 1%nat prompt)
               ++ [Resolver.Call 2 prompt])
      /\ Resolver.transport_calls (snd run) = 3%nat)
  /\ (forall attempt outcome,
        Resolver.pause_after attempt outcome
        = match outcome with
          | Resolver.TimedOut => []
          | _ => [Resolver.Sleep ((Z.of_nat attempt + 1) * 2)]
          end).
Proof.
  intros Hmiss prompt run.
  assert (Hrun : run = if api_key_set
                       then Resolver.retry_loop json_loads transport prompt (seq 0 3)
                       else (Resolver.PNone, []))
    by (apply resolve_selector_miss, Hmiss).
  split; [| split; [| split]].
  - rewrite Hrun. destruct api_key_set.
    + apply (retry_loop_calls_bounded json_loads transport prompt (seq 0 3)).
    + cbn. lia.
  - intros attempt p Hin. rewrite Hrun in Hin. destruct api_key_set.
    + destruct (Resolver.retry_loop json_loads transport prompt (seq 0 3))
        as [v events] eqn:Hloop.
      destruct (calls_carry_the_prompt json_loads _ _ _ _ _ _ _ Hloop Hin)
        as [-> Hmem].
      split; [done |]. apply elem_of_seq in Hmem. lia.
    + by apply elem_of_nil in Hin.
  - intros -> H0 H1 H2.
    assert (Hfull : run = (Resolver.PNone,
               Resolver.Call 0 prompt
                 :: Resolver.pause_after 0 (transport 0%nat prompt)
                 ++ Resolver.Call 1 prompt
                 :: Resolver.pause_after 1 (transport 1%nat prompt)
                 ++ [Resolver.Call 2 prompt])).
    { rewrite Hrun. cbn [seq Resolver.retry_loop].
      rewrite !(step_of_failed json_loads) by assumption. reflexivity. }
    split; [exact Hfull |]. rewrite Hfull. cbn [snd].
    rewrite transport_calls_cons_call, transport_calls_app,
      transport_calls_cons_call, transport_calls_app.
    by destruct (transport 0%nat prompt), (transport 1%nat prompt).
  - intros attempt []; reflexivity.
Qed.

Lemma retry_policy_of_the_slow_path_witness :
  Resolver.resolve_selector Samples.json_loads true Samples.flaky
    "wishlist" "button" Samples.other_page
  = (Resolver.PNone,
     [Resolver.Call 0 (Resolver.prompt_of "wishlist" "button" Samples.other_page);
      Resolver.Sleep 2;
      Resolver.Call 1 (Resolver.prompt_of "wishlist" "button" Samples.other_page);
      Resolver.Call 2 (Resolver.prompt_of "wishlist" "button" Samples.other_page)]).
Proof.
  pose proof (retry_policy_of_the_slow_path Samples.json_loads true Samples.flaky
                "wishlist" "button" Samples.other_page
                ltac:(vm_compute; reflexivity)) as H.
  cbv zeta in H. destruct H as (_ & _ & Hall & _).
  destruct (Hall eq_refl eq_refl eq_refl eq_refl) as [Hrun _].
  exact Hrun.
Defined.

(** *** Slices of the page markup *)

Section SliceFacts.

Implicit Types (s t sub : string) (n i : nat).

Lemma length_append s t :
  String.length (s ++ t) = (String.length s + String.length t)%nat.
Proof.
  induction s as [|c s IH]; [done |].
  rewrite append_cons. cbn [String.length]. by rewrite IH.
Qed.

Lemma append_assoc s t u : (s ++ t) ++ u = s ++ (t ++ u).
Proof.
  induction s as [|c s IH]; [done |]. by rewrite !append_cons, IH.
Qed.

Lemma length_repeat (c : ascii) n : String.length (PyStr.repeat c n) = n.
Proof. induction n as [|n IH]; cbn; [done | by rewrite IH]. Qed.

Lemma length_take n s :
  String.length (PyStr.take n s) = Nat.min n (String.length s).
Proof.
  revert s. induction n as [|n IH]; intros [|c s]; cbn; try done.
  by rewrite IH.
Qed.

Lemma length_drop n s :
  String.length (PyStr.drop n s) = (String.length s - n)%nat.
Proof.
  revert s. induction n as [|n IH]; intros [|c s]; cbn; try done; lia.
Qed.

Lemma take_all n s : (String.length s <= n)%nat -> PyStr.take n s = s.
Proof.
  revert s. induction n as [|n IH]; intros [|c s]; cbn; try done; [lia |].
  intros H. rewrite IH; [done | lia].
Qed.

Lemma take_drop n s : PyStr.take n s ++ PyStr.drop n s = s.
Proof.
  revert s. induction n as [|n IH]; intros [|c s]; cbn; try done.
  by rewrite append_cons, IH.
Qed.

(** [s[i : i+n]] read as "skip [i], then keep [n]". *)
Lemma drop_take i n s :
  PyStr.drop i (PyStr.take (i + n) s) = PyStr.take n (PyStr.drop i s).
Proof.
  revert s. induction i as [|i IH]; intros s; [done |].
  destruct s as [|c s]; cbn; [by destruct n | apply IH].
Qed.

Lemma starts_with_take sub n s :
  PyStr.starts_with sub s = true -> (String.length sub <= n)%nat ->
  PyStr.starts_with sub (PyStr.take n s) = true.
Proof.
  revert n s. induction sub as [|a sub IH]; intros n s; [done |].
  destruct s as [|b s]; [done |]. cbn.
  destruct (Ascii.eqb a b) eqn:Hab; [| done].
  intros Hs Hn. destruct n as [|n]; [lia |]. cbn.
  rewrite Hab. apply IH; [done | lia].
Qed.

End SliceFacts.

Section TruncationFacts.
Import Resolver.

Lemma find_nat_spec (sub s : string) (i : nat) :
  PyStr.find_nat sub s = Some i ->
  PyStr.starts_with sub (PyStr.drop i s) = true /\ (i <= String.length s)%nat.
Proof.
  revert i. induction s as [|c s IH]; intros i; cbn [PyStr.find_nat].
  - destruct (PyStr.starts_with sub "") eqn:Hs; [| done].
    intros [= <-]. split; [done | cbn; lia].
  - destruct (PyStr.starts_with sub (String c s)) eqn:Hs.
    + intros [= <-]. split; [done | cbn; lia].
    + destruct (PyStr.find_nat sub s) as [j|]; [| done].
      intros [= <-]. destruct (IH j eq_refl) as [Hj Hle].
      split; [exact Hj | cbn; lia].
Qed.

Lemma find_range (sub s : string) :
  -1 <= PyStr.find sub s <= PyStr.len s.
Proof.
  unfold PyStr.find, PyStr.len.
  destruct (PyStr.find_nat sub s) as [i|] eqn:Hf; [| lia].
  apply find_nat_spec in Hf as [_ Hle]. lia.
Qed.

Lemma truncate_html_long (page_html : string) :
  max_length < PyStr.len page_html ->
  truncate_html page_html
  = PyStr.take (Z.to_nat max_length)
      (PyStr.drop (Z.to_nat (kept_from page_html)) page_html)
    ++ truncation_marker.
Proof.
  intros Hlong. unfold truncate_html, kept_from.
  apply Z.ltb_lt in Hlong. rewrite Hlong. f_equal.
  pose proof (find_range "<body" page_html) as [Hlo _].
  destruct (0 <? PyStr.find "<body" page_html) eqn:Hpos; unfold PyStr.slice.
  - apply Z.ltb_lt in Hpos.
    rewrite Z.max_r by lia. rewrite Z2Nat.inj_add by (unfold max_length; lia).
    apply drop_take.
  - apply Z.ltb_ge in Hpos. rewrite Z.max_l by lia. reflexivity.
Qed.

End TruncationFacts.

Lemma long_html_shape :
  String.length Samples.long_html = Z.to_nat 100001
  /\ PyStr.find "<body" Samples.long_html = 2.
Proof.
  unfold Samples.long_html. split.
  - rewrite length_append, length_repeat.
    change (String.length "xx<body") with 7%nat. lia.
  - generalize (PyStr.repeat "a" (Z.to_nat 99994)); intros t.
    rewrite !append_cons, append_nil. reflexivity.
Qed.

(** C8 as stated fails on the length of the slice: when the first "<body"
    lies less than 100,000 characters before the end of an over-long markup,
    the slice taken from it runs out of markup first.  Here the markup has
    100,001 characters, the body tag is at offset 2, and 99,999 characters
    are kept. *)
Lemma body_slice_can_be_shorter_than_the_limit :
  PyStr.len Samples.long_html = 100001
  /\ PyStr.find "<body" Samples.long_html = 2
  /\ Resolver.truncate_html Samples.long_html
     = PyStr.drop 2 Samples.long_html ++ Resolver.truncation_marker
  /\ PyStr.len (PyStr.drop 2 Samples.long_html) = 99999.
Proof.
  destruct long_html_shape as [Hlen Hfind].
  split; [unfold PyStr.len; rewrite Hlen; lia |].
  split; [exact Hfind |]. split.
  - rewrite truncate_html_long
      by (unfold PyStr.len, Resolver.max_length; rewrite Hlen; lia).
    unfold Resolver.kept_from. rewrite Hfind.
    change (Z.to_nat (Z.max 0 2)) with 2%nat.
    rewrite take_all; [reflexivity |].
    rewrite length_drop, Hlen. unfold Resolver.max_length. lia.
  - unfold PyStr.len. rewrite length_drop, Hlen. lia.
Qed.

(** C8, amended.  The prompt of every transport call carries the markup as
    [truncate_html] leaves it.  Markup of at most 100,000 characters is
    carried unmodified.  Of longer markup the prompt carries one contiguous
    slice followed by the truncation marker: the slice starts at the first
    "<body" when the markup has one and at the beginning otherwise, and it is
    100,000 characters long or runs to the end of the markup, whichever is
    shorter. *)
Theorem prompt_markup_is_cut_from_the_body
    (json_loads : string -> option Resolver.PyVal) (api_key_set : bool)
    (transport : nat -> string -> Resolver.Outcome)
    (description element_type : string) (pe : Resolver.PageElements) :
  let html := default "" (Resolver.pe_html pe) in
  Resolver.max_length = 100000
  /\ (forall attempt p,
        Resolver.Call attempt p
          ∈ snd (Resolver.resolve_selector json_loads api_key_set transport
                   description element_type pe) ->
        exists prefix,
          p = prefix ++ Resolver.truncate_html html ++ Resolver.prompt_tail)
  /\ (PyStr.len html <= Resolver.max_length -> Resolver.truncate_html html = html)
  /\ (Resolver.max_length < PyStr.len html ->
      exists before kept after,
        html = before ++ kept ++ after
        /\ PyStr.len before = Resolver.kept_from html
        /\ PyStr.len kept
           = Z.min Resolver.max_length (PyStr.len html - Resolver.kept_from html)
        /\ Resolver.truncate_html html = kept ++ Resolver.truncation_marker
        /\ (0 <= PyStr.find "<body" html ->
            Resolver.kept_from html = PyStr.find "<body" html
            /\ PyStr.starts_with "<body" kept = true)
        /\ (PyStr.find "<body" html = -1 -> before = "")).
Proof.
  intros html. split; [reflexivity |]. split; [| split].
  - intros attempt p Hin.
    exists (Resolver.prompt_head ++ description ++ Resolver.prompt_hint
              ++ element_type ++ Resolver.prompt_html).
    rewrite !append_assoc.
    destruct (Resolver._fast_resolve description
                (default "" (Resolver.pe_url pe))) as [selector|] eqn:Hfast.
    + rewrite (resolve_selector_hit json_loads _ _ _ _ _ _ Hfast) in Hin.
      by apply elem_of_nil in Hin.
    + rewrite (resolve_selector_miss json_loads) in Hin by exact Hfast.
      destruct api_key_set; [| by apply elem_of_nil in Hin].
      destruct (Resolver.retry_loop json_loads transport
                  (Resolver.prompt_of description element_type pe) (seq 0 3))
        as [v events] eqn:Hloop.
      by destruct (calls_carry_the_prompt json_loads _ _ _ _ _ _ _ Hloop Hin)
        as [-> _].
  - intros Hshort. unfold Resolver.truncate_html.
    apply Z.ltb_ge in Hshort. by rewrite Hshort.
  - intros Hlong.
    pose proof (find_range "<body" html) as [Hlo Hhi].
    set (i := Z.to_nat (Resolver.kept_from html)).
    set (n := Z.to_nat Resolver.max_length).
    assert (Hi : (i <= String.length html)%nat)
      by (unfold i, Resolver.kept_from, PyStr.len in *; lia).
    exists (PyStr.take i html), (PyStr.take n (PyStr.drop i html)),
           (PyStr.drop n (PyStr.drop i html)).
    split; [by rewrite !take_drop |].
    split; [unfold PyStr.len; rewrite length_take;
            unfold i, Resolver.kept_from, PyStr.len in *; lia |].
    split; [unfold PyStr.len; rewrite length_take, length_drop;
            unfold i, n, Resolver.kept_from, Resolver.max_length, PyStr.len in *;
            lia |].
    split; [by apply truncate_html_long |]. split.
    + intros Hfound.
      assert (Hk : Resolver.kept_from html = PyStr.find "<body" html)
        by (unfold Resolver.kept_from; lia).
      split; [exact Hk |].
      apply starts_with_take.
      * unfold i. rewrite Hk. unfold PyStr.find in *.
        destruct (PyStr.find_nat "<body" html) as [j|] eqn:Hj; [| lia].
        rewrite Nat2Z.id. by apply find_nat_spec in Hj as [Hj _].
      * change (String.length "<body") with 5%nat.
        unfold n, Resolver.max_length. lia.
    + intros Hnone.
      assert (Hi0 : i = 0%nat) by (unfold i, Resolver.kept_from; lia).
      by rewrite Hi0.
Qed.

Lemma prompt_markup_is_cut_from_the_body_witness :
  exists before kept after,
    Samples.long_html = before ++ kept ++ after
    /\ PyStr.len before = 2
    /\ PyStr.len kept = 99999
    /\ Resolver.truncate_html Samples.long_html = kept ++ Resolver.truncation_marker.
Proof.
  destruct long_html_shape as [Hlen Hfind].
  pose proof (prompt_markup_is_cut_from_the_body (fun _ => None) true
                (fun _ _ => Resolver.Failed) "wishlist" "button"
                (Resolver.mkPageElements None (Some Samples.long_html))) as H.
  cbv zeta in H.
  change (default "" (Resolver.pe_html
            (Resolver.mkPageElements None (Some Samples.long_html))))
    with Samples.long_html in H.
  destruct H as (_ & _ & _ & Hcut).
  destruct Hcut as (before & kept & after & Hsplit & Hb & Hk & Htr & _).
  { unfold Resolver.max_length, PyStr.len. rewrite Hlen. lia. }
  exists before, kept, after.
  unfold Resolver.kept_from, Resolver.max_length, PyStr.len in *.
  rewrite Hfind in *. rewrite Hlen in *.
  split; [exact Hsplit |]. split; [lia |]. split; [lia | exact Htr].
Defined.

(** ** Browser session *)

Section BrowserFacts.
Import Browser.

Implicit Types (env : Env) (w : World) (s : BrowserManager).

(** Unfold the monad and split on every answer of the environment. *)
Ltac run_monad :=
  unfold new_page, open_in_new_tab, _ensure_context, _ensure_browser, launch,
    switch_tab, get_tab_list, release, try_pass,
    bind, gets, modify, ret, call, lift, forget in *;
  cbn in *;
  repeat (case_match; simplify_eq/=).

(** Acquiring the context never touches the tabs. *)
Lemma ensure_context_frame env w :
  _tabs (mgr (snd (_ensure_context env w))) = _tabs (mgr w)
  /\ _active_tab_index (mgr (snd (_ensure_context env w)))
     = _active_tab_index (mgr w).
Proof. run_monad; done. Qed.

(** [new_page] either raises and leaves the tabs alone, or returns the
    page it appended and made active. *)
Lemma new_page_cases env url w :
  (exists e, fst (new_page env url w) = Raise e
             /\ _tabs (mgr (snd (new_page env url w))) = _tabs (mgr w)
             /\ _active_tab_index (mgr (snd (new_page env url w)))
                = _active_tab_index (mgr w))
  \/ (exists page, fst (new_page env url w) = Ok page
                   /\ _tabs (mgr (snd (new_page env url w)))
                      = (_tabs (mgr w) ++ [page])%list
                   /\ _active_tab_index (mgr (snd (new_page env url w)))
                      = tab_count (mgr w)).
Proof.
  run_monad; unfold tab_count; cbn;
    first [ left; eexists; repeat split; reflexivity
          | right; eexists; repeat split; try reflexivity;
            rewrite length_app; cbn; lia ].
Qed.

Lemma switch_tab_cases index w :
  mgr (snd (switch_tab index w)) = mgr w
  \/ (0 <= index < tab_count (mgr w)
      /\ _tabs (mgr (snd (switch_tab index w))) = _tabs (mgr w)
      /\ _active_tab_index (mgr (snd (switch_tab index w))) = index).
Proof.
  run_monad; [right | left; done].
  repeat split; try done; apply andb_prop in H as [?%Z.leb_le ?%Z.ltb_lt]; lia.
Qed.

Lemma get_tab_list_frame env w : snd (get_tab_list env w) = w.
Proof. run_monad; done. Qed.

(** *** Teardown *)

Lemma close_page_frame env page w :
  mgr (snd (close_page env page w)) = mgr w.
Proof.
  unfold close_page, try_pass, call.
  destruct (page_close env page) as [[]|e]; [done |].
  by destruct (is_Exception e).
Qed.

(** The loop over the tabs only logs calls, however it ends. *)
Lemma close_pages_frame env pages w :
  mgr (snd (for_each pages (close_page env) w)) = mgr w.
Proof.
  revert w. induction pages as [|page pages IH]; intros w; [done |].
  cbn [for_each]. unfold bind at 1.
  pose proof (close_page_frame env page w) as Hpage.
  destruct (close_page env page w) as [[[]|e] w1]; cbn in *;
    [by rewrite IH | done].
Qed.

(** With failures that are [Exception]s, the loop closes every tab. *)
Lemma close_pages_ok env pages w :
  (forall page e, page_close env page = Raise e -> is_Exception e = true) ->
  for_each pages (close_page env) w
  = (Ok tt, mkWorld (mgr w) (calls w ++ (CallPageClose <$> pages))).
Proof.
  intros Hexc. revert w. induction pages as [|page pages IH]; intros w.
  - cbn. rewrite app_nil_r. by destruct w.
  - cbn [for_each]. unfold bind at 1.
    assert (Hpage : close_page env page w
                    = (Ok tt, mkWorld (mgr w) (calls w ++ [CallPageClose page]))).
    { unfold close_page, try_pass, call.
      destruct (page_close env page) as [[]|e] eqn:Hc; [done |].
      by rewrite (Hexc _ _ Hc). }
    rewrite Hpage, IH. cbn. by rewrite <- app_assoc.
Qed.

Lemma release_ok field what closer clear w :
  (forall h e, closer h = Raise e -> is_Exception e = true) ->
  release field what closer clear w
  = (Ok tt,
     mkWorld (match field (mgr w) with
              | Some _ => clear (mgr w)
              | None => mgr w
              end)
             (calls w ++ release_call what (field (mgr w)))).
Proof.
  intros Hexc. unfold release, release_call, bind, gets.
  destruct (field (mgr w)) as [h|].
  - unfold try_pass, call, modify.
    destruct (closer h) as [[]|e] eqn:Hc; [done |].
    by rewrite (Hexc _ _ Hc).
  - unfold ret. rewrite app_nil_r. by destruct w.
Qed.

(** Whatever the environment answers, [close] leaves the tabs either as
    they were (a tab's close raised past the handler) or empty with the
    index at -1. *)
Lemma close_cases env w :
  (_tabs (mgr (snd (close env w))) = _tabs (mgr w)
   /\ _active_tab_index (mgr (snd (close env w))) = _active_tab_index (mgr w))
  \/ (_tabs (mgr (snd (close env w))) = []
      /\ _active_tab_index (mgr (snd (close env w))) = -1).
Proof.
  assert (Hrest : forall w1,
             _tabs (mgr (snd (release_all env w1))) = []
             /\ _active_tab_index (mgr (snd (release_all env w1))) = -1).
  { intros w1. unfold release_all. run_monad; done. }
  pose proof (close_pages_frame env (_tabs (mgr w)) w) as Hframe.
  unfold close, bind, gets.
  destruct (for_each (_tabs (mgr w)) (close_page env) w) as [[[]|e] w1].
  - right. apply Hrest.
  - left. cbn in *. by rewrite Hframe.
Qed.

End BrowserFacts.

Section InvariantFacts.
Import Browser.

Lemma invariant_by_tabs (s s' : BrowserManager) :
  _tabs s' = _tabs s -> _active_tab_index s' = _active_tab_index s ->
  tab_invariant s -> tab_invariant s'.
Proof. unfold tab_invariant, tab_count. by intros -> ->. Qed.

Lemma invariant_empty (s : BrowserManager) :
  _tabs s = [] -> _active_tab_index s = -1 -> tab_invariant s.
Proof.
  unfold tab_invariant, tab_count. intros -> ->. cbn.
  split; split; try done; lia.
Qed.

Lemma invariant_at (s : BrowserManager) (i : Z) :
  0 <= i < tab_count s -> _active_tab_index s = i -> tab_invariant s.
Proof.
  unfold tab_invariant, tab_count. intros Hi ->.
  assert (Hne : _tabs s <> []) by (intros Hnil; rewrite Hnil in Hi; cbn in Hi; lia).
  split; split; try done; lia.
Qed.

Lemma run_op_preserves (env : Env) (op : Op) (w : World) :
  tab_invariant (mgr w) -> tab_invariant (mgr (run_op env op w)).
Proof.
  intros Hinv.
  assert (Hopen : forall url, tab_invariant (mgr (snd (new_page env url w)))).
  { intros url.
    destruct (new_page_cases env url w)
      as [(e & _ & Ht & Hi) | (page & _ & Ht & Hi)].
    - by apply (invariant_by_tabs (mgr w)).
    - apply (invariant_at _ (tab_count (mgr w))); [| exact Hi].
      unfold tab_count. rewrite Ht, length_app. cbn. lia. }
  destruct op as [url | url | index | |]; cbn [run_op]; unfold forget.
  - apply Hopen.
  - apply Hopen.
  - destruct (switch_tab_cases index w) as [-> | (Hidx & Ht & Hi)]; [done |].
    apply (invariant_at _ index); [| exact Hi].
    unfold tab_count in *. by rewrite Ht.
  - by rewrite get_tab_list_frame.
  - destruct (close_cases env w) as [[Ht Hi] | [Ht Hi]].
    + by apply (invariant_by_tabs (mgr w)).
    + by apply invariant_empty.
Qed.

End InvariantFacts.

(** C6.  The session invariant (the active tab index is a position of the
    tab sequence iff the sequence is non-empty, and is -1 iff it is empty)
    holds for a new manager and is preserved by every operation: opening a
    tab either way, switching tabs, listing tabs and teardown, whether the
    operation returns or raises.  It therefore holds after any run of
    operations on a new manager. *)
Theorem tab_index_invariant_is_preserved :
  Browser.tab_invariant Browser.init
  /\ (forall (env : Browser.Env) (op : Browser.Op) (w : Browser.World),
        Browser.tab_invariant (Browser.mgr w) ->
        Browser.tab_invariant (Browser.mgr (Browser.run_op env op w)))
  /\ (forall script : list (Browser.Env * Browser.Op),
        Browser.tab_invariant
          (Browser.mgr (Browser.run_ops script Browser.init_world))).
Proof.
  assert (Hinit : Browser.tab_invariant Browser.init)
    by (by apply invariant_empty).
  split; [exact Hinit |]. split; [exact run_op_preserves |].
  intros script. unfold Browser.run_ops.
  assert (Hgen : forall w, Browser.tab_invariant (Browser.mgr w) ->
            Browser.tab_invariant
              (Browser.mgr
                 (fold_left (fun w' step =>
                               Browser.run_op (fst step) (snd step) w') script w))).
  { induction script as [|[env op] script IH]; intros w Hw; [done |].
    cbn. apply IH. by apply run_op_preserves. }
  by apply Hgen.
Qed.

Lemma tab_index_invariant_is_preserved_witness :
  Browser.tab_invariant
    (Browser.mgr
       (Browser.run_op Samples.hostile (Browser.OpSwitchTab 1) Samples.two_tabs))
  /\ Browser._active_tab_index
       (Browser.mgr
          (Browser.run_op Samples.hostile (Browser.OpSwitchTab 1) Samples.two_tabs))
     = 1.
Proof.
  split; [| reflexivity].
  apply (proj1 (proj2 tab_index_invariant_is_preserved)).
  unfold Browser.tab_invariant. cbn. split; split; try done; lia.
Defined.

(** C7.  [close] returns normally in every session state when the failures
    of the individual closes are [Exception]s: each one is caught, every
    remaining step is still attempted (each tab, then the context, the
    browser and the driver that are set), and at the end the tab collection
    is empty, the active index is -1 and no handle is kept. *)
Theorem close_completes_when_closes_fail (env : Browser.Env) (w : Browser.World) :
  Browser.closes_raise_Exception env ->
  exists w',
    Browser.close env w = (Browser.Ok tt, w')
    /\ Browser._tabs (Browser.mgr w') = []
    /\ Browser._active_tab_index (Browser.mgr w') = -1
    /\ Browser.mgr w' = Browser.init
    /\ Browser.calls w'
       = (Browser.calls w
            ++ (Browser.CallPageClose <$> Browser._tabs (Browser.mgr w))
            ++ Browser.release_call Browser.CallContextClose
                 (Browser._context (Browser.mgr w))
            ++ Browser.release_call Browser.CallBrowserClose
                 (Browser._browser (Browser.mgr w))
            ++ Browser.release_call Browser.CallPlaywrightStop
                 (Browser._playwright (Browser.mgr w)))%list.
Proof.
  intros (Hpage & Hctx & Hbrowser & Hpw).
  eexists. split.
  - unfold Browser.close, Browser.bind at 1 2, Browser.gets at 1.
    rewrite (close_pages_ok env _ w Hpage).
    unfold Browser.release_all.
    unfold Browser.bind at 1, Browser.modify at 1.
    unfold Browser.bind at 1, Browser.modify at 1.
    unfold Browser.bind at 1.
    rewrite (release_ok _ _ _ _ _ Hctx).
    unfold Browser.bind at 1.
    rewrite (release_ok _ _ _ _ _ Hbrowser).
    rewrite (release_ok _ _ _ _ _ Hpw).
    reflexivity.
  - destruct w as [[pw br ctx tabs idx] log]. cbn.
    repeat split; try (by destruct ctx, br, pw).
    destruct ctx, br, pw; cbn; by rewrite <- !app_assoc.
Qed.

Lemma close_completes_when_closes_fail_witness :
  Browser.close Samples.hostile Samples.two_tabs
  = (Browser.Ok tt,
     Browser.mkWorld Browser.init
       [Browser.CallPageClose 5%nat; Browser.CallPageClose 6%nat;
        Browser.CallContextClose 3%nat; Browser.CallBrowserClose 2%nat;
        Browser.CallPlaywrightStop 1%nat]).
Proof.
  destruct (close_completes_when_closes_fail Samples.hostile Samples.two_tabs)
    as (w' & Hclose & _ & _ & Hmgr & Hcalls).
  - repeat split; intros ? e; cbn; intros [= <-]; reflexivity.
  - rewrite Hclose. f_equal. destruct w' as [m log]. cbn in *. by subst.
Defined.

(** C9.  When navigation fails while a tab is being opened, through
    [new_page] or [open_in_new_tab], the error of [page.goto] is the one the
    call raises, and the tab collection and the active tab index are exactly
    what they were before the call: the page is not appended and the index
    is not updated.  The same holds whichever step of opening a tab
    raises. *)
Theorem failed_navigation_leaves_the_tabs_alone
    (env : Browser.Env) (url : string) (w w1 : Browser.World)
    (ctx : Browser.Handle) (page : Browser.Page) (e : Browser.PyExn) :
  Browser._ensure_context env w = (Browser.Ok ctx, w1) ->
  Browser.context_new_page env = Browser.Ok page ->
  Browser.page_goto env page url = Browser.Raise e ->
  (forall opener, opener = Browser.new_page \/ opener = Browser.open_in_new_tab ->
     fst (opener env url w) = Browser.Raise e
     /\ Browser._tabs (Browser.mgr (snd (opener env url w)))
        = Browser._tabs (Browser.mgr w)
     /\ Browser._active_tab_index (Browser.mgr (snd (opener env url w)))
        = Browser._active_tab_index (Browser.mgr w)
     /\ Browser.calls (snd (opener env url w))
        = (Browser.calls w1 ++ [Browser.CallNewPage; Browser.CallGoto page url])%list)
  /\ (forall url' e',
        fst (Browser.new_page env url' w) = Browser.Raise e' ->
        Browser._tabs (Browser.mgr (snd (Browser.new_page env url' w)))
        = Browser._tabs (Browser.mgr w)
        /\ Browser._active_tab_index (Browser.mgr (snd (Browser.new_page env url' w)))
           = Browser._active_tab_index (Browser.mgr w)).
Proof.
  intros Hctx Hpage Hgoto. split.
  - assert (Hrun : Browser.new_page env url w
                   = (Browser.Raise e,
                      Browser.mkWorld (Browser.mgr w1)
                        ((Browser.calls w1 ++ [Browser.CallNewPage])
                           ++ [Browser.CallGoto page url]))).
    { unfold Browser.new_page. unfold Browser.bind at 1. rewrite Hctx.
      unfold Browser.bind at 1, Browser.call at 1. rewrite Hpage.
      unfold Browser.bind at 1, Browser.call at 1. rewrite Hgoto. reflexivity. }
    pose proof (ensure_context_frame env w) as [Ht Hi]. rewrite Hctx in Ht, Hi.
    intros opener [-> | ->]; unfold Browser.open_in_new_tab; rewrite Hrun; cbn;
      rewrite <- app_assoc; done.
  - intros url' e' Hraise.
    destruct (new_page_cases env url' w)
      as [(e0 & _ & Ht & Hi) | (page' & Hok & _)]; [done |].
    rewrite Hok in Hraise. discriminate Hraise.
Qed.

Lemma failed_navigation_leaves_the_tabs_alone_witness :
  fst (Browser.open_in_new_tab Samples.hostile "https://down.example.org/"
         Samples.two_tabs)
  = Browser.Raise (Browser.PyException "net::ERR_NAME_NOT_RESOLVED")
  /\ Browser._tabs (Browser.mgr
       (snd (Browser.open_in_new_tab Samples.hostile "https://down.example.org/"
               Samples.two_tabs))) = [5%nat; 6%nat]
  /\ Browser._active_tab_index (Browser.mgr
       (snd (Browser.open_in_new_tab Samples.hostile "https://down.example.org/"
               Samples.two_tabs))) = 0.
Proof.
  destruct (failed_navigation_leaves_the_tabs_alone Samples.hostile
              "https://down.example.org/" Samples.two_tabs Samples.two_tabs
              3%nat 7%nat (Browser.PyException "net::ERR_NAME_NOT_RESOLVED")
              ltac:(reflexivity) ltac:(reflexivity) ltac:(reflexivity))
    as [Hopen _].
  destruct (Hopen Browser.open_in_new_tab ltac:(by right)) as (Hr & Ht & Hi & _).
  split; [exact Hr |]. split; [exact Ht | exact Hi].
Defined.

(** * Further properties of the modelled code *)

(** ** Confirmation gate *)

Section GateMore.
Import Gate.

Implicit Types (pending : gmap string PendingConfirmation) (now : Z).

Lemma cleanup_keeps_live now pending (k : string) v :
  pending !! k = Some v -> now - created_at v <= 300 ->
  _cleanup_expired_confirmations now pending !! k = Some v.
Proof. intros Hk Hlive. by apply cleanup_lookup_Some. Qed.

Lemma confirm_other_key now supplied pending (k : string) :
  k <> PyStr.upper (PyStr.strip supplied) ->
  snd (_handle_confirm_purchase now supplied pending) !! k
  = _cleanup_expired_confirmations now pending !! k.
Proof.
  intros Hne. unfold _handle_confirm_purchase.
  destruct (_ !! PyStr.upper _); cbn; [| done].
  by rewrite lookup_delete_ne.
Qed.

End GateMore.

(** X1.  A code that is pending when a confirm call arrives is accepted
    exactly when its age is at most 300 seconds: the boundary is inclusive.
    An accepted call returns the stored url and deletes that one record from
    the swept store; a rejected one leaves the swept store. *)
Theorem pending_code_is_accepted_exactly_within_ttl
    (now : Z) (supplied : string)
    (pending : gmap string Gate.PendingConfirmation)
    (v : Gate.PendingConfirmation) :
  pending !! PyStr.upper (PyStr.strip supplied) = Some v ->
  let code := PyStr.upper (PyStr.strip supplied) in
  let swept := Gate._cleanup_expired_confirmations now pending in
  (now - Gate.created_at v <= 300 ->
   Gate._handle_confirm_purchase now supplied pending
   = (Gate.RespAccepted code (Gate.url v), delete code swept))
  /\ (300 < now - Gate.created_at v ->
      Gate._handle_confirm_purchase now supplied pending = (Gate.RespRejected, swept))
  /\ (fst (Gate._handle_confirm_purchase now supplied pending)
      = Gate.RespAccepted code (Gate.url v)
      <-> now - Gate.created_at v <= 300).
Proof.
  intros Hk code swept.
  assert (Hlive : now - Gate.created_at v <= 300 ->
            Gate._handle_confirm_purchase now supplied pending
            = (Gate.RespAccepted code (Gate.url v), delete code swept)).
  { intros Hage. subst code swept. unfold Gate._handle_confirm_purchase.
    by rewrite (cleanup_keeps_live now pending _ v Hk Hage). }
  assert (Hdead : 300 < now - Gate.created_at v ->
            Gate._handle_confirm_purchase now supplied pending
            = (Gate.RespRejected, swept)).
  { intros Hage. apply Z.lt_gt in Hage. subst code swept.
    unfold Gate._handle_confirm_purchase.
    by rewrite lookup_cleanup, Hk, (proj2 (is_expired_spec now v) Hage). }
  split; [exact Hlive |]. split; [exact Hdead |]. split.
  - intros Hacc.
    destruct (Z_le_gt_dec (now - Gate.created_at v) 300) as [|Hgt]; [done |].
    rewrite Hdead in Hacc by lia. discriminate Hacc.
  - intros Hage. by rewrite Hlive.
Qed.

Lemma pending_code_is_accepted_exactly_within_ttl_witness :
  fst (Gate._handle_confirm_purchase 300 "a1b2c3"
         {[ "A1B2C3" := Gate.mkPending 0 "https://shop.example.org/cart" ]})
  = Gate.RespAccepted "A1B2C3" "https://shop.example.org/cart".
Proof.
  pose proof (pending_code_is_accepted_exactly_within_ttl 300 "a1b2c3"
                {[ "A1B2C3" := Gate.mkPending 0 "https://shop.example.org/cart" ]}
                (Gate.mkPending 0 "https://shop.example.org/cart")) as H.
  cbv zeta in H. destruct H as (_ & _ & Hiff).
  - vm_compute. reflexivity.
  - apply Hiff. cbn. lia.
Defined.

(** X2.  A confirm call, accepted or rejected, never removes a record of
    another code that is still within its TTL: what it takes out of the store
    is the confirmed code and the records older than 300 seconds, nothing
    else. *)
Theorem confirm_spares_the_other_live_codes
    (now : Z) (supplied : string)
    (pending : gmap string Gate.PendingConfirmation)
    (k : string) (w : Gate.PendingConfirmation) :
  k <> PyStr.upper (PyStr.strip supplied) ->
  pending !! k = Some w ->
  now - Gate.created_at w <= 300 ->
  snd (Gate._handle_confirm_purchase now supplied pending) !! k = Some w.
Proof.
  intros Hne Hk Hlive. rewrite confirm_other_key by exact Hne.
  by apply cleanup_keeps_live.
Qed.

Lemma confirm_spares_the_other_live_codes_witness :
  snd (Gate._handle_confirm_purchase 250 "00ABFF"
         {[ "00ABFF" := Gate.mkPending 0 "u1"; "010203" := Gate.mkPending 200 "u2" ]})
    !! "010203" = Some (Gate.mkPending 200 "u2").
Proof.
  apply (confirm_spares_the_other_live_codes 250 "00ABFF"
           {[ "00ABFF" := Gate.mkPending 0 "u1"; "010203" := Gate.mkPending 200 "u2" ]}
           "010203" (Gate.mkPending 200 "u2")).
  - vm_compute. discriminate.
  - vm_compute. reflexivity.
  - cbn. lia.
Defined.

(** X3.  Expiry sweeps compose: sweeping at a time and then again at a later
    (or the same) time leaves the store that a single sweep at the later time
    leaves; in particular a sweep is idempotent. *)
Theorem sweeps_compose
    (t1 t2 : Z) (pending : gmap string Gate.PendingConfirmation) :
  t1 <= t2 ->
  Gate._cleanup_expired_confirmations t2
    (Gate._cleanup_expired_confirmations t1 pending)
  = Gate._cleanup_expired_confirmations t2 pending.
Proof.
  intros Hle. apply map_eq. intros k. rewrite !lookup_cleanup.
  destruct (pending !! k) as [v|] eqn:Hk; [| done].
  destruct (Gate.is_expired t1 v) eqn:H1; [| done].
  destruct (Gate.is_expired t2 v) eqn:H2; [done |].
  apply is_expired_spec in H1.
  assert (Hn : ~ t2 - Gate.created_at v > 300).
  { intros Hc. apply is_expired_spec in Hc. congruence. }
  lia.
Qed.

Lemma sweeps_compose_witness :
  Gate._cleanup_expired_confirmations 400
    (Gate._cleanup_expired_confirmations 350
       {[ "00ABFF" := Gate.mkPending 0 "u1"; "010203" := Gate.mkPending 200 "u2" ]})
  = Gate._cleanup_expired_confirmations 400
      {[ "00ABFF" := Gate.mkPending 0 "u1"; "010203" := Gate.mkPending 200 "u2" ]}.
Proof.
  apply (sweeps_compose 350 400). lia.
Defined.

(** X4.  A pending code outlives unrelated traffic: after any run of confirm
    calls for other codes, all made while the code is within its TTL, the
    record is still there unchanged, and a confirm call for it within the TTL
    is accepted. *)
Theorem pending_code_survives_other_confirms
    (calls : list (Z * string)) (now : Z) (supplied : string)
    (pending : gmap string Gate.PendingConfirmation)
    (v : Gate.PendingConfirmation) :
  pending !! PyStr.upper (PyStr.strip supplied) = Some v ->
  Forall (fun c => PyStr.upper (PyStr.strip (snd c))
                   <> PyStr.upper (PyStr.strip supplied)
                   /\ fst c - Gate.created_at v <= 300) calls ->
  now - Gate.created_at v <= 300 ->
  snd (Gate.confirm_all calls pending) !! PyStr.upper (PyStr.strip supplied) = Some v
  /\ fst (Gate._handle_confirm_purchase now supplied
            (snd (Gate.confirm_all calls pending)))
     = Gate.RespAccepted (PyStr.upper (PyStr.strip supplied)) (Gate.url v).
Proof.
  intros Hk Hcalls Hage.
  assert (Hstill : snd (Gate.confirm_all calls pending)
                     !! PyStr.upper (PyStr.strip supplied) = Some v).
  { revert pending Hk. induction Hcalls as [|[t s] calls [Hne Ht] _ IH];
      intros pending Hk; [done |].
    cbn [Gate.confirm_all].
    pose proof (confirm_other_key t s pending _ (not_eq_sym Hne)) as Hother.
    destruct (Gate._handle_confirm_purchase t s pending) as [r p1].
    cbn [snd] in Hother.
    specialize (IH p1). destruct (Gate.confirm_all calls p1) as [rs p2].
    cbn [snd] in *. apply IH. rewrite Hother.
    by apply cleanup_keeps_live. }
  split; [exact Hstill |].
  unfold Gate._handle_confirm_purchase.
  by rewrite (cleanup_keeps_live now _ _ v Hstill Hage).
Qed.

Lemma pending_code_survives_other_confirms_witness :
  fst (Gate._handle_confirm_purchase 290 "00abff"
         (snd (Gate.confirm_all [(100, "BADBAD"); (250, "010203")]
                 {[ "00ABFF" := Gate.mkPending 0 "u1";
                    "010203" := Gate.mkPending 200 "u2" ]})))
  = Gate.RespAccepted "00ABFF" "u1".
Proof.
  refine (proj2 (pending_code_survives_other_confirms
                   [(100, "BADBAD"); (250, "010203")] 290 "00abff"
                   {[ "00ABFF" := Gate.mkPending 0 "u1";
                      "010203" := Gate.mkPending 200 "u2" ]}
                   (Gate.mkPending 0 "u1") _ _ _)).
  - vm_compute. reflexivity.
  - repeat constructor; try (vm_compute; discriminate); cbn; lia.
  - cbn. lia.
Defined.

Section NormalFormFacts.
Import Gate.

Lemma lstrip_blanks (pad s : string) :
  all_chars PyStr.is_space pad = true -> PyStr.lstrip (pad ++ s) = PyStr.lstrip s.
Proof.
  induction pad as [|c pad IH]; [done |]. cbn [all_chars].
  intros [Hc Hpad]%andb_prop. rewrite append_cons. cbn [PyStr.lstrip].
  rewrite Hc. by apply IH.
Qed.

Lemma rstrip_blanks_only (pad : string) :
  all_chars PyStr.is_space pad = true -> PyStr.rstrip pad = "".
Proof.
  induction pad as [|c pad IH]; [done |]. cbn [all_chars PyStr.rstrip].
  intros [Hc Hpad]%andb_prop. by rewrite (IH Hpad), Hc.
Qed.

Lemma rstrip_blanks (s pad : string) :
  all_chars PyStr.is_space pad = true -> PyStr.rstrip (s ++ pad) = PyStr.rstrip s.
Proof.
  intros Hpad. induction s as [|c s IH].
  - rewrite append_nil. by apply rstrip_blanks_only.
  - rewrite append_cons. cbn [PyStr.rstrip]. by rewrite IH.
Qed.

Lemma lstrip_no_space (s : string) :
  all_chars (fun c => negb (PyStr.is_space c)) s = true -> PyStr.lstrip s = s.
Proof.
  destruct s as [|c s]; [done |]. cbn.
  intros [Hc _]%andb_prop. by destruct (PyStr.is_space c).
Qed.

(** Blanks around a text that has none inside are all that [strip] removes. *)
Lemma strip_padded (pad1 t pad2 : string) :
  all_chars PyStr.is_space pad1 = true ->
  all_chars PyStr.is_space pad2 = true ->
  all_chars (fun c => negb (PyStr.is_space c)) t = true ->
  PyStr.strip (pad1 ++ t ++ pad2) = t.
Proof.
  intros H1 H2 Ht. unfold PyStr.strip. rewrite (lstrip_blanks _ _ H1).
  destruct t as [|c t].
  - rewrite append_nil.
    assert (Hl : all_chars PyStr.is_space (PyStr.lstrip pad2) = true).
    { clear -H2. induction pad2 as [|c p IH]; [done |]. cbn in *.
      apply andb_prop in H2 as [Hc Hp]. rewrite Hc. by apply IH. }
    by apply rstrip_blanks_only.
  - rewrite append_cons. cbn [PyStr.lstrip]. cbn [all_chars] in Ht.
    apply andb_prop in Ht as [Hc Ht].
    destruct (PyStr.is_space c) eqn:Hsp; [done |].
    rewrite <- append_cons, (rstrip_blanks _ _ H2).
    apply rstrip_no_space. cbn [all_chars]. by rewrite Hsp, Ht.
Qed.

Lemma same_letter_as_hex (c h : ascii) :
  is_upper_hex h = true -> PyStr.lower_char c = PyStr.lower_char h ->
  PyStr.upper_char c = h /\ PyStr.is_space c = false.
Proof.
  intros Hh%upper_hex_cases.
  repeat (apply elem_of_cons in Hh as [->|Hh]); [.. | by apply elem_of_nil in Hh];
    destruct c as [[] [] [] [] [] [] [] []]; vm_compute; intros Heq;
    first [discriminate Heq | split; reflexivity].
Qed.

Lemma same_text_as_hex (t s : string) :
  all_chars is_upper_hex s = true -> PyStr.lower t = PyStr.lower s ->
  PyStr.upper t = s /\ all_chars (fun c => negb (PyStr.is_space c)) t = true.
Proof.
  revert t. induction s as [|h s IH]; intros [|c t]; cbn; try done.
  intros [Hh Hs]%andb_prop [= Hc Ht].
  destruct (same_letter_as_hex c h Hh Hc) as [-> ->].
  destruct (IH t Hs Ht) as [Hu Hn]. split; [| exact Hn].
  f_equal. exact Hu.
Qed.

End NormalFormFacts.

(** X5.  The code a preview issues is recognised however the caller types
    it: any text that equals the code up to letter case, with any blanks
    before and after it, normalises to the code, so a confirm call with it
    finds the record and, within the TTL, is accepted. *)
Theorem issued_code_is_recognised_in_any_case_and_padding
    (b0 b1 b2 : byte) (pad1 typed pad2 : string)
    (now : Z) (pending : gmap string Gate.PendingConfirmation)
    (v : Gate.PendingConfirmation) :
  Gate.all_chars PyStr.is_space pad1 = true ->
  Gate.all_chars PyStr.is_space pad2 = true ->
  PyStr.lower typed = PyStr.lower (Gate._generate_confirmation_code b0 b1 b2) ->
  PyStr.upper (PyStr.strip (pad1 ++ typed ++ pad2))
  = Gate._generate_confirmation_code b0 b1 b2
  /\ (pending !! Gate._generate_confirmation_code b0 b1 b2 = Some v ->
      now - Gate.created_at v <= 300 ->
      fst (Gate._handle_confirm_purchase now (pad1 ++ typed ++ pad2) pending)
      = Gate.RespAccepted (Gate._generate_confirmation_code b0 b1 b2) (Gate.url v)).
Proof.
  intros H1 H2 Hsame.
  destruct (code_all_upper_hex b0 b1 b2) as [_ Hhex].
  destruct (same_text_as_hex _ _ Hhex Hsame) as [Hup Hns].
  assert (Hnorm : PyStr.upper (PyStr.strip (pad1 ++ typed ++ pad2))
                  = Gate._generate_confirmation_code b0 b1 b2)
    by (by rewrite (strip_padded _ _ _ H1 H2 Hns)).
  split; [exact Hnorm |].
  intros Hk Hage. unfold Gate._handle_confirm_purchase. rewrite Hnorm.
  by rewrite (cleanup_keeps_live now _ _ v Hk Hage).
Qed.

Lemma issued_code_is_recognised_in_any_case_and_padding_witness :
  PyStr.upper (PyStr.strip ("  " ++ "a1B2c3" ++ " "))
  = Gate._generate_confirmation_code xa1 xb2 xc3.
Proof.
  refine (proj1 (issued_code_is_recognised_in_any_case_and_padding
                   xa1 xb2 xc3 "  " "a1B2c3" " " 0 ∅ (Gate.mkPending 0 "") _ _ _));
    reflexivity.
Defined.

(** ** Element resolver *)

Section ResolverMore.
Import Resolver.

Variable json_loads : string -> option PyVal.

Lemma retry_loop_returned transport prompt attempt rest v :
  try_body json_loads (transport attempt prompt) = Returned v ->
  retry_loop json_loads transport prompt (attempt :: rest)
  = (v, [Call attempt prompt]).
Proof.
  intros Hbody. cbn [retry_loop]. unfold attempt_step. by rewrite Hbody.
Qed.

Lemma retry_loop_failed transport prompt attempt rest :
  (attempt < 2)%nat ->
  attempt_failed json_loads (transport attempt prompt) = true ->
  retry_loop json_loads transport prompt (attempt :: rest)
  = (fst (retry_loop json_loads transport prompt rest),
     Call attempt prompt
       :: pause_after attempt (transport attempt prompt)
       ++ snd (retry_loop json_loads transport prompt rest)).
Proof.
  intros Hlt Hfail. cbn [retry_loop].
  rewrite (step_of_failed json_loads) by exact Hfail.
  apply Nat.ltb_lt in Hlt. rewrite Hlt.
  by destruct (retry_loop json_loads transport prompt rest).
Qed.

Lemma slept_seconds_app xs ys :
  slept_seconds (xs ++ ys) = slept_seconds xs + slept_seconds ys.
Proof.
  unfold slept_seconds. induction xs as [|x xs IH]; [cbn; lia |].
  rewrite <- app_comm_cons. cbn [fold_right]. rewrite IH. destruct x; lia.
Qed.

Lemma transport_calls_pause attempt outcome :
  transport_calls (pause_after attempt outcome) = 0%nat.
Proof. by destruct outcome. Qed.

Lemma slept_seconds_pause attempt outcome :
  0 <= slept_seconds (pause_after attempt outcome) <= (Z.of_nat attempt + 1) * 2.
Proof. destruct outcome; cbn; lia. Qed.

(** A reply whose [found] member is truthy returns the [selector] member,
    or the empty string when the object has none. *)
Lemma found_truthy_returns content inner items found :
  content <> "" ->
  unfence content = inr inner ->
  json_loads (PyStr.strip inner) = Some (PDict items) ->
  dict_get items "found" = Some found ->
  truthy found = true ->
  try_body json_loads (Reply content)
  = Returned (default (PStr "") (dict_get items "selector")).
Proof.
  intros Hne%String.eqb_neq Hun Hjs Hfound Htruthy.
  unfold try_body, get. rewrite Hne, Hun, Hjs, Hfound.
  change (default (PBool false) (Some found)) with found.
  by rewrite Htruthy.
Qed.

End ResolverMore.

(** X6.  A reply that parses (after the fence stripping) to a JSON object
    whose [found] member is truthy ends the run at once: the result is the
    object's [selector] member and no further transport call is made.
    Truthiness is Python's (the string "false" counts as found), and an
    object without a [selector] member yields the empty string. *)
Theorem found_truthy_returns_the_selector
    (json_loads : string -> option Resolver.PyVal)
    (transport : nat -> string -> Resolver.Outcome)
    (description element_type : string) (pe : Resolver.PageElements)
    (content inner : string) (items : list (string * Resolver.PyVal))
    (found : Resolver.PyVal) :
  Resolver.misses_table description pe ->
  transport 0%nat (Resolver.prompt_of description element_type pe)
  = Resolver.Reply content ->
  content <> "" ->
  Resolver.unfence content = inr inner ->
  json_loads (PyStr.strip inner) = Some (Resolver.PDict items) ->
  Resolver.dict_get items "found" = Some found ->
  Resolver.truthy found = true ->
  Resolver.resolve_selector json_loads true transport description element_type pe
  = (default (Resolver.PStr "") (Resolver.dict_get items "selector"),
     [Resolver.Call 0 (Resolver.prompt_of description element_type pe)]).
Proof.
  intros Hmiss Hreply Hne Hun Hjs Hfound Htruthy.
  rewrite (resolve_selector_miss json_loads) by exact Hmiss.
  apply retry_loop_returned. rewrite Hreply.
  by eapply found_truthy_returns.
Qed.

Lemma found_truthy_returns_the_selector_witness :
  Resolver.resolve_selector Fixtures.json_loads true
    (fun _ _ => Resolver.Reply Fixtures.present_json)
    "wishlist" "button" Samples.other_page
  = (Resolver.PStr "#wishlist",
     [Resolver.Call 0 (Resolver.prompt_of "wishlist" "button" Samples.other_page)]).
Proof.
  refine (found_truthy_returns_the_selector Fixtures.json_loads
            (fun _ _ => Resolver.Reply Fixtures.present_json)
            "wishlist" "button" Samples.other_page
            Fixtures.present_json Fixtures.present_json
            [("selector", Resolver.PStr "#wishlist"); ("found", Resolver.PBool true)]
            (Resolver.PBool true) _ _ _ _ _ _ _).
  - vm_compute. reflexivity.
  - reflexivity.
  - vm_compute. discriminate.
  - vm_compute. reflexivity.
  - vm_compute. reflexivity.
  - reflexivity.
  - reflexivity.
Defined.

(** X7.  Failures are retried until an attempt returns: when the first [k]
    attempts (k at most 2) fail in any of the retried ways and the next one
    returns a value, that value is the result and the transport has been
    called exactly [k + 1] times. *)
Theorem a_later_attempt_can_still_succeed
    (json_loads : string -> option Resolver.PyVal)
    (transport : nat -> string -> Resolver.Outcome)
    (description element_type : string) (pe : Resolver.PageElements)
    (k : nat) (v : Resolver.PyVal) :
  Resolver.misses_table description pe ->
  (k < 3)%nat ->
  (forall j, (j < k)%nat ->
     Resolver.attempt_failed json_loads
       (transport j (Resolver.prompt_of description element_type pe)) = true) ->
  Resolver.try_body json_loads
    (transport k (Resolver.prompt_of description element_type pe))
  = Resolver.Returned v ->
  fst (Resolver.resolve_selector json_loads true transport
         description element_type pe) = v
  /\ Resolver.transport_calls
       (snd (Resolver.resolve_selector json_loads true transport
               description element_type pe)) = S k.
Proof.
  intros Hmiss Hk Hfail Hret.
  rewrite (resolve_selector_miss json_loads) by exact Hmiss.
  cbn [seq].
  destruct k as [|[|[|k]]]; [| | | lia].
  - rewrite (retry_loop_returned json_loads _ _ _ _ _ Hret). done.
  - rewrite (retry_loop_failed json_loads) by (first [lia | apply Hfail; lia]).
    rewrite (retry_loop_returned json_loads _ _ _ _ _ Hret). cbn [fst snd].
    split; [done |].
    rewrite transport_calls_cons_call, transport_calls_app, transport_calls_pause.
    rewrite transport_calls_cons_call. reflexivity.
  - rewrite (retry_loop_failed json_loads) by (first [lia | apply Hfail; lia]).
    rewrite (retry_loop_failed json_loads) by (first [lia | apply Hfail; lia]).
    rewrite (retry_loop_returned json_loads _ _ _ _ _ Hret). cbn [fst snd].
    split; [done |].
    rewrite transport_calls_cons_call, transport_calls_app, transport_calls_pause.
    rewrite transport_calls_cons_call, transport_calls_app, transport_calls_pause.
    rewrite transport_calls_cons_call. reflexivity.
Qed.

Lemma a_later_attempt_can_still_succeed_witness :
  fst (Resolver.resolve_selector Fixtures.json_loads true Fixtures.second_time_lucky
         "wishlist" "button" Samples.other_page)
  = Resolver.PStr "#wishlist"
  /\ Resolver.transport_calls
       (snd (Resolver.resolve_selector Fixtures.json_loads true
               Fixtures.second_time_lucky "wishlist" "button" Samples.other_page))
     = 2%nat.
Proof.
  apply (a_later_attempt_can_still_succeed Fixtures.json_loads
           Fixtures.second_time_lucky "wishlist" "button" Samples.other_page
           1%nat (Resolver.PStr "#wishlist")).
  - vm_compute. reflexivity.
  - lia.
  - intros j Hj. assert (j = 0%nat) as -> by lia. reflexivity.
  - vm_compute. reflexivity.
Defined.

(** X8.  The backoff is bounded: in every run of the resolver each sleep
    lasts 2 or 4 seconds, the sleeps add up to at most 6 seconds, and the run
    never ends on a sleep: when calls were made, the last event is a
    transport call. *)
Theorem backoff_is_bounded
    (json_loads : string -> option Resolver.PyVal) (api_key_set : bool)
    (transport : nat -> string -> Resolver.Outcome)
    (description element_type : string) (pe : Resolver.PageElements) :
  let events := snd (Resolver.resolve_selector json_loads api_key_set transport
                       description element_type pe) in
  0 <= Resolver.slept_seconds events <= 6
  /\ (forall seconds, Resolver.Sleep seconds ∈ events -> seconds = 2 \/ seconds = 4)
  /\ (forall seconds, last events <> Some (Resolver.Sleep seconds)).
Proof.
  assert (Hcases : forall (seconds : Z) (evs : list Resolver.Event),
             Resolver.Sleep seconds ∈ evs ->
             forallb (fun e => match e with
                               | Resolver.Sleep s => (s =? 2) || (s =? 4)
                               | Resolver.Call _ _ => true
                               end) evs = true ->
             seconds = 2 \/ seconds = 4).
  { intros seconds evs Hin Hall. rewrite forallb_forall in Hall.
    apply list_elem_of_In, Hall in Hin. cbn in Hin.
    apply orb_prop in Hin as [?%Z.eqb_eq | ?%Z.eqb_eq]; [by left | by right]. }
  intros events. subst events.
  destruct (Resolver._fast_resolve description (default "" (Resolver.pe_url pe)))
    as [selector|] eqn:Hfast.
  { rewrite (resolve_selector_hit json_loads _ _ _ _ _ _ Hfast). cbn.
    split; [lia |]. split; [| done]. intros ? Hin. by apply elem_of_nil in Hin. }
  rewrite (resolve_selector_miss json_loads) by exact Hfast.
  destruct api_key_set.
  2:{ cbn. split; [lia |]. split; [| done]. intros ? Hin. by apply elem_of_nil in Hin. }
  set (prompt := Resolver.prompt_of description element_type pe).
  cbn [seq Resolver.retry_loop].
  destruct (Resolver.attempt_step json_loads 0 (transport 0%nat prompt))
    as [v0|s0] eqn:H0.
  { cbn. split; [lia |]. split; [| done].
    intros ? [Heq|Hin%elem_of_nil]%elem_of_cons; done. }
  destruct (step_sleeps_only json_loads _ _ _ H0) as (_ & _ & _ & ->).
  destruct (Resolver.attempt_step json_loads 1 (transport 1%nat prompt))
    as [v1|s1] eqn:H1.
  { destruct (transport 0%nat prompt); cbn; (split; [lia |]); (split; [| done]);
      intros ? Hin; apply (Hcases _ _ Hin); reflexivity. }
  destruct (step_sleeps_only json_loads _ _ _ H1) as (_ & _ & _ & ->).
  destruct (Resolver.attempt_step json_loads 2 (transport 2%nat prompt))
    as [v2|s2] eqn:H2.
  2:{ destruct (step_sleeps_only json_loads _ _ _ H2) as (_ & Hlt & _). lia. }
  destruct (transport 0%nat prompt), (transport 1%nat prompt); cbn;
    (split; [lia |]); (split; [| done]);
    intros ? Hin; apply (Hcases _ _ Hin); reflexivity.
Qed.

(** X9.  Without the API key the resolver never reaches the transport: a
    description of the static table still resolves to its selector, and every
    other request is answered not-found, in both cases with no event at
    all. *)
Theorem without_api_key_only_the_table_answers
    (json_loads : string -> option Resolver.PyVal)
    (transport : nat -> string -> Resolver.Outcome)
    (description element_type : string) (pe : Resolver.PageElements) :
  snd (Resolver.resolve_selector json_loads false transport
         description element_type pe) = []
  /\ fst (Resolver.resolve_selector json_loads false transport
            description element_type pe)
     = match Resolver._fast_resolve description
               (default "" (Resolver.pe_url pe)) with
       | Some selector => Resolver.PStr selector
       | None => Resolver.PNone
       end.
Proof.
  destruct (Resolver._fast_resolve description (default "" (Resolver.pe_url pe)))
    as [selector|] eqn:Hfast.
  - by rewrite (resolve_selector_hit json_loads _ _ _ _ _ _ Hfast).
  - by rewrite (resolve_selector_miss json_loads) by exact Hfast.
Qed.

Section PromptSize.
Import Resolver.

Lemma truncate_html_bound (page_html : string) :
  PyStr.len (truncate_html page_html)
  <= Z.min (PyStr.len page_html) max_length + 24.
Proof.
  destruct (Z_lt_le_dec max_length (PyStr.len page_html)) as [Hlong|Hshort].
  - rewrite (truncate_html_long _ Hlong). unfold PyStr.len in *.
    rewrite length_append, length_take, length_drop.
    change (String.length truncation_marker) with 24%nat.
    unfold max_length in *. lia.
  - unfold truncate_html. apply Z.ltb_ge in Hshort as Hb. rewrite Hb. lia.
Qed.

Lemma build_prompt_length (description element_type page_html : string) :
  PyStr.len (build_prompt description element_type page_html)
  = PyStr.len description + PyStr.len element_type + PyStr.len page_html + 139.
Proof.
  unfold build_prompt, PyStr.len. rewrite !length_append.
  change (String.length prompt_head) with 45%nat.
  change (String.length prompt_hint) with 22%nat.
  change (String.length prompt_html) with 21%nat.
  change (String.length prompt_tail) with 51%nat.
  lia.
Qed.

End PromptSize.

(** X10.  The prompt is bounded whatever the page: the markup part never
    exceeds 100,024 characters (100,000 of markup and the marker) nor the
    markup's own length plus the marker, so the prompt is at most the
    description, the type hint and 100,163 further characters long. *)
Theorem prompt_size_is_bounded
    (description element_type : string) (pe : Resolver.PageElements) :
  PyStr.len (Resolver.truncate_html (default "" (Resolver.pe_html pe)))
  <= Z.min (PyStr.len (default "" (Resolver.pe_html pe))) 100000 + 24
  /\ PyStr.len (Resolver.prompt_of description element_type pe)
     <= PyStr.len description + PyStr.len element_type + 100163.
Proof.
  pose proof (truncate_html_bound (default "" (Resolver.pe_html pe))) as Hb.
  unfold Resolver.max_length in Hb. split; [exact Hb |].
  unfold Resolver.prompt_of. rewrite build_prompt_length. lia.
Qed.

Section CaseFacts.
Import Resolver.









End CaseFacts.



(** *** Splitting on a separator *)

Section SplitFacts.

Implicit Types (sep s cur a rest : string).

Lemma append_empty_r s : s ++ "" = s.
Proof. induction s as [|c s IH]; [done |]. by rewrite append_cons, IH. Qed.

Lemma rev_app_acc s acc : String.rev_app s acc = String.rev_app s "" ++ acc.
Proof.
  revert acc. induction s as [|c s IH]; intros acc; [reflexivity |]. cbn.
  rewrite (IH (String c acc)), (IH (String c "")).
  rewrite append_assoc. reflexivity.
Qed.

Lemma split_go_nonempty sep s cur (k : nat) :
  exists first others, PyStr.split_go sep s cur k = first :: others.
Proof.
  revert cur k. induction s as [|c s IH]; intros cur k; cbn; [eauto |].
  destruct k as [|k]; [| apply IH].
  destruct (PyStr.starts_with sep (String c s)); [eauto | apply IH].
Qed.

Lemma prepend_first_app a b (pieces : list string) :
  PyStr.prepend_first a (PyStr.prepend_first b pieces)
  = PyStr.prepend_first (a ++ b) pieces.
Proof. destruct pieces; cbn; [done |]. by rewrite append_assoc. Qed.

(** What has been read of the current piece ends up in front of it. *)
Lemma split_go_cur sep s cur (k : nat) :
  PyStr.split_go sep s cur k
  = PyStr.prepend_first (String.rev cur) (PyStr.split_go sep s "" k).
Proof.
  revert cur k. induction s as [|c s IH]; intros cur k.
  - cbn [PyStr.split_go PyStr.prepend_first].
    change (String.rev "") with "". by rewrite append_empty_r.
  - cbn [PyStr.split_go]. destruct k as [|k]; [| apply IH].
    destruct (PyStr.starts_with sep (String c s)).
    + cbn [PyStr.prepend_first].
      change (String.rev "") with "". by rewrite append_empty_r.
    + rewrite (IH (String c cur)), (IH (String c "")), prepend_first_app.
      f_equal. unfold String.rev. cbn. apply rev_app_acc.
Qed.

Lemma starts_with_self sep rest : PyStr.starts_with sep (sep ++ rest) = true.
Proof.
  induction sep as [|c sep IH]; [done |]. rewrite append_cons. cbn.
  by rewrite Ascii.eqb_refl.
Qed.

Lemma split_go_skip sep a rest cur :
  PyStr.split_go sep (a ++ rest) cur (String.length a)
  = PyStr.split_go sep rest cur 0.
Proof.
  induction a as [|c a IH]; [done |]. rewrite append_cons. cbn. exact IH.
Qed.

(** A separator at the front closes an empty piece. *)
Lemma split_go_sep_first (q : ascii) (p rest : string) :
  PyStr.split_go (String q p) (String q p ++ rest) "" 0
  = "" :: PyStr.split_go (String q p) rest "" 0.
Proof.
  rewrite append_cons. cbn [PyStr.split_go].
  rewrite <- append_cons, starts_with_self. f_equal.
  cbn [String.length]. rewrite Nat.sub_succ, Nat.sub_0_r.
  apply split_go_skip.
Qed.

(** Text without the separator's first character is read through. *)
Lemma split_go_through (q : ascii) (p a rest : string) :
  Gate.all_chars (fun c => negb (Ascii.eqb q c)) a = true ->
  PyStr.split_go (String q p) (a ++ rest) "" 0
  = PyStr.prepend_first a (PyStr.split_go (String q p) rest "" 0).
Proof.
  induction a as [|c a IH].
  - intros _. rewrite append_nil.
    destruct (split_go_nonempty (String q p) rest "" 0) as (f & o & ->). done.
  - cbn [Gate.all_chars]. intros [Hc Ha]%andb_prop.
    rewrite append_cons. cbn [PyStr.split_go PyStr.starts_with].
    apply negb_true_iff in Hc. rewrite Hc.
    rewrite split_go_cur, (IH Ha), prepend_first_app. reflexivity.
Qed.

(** A separator that occurs leaves at least two pieces. *)
Lemma split_two_pieces sep s cur (i : nat) :
  sep <> "" -> PyStr.find_nat sep s = Some i ->
  exists first second others,
    PyStr.split_go sep s cur 0 = first :: second :: others.
Proof.
  intros Hsep. revert cur i. induction s as [|c s IH]; intros cur i.
  - destruct sep; [done |]. cbn. discriminate.
  - cbn [PyStr.find_nat PyStr.split_go].
    destruct (PyStr.starts_with sep (String c s)).
    + intros _.
      destruct (split_go_nonempty sep s "" (String.length sep - 1))
        as (f & o & ->). eauto.
    + destruct (PyStr.find_nat sep s) as [j|] eqn:Hj; [| done].
      intros _. apply (IH _ j eq_refl).
Qed.

End SplitFacts.

(** *** Fenced replies *)

Section FenceFacts.
Import Resolver.

Lemma index_first (pieces : list string) (first : string) others :
  pieces = first :: others -> index pieces 0 = inr first.
Proof. by intros ->. Qed.

Lemma index_second (pieces : list string) (first second : string) others :
  pieces = first :: second :: others -> index pieces 1 = inr second.
Proof. by intros ->. Qed.

Lemma contains_app (q : ascii) (p a rest : string) :
  PyStr.contains (String q p) (a ++ String q p ++ rest) = true.
Proof.
  unfold PyStr.contains.
  enough (exists i, PyStr.find_nat (String q p) (a ++ String q p ++ rest) = Some i)
    as [i ->] by done.
  induction a as [|c a [i IH]].
  - rewrite append_nil. exists 0%nat.
    destruct rest; rewrite append_cons; cbn [PyStr.find_nat];
      rewrite <- append_cons, starts_with_self; done.
  - rewrite append_cons. cbn [PyStr.find_nat].
    destruct (PyStr.starts_with _ _); [eauto |]. rewrite IH. cbn. eauto.
Qed.

(** Splitting at the first separator when nothing before it can start
    one. *)
Lemma split_at_first (q : ascii) (p a rest : string) :
  no_tick a = true -> q = "`"%char ->
  PyStr.split (String q p) (a ++ String q p ++ rest)
  = a :: PyStr.split_go (String q p) rest "" 0.
Proof.
  intros Ha ->. unfold PyStr.split.
  rewrite (split_go_through _ _ _ _ Ha), split_go_sep_first. cbn.
  by rewrite append_empty_r.
Qed.

(** A text without backticks is a single piece. *)
Lemma split_tick_free (p a : string) :
  no_tick a = true -> PyStr.split_go (String "`" p) a "" 0 = [a].
Proof.
  intros Ha. rewrite <- (append_empty_r a) at 1.
  rewrite (split_go_through _ _ _ _ Ha). cbn. by rewrite append_empty_r.
Qed.

(** The first piece of what follows an opening fence, up to the closing
    fence, is the body. *)
Lemma body_is_first_piece (body x : string) :
  no_tick body = true -> x = "" \/ (exists y, x = "```" ++ y) ->
  exists others, PyStr.split "```" (body ++ x) = body :: others.
Proof.
  intros Hb [-> | [y ->]]; unfold PyStr.split.
  - rewrite append_empty_r, (split_tick_free _ _ Hb). eauto.
  - rewrite (split_go_through _ _ _ _ Hb), split_go_sep_first. cbn.
    rewrite append_empty_r. eauto.
Qed.

Lemma tick_free_head (c : ascii) (s : string) :
  no_tick (String c s) = true -> Ascii.eqb "`" c = false /\ no_tick s = true.
Proof.
  unfold no_tick. cbn. intros [Hc Hs]%andb_prop. by apply negb_true_iff in Hc.
Qed.

Lemma starts_with_cons (a b : ascii) (p s : string) :
  PyStr.starts_with (String a p) (String b s)
  = if Ascii.eqb a b then PyStr.starts_with p s else false.
Proof. reflexivity. Qed.

Lemma split_go_cons (sep : string) (c : ascii) (r cur : string) :
  PyStr.split_go sep (String c r) cur 0
  = if PyStr.starts_with sep (String c r)
    then String.rev cur :: PyStr.split_go sep r "" (String.length sep - 1)
    else PyStr.split_go sep r (String c cur) 0.
Proof. reflexivity. Qed.

Lemma starts_with_tick (p post : string) :
  no_tick post = true -> PyStr.starts_with (String "`" p) post = false.
Proof.
  destruct post as [|c post]; [done |].
  intros [Hc _]%tick_free_head. by rewrite starts_with_cons, Hc.
Qed.

(** What the tagged split makes of a closing fence and what follows it. *)
Lemma closing_fence_piece (post : string) :
  no_tick post = true ->
  exists x others,
    PyStr.split_go "```json" ("```" ++ post) "" 0 = x :: others
    /\ (x = "" \/ exists y, x = "```" ++ y).
Proof.
  intros Hpost. rewrite !append_cons, append_nil.
  rewrite split_go_cons, !starts_with_cons, !Ascii.eqb_refl.
  destruct (PyStr.starts_with "json" post) eqn:Hjson.
  - exists "". eexists. split; [reflexivity | by left].
  - exists ("```" ++ post), []. split; [| right; eauto].
    rewrite split_go_cons, !starts_with_cons, !Ascii.eqb_refl.
    rewrite (starts_with_tick _ _ Hpost).
    rewrite split_go_cons, !starts_with_cons, !Ascii.eqb_refl.
    rewrite (starts_with_tick _ _ Hpost).
    rewrite split_go_cur, (split_tick_free _ _ Hpost). reflexivity.
Qed.

End FenceFacts.

(** X12.  The fence stripping never raises: the two indexings
    [split(fence)[1]] and [split("```")[0]] are always in range, because a
    fence that occurs in the reply splits it into at least two pieces. *)
Theorem fence_stripping_never_raises (content : string) :
  exists inner, Resolver.unfence content = inr inner.
Proof.
  assert (Hbetween : forall fence i, fence <> "" ->
             PyStr.find_nat fence content = Some i ->
             exists inner, Resolver.between fence content = inr inner).
  { intros fence i Hne Hfind. unfold Resolver.between, PyStr.split.
    destruct (split_two_pieces fence content "" i Hne Hfind)
      as (first & second & others & Hsplit).
    rewrite (index_second _ _ _ _ Hsplit).
    destruct (split_go_nonempty "```" second "" 0) as (f & o & Hf).
    rewrite (index_first _ _ _ Hf). eauto. }
  unfold Resolver.unfence, PyStr.contains.
  destruct (PyStr.find_nat "```json" content) as [i|] eqn:Hjson.
  { by apply (Hbetween _ i). }
  destruct (PyStr.find_nat "```" content) as [i|] eqn:Hplain.
  { by apply (Hbetween _ i). }
  eauto.
Qed.

Section FenceRoundTrip.
Import Resolver.

Lemma find_nat_cons (sub : string) (c : ascii) (r : string) :
  PyStr.find_nat sub (String c r)
  = if PyStr.starts_with sub (String c r) then Some 0%nat
    else S <$> PyStr.find_nat sub r.
Proof. reflexivity. Qed.

Lemma find_none_through (p a rest : string) :
  no_tick a = true ->
  PyStr.find_nat (String "`" p) rest = None ->
  PyStr.find_nat (String "`" p) (a ++ rest) = None.
Proof.
  intros Ha Hrest. induction a as [|c a IH]; [done |].
  apply tick_free_head in Ha as [Hc Ha].
  rewrite append_cons, find_nat_cons, starts_with_cons, Hc, (IH Ha). done.
Qed.

Lemma find_none_tick_free (p a : string) :
  no_tick a = true -> PyStr.find_nat (String "`" p) a = None.
Proof.
  intros Ha. rewrite <- (append_empty_r a). by apply find_none_through.
Qed.

(** The tagged fence does not occur in a closing fence followed by text
    that does not begin with the tag. *)
Lemma no_tag_after_fence (post : string) :
  no_tick post = true -> PyStr.starts_with "json" post = false ->
  PyStr.find_nat "```json" ("```" ++ post) = None.
Proof.
  intros Hpost Hjson. rewrite !append_cons, append_nil.
  rewrite find_nat_cons, !starts_with_cons, !Ascii.eqb_refl, Hjson.
  rewrite find_nat_cons, !starts_with_cons, !Ascii.eqb_refl,
    (starts_with_tick _ _ Hpost).
  rewrite find_nat_cons, !starts_with_cons, !Ascii.eqb_refl,
    (starts_with_tick _ _ Hpost).
  by rewrite (find_none_tick_free _ _ Hpost).
Qed.

Lemma starts_with_before_tick (w body r : string) :
  no_tick w = true -> PyStr.starts_with w body = false ->
  PyStr.starts_with w (body ++ String "`" r) = false.
Proof.
  revert body. induction w as [|a w IH]; intros body Hw; [done |].
  apply tick_free_head in Hw as [Ha Hw].
  destruct body as [|b body].
  - intros _. rewrite append_nil, starts_with_cons, Ascii.eqb_sym, Ha. done.
  - rewrite append_cons, !starts_with_cons.
    destruct (Ascii.eqb a b); [by apply IH | done].
Qed.

(** Neither tail of the tagged fence starts a tick-free body followed by
    a closing fence. *)
Lemma fence_tail_not_at_body (body r : string) :
  no_tick body = true ->
  PyStr.starts_with "`json" (body ++ "```" ++ r) = false
  /\ PyStr.starts_with "``json" (body ++ "```" ++ r) = false.
Proof.
  intros Hb. destruct body as [|c body]; [split; reflexivity |].
  apply tick_free_head in Hb as [Hc _].
  by rewrite append_cons, !starts_with_cons, Hc.
Qed.

(** The tagged fence does not occur in an untagged block. *)
Lemma no_tag_in_plain_block (pre body post : string) :
  no_tick pre = true -> no_tick body = true -> no_tick post = true ->
  PyStr.starts_with "json" body = false ->
  PyStr.starts_with "json" post = false ->
  PyStr.find_nat "```json" (pre ++ "```" ++ body ++ "```" ++ post) = None.
Proof.
  intros Hpre Hbody Hpost Hjb Hjp.
  apply find_none_through; [exact Hpre |].
  destruct (fence_tail_not_at_body body post Hbody) as [H1 H2].
  rewrite !append_cons, !append_nil.
  rewrite find_nat_cons, !starts_with_cons, !Ascii.eqb_refl.
  rewrite (starts_with_before_tick "json" body _ eq_refl Hjb).
  rewrite find_nat_cons, !starts_with_cons, !Ascii.eqb_refl.
  rewrite !append_cons, !append_nil in H1. rewrite H1.
  rewrite find_nat_cons, !starts_with_cons, !Ascii.eqb_refl.
  rewrite !append_cons, !append_nil in H2. rewrite H2.
  rewrite <- (append_nil post), <- !append_cons.
  rewrite (find_none_through _ _ _ Hbody (no_tag_after_fence _ Hpost Hjp)).
  done.
Qed.

End FenceRoundTrip.

(** X13.  Fencing round trip: for a reply made of some text, a fenced block
    and some more text, none of them holding a backtick, the fence stripping
    returns exactly the body of the block.  This holds for a block tagged
    [json], and for an untagged block when neither the body nor the text
    after the block begins with the letters "json". *)
Theorem fenced_block_round_trip (pre body post : string) :
  Resolver.no_tick pre = true ->
  Resolver.no_tick body = true ->
  Resolver.no_tick post = true ->
  Resolver.unfence (pre ++ "```json" ++ body ++ "```" ++ post) = inr body
  /\ (PyStr.starts_with "json" body = false ->
      PyStr.starts_with "json" post = false ->
      Resolver.unfence (pre ++ "```" ++ body ++ "```" ++ post) = inr body).
Proof.
  intros Hpre Hbody Hpost.
  assert (Hinner : forall x, x = "" \/ (exists y, x = "```" ++ y) ->
            Resolver.index (PyStr.split "```" (body ++ x)) 0 = inr body).
  { intros x Hx. destruct (body_is_first_piece body x Hbody Hx) as [others Hs].
    by rewrite (index_first _ _ _ Hs). }
  split.
  - unfold Resolver.unfence. rewrite contains_app. unfold Resolver.between.
    rewrite (split_at_first _ _ _ _ Hpre eq_refl).
    rewrite (split_go_through _ _ _ _ Hbody).
    destruct (closing_fence_piece post Hpost) as (x & others & -> & Hx).
    cbn [PyStr.prepend_first Resolver.index lookup list_lookup].
    by apply Hinner.
  - intros Hjb Hjp. unfold Resolver.unfence, PyStr.contains at 1.
    rewrite (no_tag_in_plain_block _ _ _ Hpre Hbody Hpost Hjb Hjp).
    rewrite contains_app. unfold Resolver.between.
    rewrite (split_at_first _ _ _ _ Hpre eq_refl).
    rewrite (split_go_through _ _ _ _ Hbody), split_go_sep_first.
    cbn [PyStr.prepend_first Resolver.index lookup list_lookup].
    apply Hinner. by left.
Qed.

Lemma fenced_block_round_trip_witness :
  Resolver.unfence Fixtures.fenced_present_reply
  = inr (Resolver.nl ++ Fixtures.present_json ++ Resolver.nl).
Proof.
  refine (proj1 (fenced_block_round_trip ("Here it is:" ++ Resolver.nl)
                   (Resolver.nl ++ Fixtures.present_json ++ Resolver.nl)
                   (Resolver.nl ++ "Good luck.") _ _ _));
    vm_compute; reflexivity.
Defined.

(** ** Browser session *)

Section BrowserMore.
Import Browser.

Implicit Types (env : Env) (w : World) (s : BrowserManager).

Lemma active_page_at s (i : nat) (page : Page) :
  _active_tab_index s = Z.of_nat i -> _tabs s !! i = Some page ->
  active_page s = Some page.
Proof.
  intros Hi Hp. unfold active_page, tab_count. rewrite Hi, Nat2Z.id, Hp.
  apply lookup_lt_Some in Hp.
  replace (0 <=? Z.of_nat i) with true by (symmetry; apply Z.leb_le; lia).
  replace (Z.of_nat i <? Z.of_nat (length (_tabs s))) with true
    by (symmetry; apply Z.ltb_lt; lia).
  done.
Qed.



End BrowserMore.

(** X14.  A tab that opens is appended: it takes the next index, every tab
    opened before keeps its index, and the new tab is the active page. *)
Theorem opened_tab_is_appended_and_active
    (env : Browser.Env) (url : string) (w : Browser.World) (page : Browser.Page) :
  fst (Browser.new_page env url w) = Browser.Ok page ->
  let s' := Browser.mgr (snd (Browser.new_page env url w)) in
  Browser._tabs s' = (Browser._tabs (Browser.mgr w) ++ [page])%list
  /\ Browser._active_tab_index s' = Browser.tab_count (Browser.mgr w)
  /\ Browser.active_page s' = Some page
  /\ (forall (i : nat) (p : Browser.Page),
        Browser._tabs (Browser.mgr w) !! i = Some p -> Browser._tabs s' !! i = Some p).
Proof.
  intros Hok s'. subst s'.
  destruct (new_page_cases env url w)
    as [(e & Hr & _) | (page' & Hr & Ht & Hi)]; [congruence |].
  rewrite Hr in Hok. injection Hok as ->.
  split; [exact Ht |]. split; [exact Hi |]. split.
  - apply (active_page_at _ (length (Browser._tabs (Browser.mgr w)))).
    + exact Hi.
    + rewrite Ht. apply list_lookup_middle. done.
  - intros i p Hp. rewrite Ht. by apply lookup_app_l_Some.
Qed.

Lemma opened_tab_is_appended_and_active_witness :
  Browser._tabs (Browser.mgr
    (snd (Browser.new_page Samples.hostile "https://shop.example.org/"
            Samples.two_tabs))) = [5%nat; 6%nat; 7%nat]
  /\ Browser.active_page (Browser.mgr
       (snd (Browser.new_page Samples.hostile "https://shop.example.org/"
               Samples.two_tabs))) = Some 7%nat.
Proof.
  destruct (opened_tab_is_appended_and_active Samples.hostile
              "https://shop.example.org/" Samples.two_tabs 7%nat eq_refl)
    as (Ht & _ & Ha & _).
  split; [exact Ht | exact Ha].
Defined.



Section TabListFacts.
Import Browser.

Implicit Types (env : Env) (w : World).

Lemma read_tab_ok env (page : Page) :
  reads_raise_Exception env -> exists shown, read_tab env page = Ok shown.
Proof.
  intros [Hurl Htitle]. unfold read_tab.
  destruct (page_url env page) as [u|e] eqn:Hu.
  - destruct (page_title env page) as [t|e] eqn:Ht; [eauto |].
    rewrite (Htitle _ _ Ht). eauto.
  - rewrite (Hurl _ _ Hu). eauto.
Qed.

Lemma list_from_ok env (i : Z) (pages : list Page) (active : Z) :
  reads_raise_Exception env ->
  exists infos,
    list_from env i pages active = Ok infos
    /\ length infos = length pages
    /\ forall (k : nat) info,
         infos !! k = Some info ->
         tab_index info = i + Z.of_nat k
         /\ tab_active info = (i + Z.of_nat k =? active)
         /\ exists page, pages !! k = Some page
                         /\ read_tab env page = Ok (tab_url info, tab_title info).
Proof.
  intros Hreads. revert i. induction pages as [|page pages IH]; intros i.
  - exists []. by repeat split.
  - cbn [list_from].
    destruct (read_tab_ok env page Hreads) as [[u t] Hread]. rewrite Hread.
    destruct (IH (i + 1)) as (infos & -> & Hlen & Hall).
    eexists. split; [reflexivity |]. split; [cbn; by rewrite Hlen |].
    intros [|k] info Hk; cbn in Hk.
    + injection Hk as <-. cbn. rewrite Z.add_0_r. eauto.
    + destruct (Hall k info Hk) as (Hi & Ha & Hp).
      rewrite Hi, Ha. replace (i + 1 + Z.of_nat k) with (i + Z.of_nat (S k)) by lia.
      eauto.
Qed.

Lemma list_from_active env (i : Z) (pages : list Page) (active : Z) infos :
  list_from env i pages active = Ok infos ->
  (i <= active < i + Z.of_nat (length pages) ->
   length (active_entries infos) = 1%nat)
  /\ (active < i \/ i + Z.of_nat (length pages) <= active ->
      length (active_entries infos) = 0%nat).
Proof.
  revert i infos. induction pages as [|page pages IH]; intros i infos.
  - intros [= <-]. cbn [length]. split; [lia | done].
  - cbn [list_from]. destruct (read_tab env page) as [[u t]|e]; [| done].
    destruct (list_from env (i + 1) pages active) as [rest|e] eqn:Hrest; [| done].
    intros [= <-]. destruct (IH _ _ Hrest) as [IH1 IH2].
    unfold active_entries in *. cbn [length].
    destruct (i =? active) eqn:Hia.
    + apply Z.eqb_eq in Hia. rewrite filter_cons_True by done.
      cbn [length]. split; [| lia]. intros _. rewrite IH2; [done | lia].
    + apply Z.eqb_neq in Hia.
      rewrite filter_cons_False by done.
      split; intros H; [apply IH1 | apply IH2]; lia.
Qed.

End TabListFacts.

(** X16.  [get_tab_list] mirrors the tab sequence: when reading a tab fails
    only with [Exception]s it returns one entry per tab, in order, the entry
    at position k carrying index k and what could be read of that tab
    ("(closed)" twice when it could not), with the active flag set exactly on
    the entry of the active index; it changes nothing.  In a session that
    satisfies the invariant and has a tab, exactly one entry is marked
    active. *)
Theorem tab_list_mirrors_the_tabs (env : Browser.Env) (w : Browser.World) :
  Browser.reads_raise_Exception env ->
  exists infos,
    Browser.get_tab_list env w = (Browser.Ok infos, w)
    /\ length infos = length (Browser._tabs (Browser.mgr w))
    /\ (forall (k : nat) info,
          infos !! k = Some info ->
          Browser.tab_index info = Z.of_nat k
          /\ Browser.tab_active info
             = (Z.of_nat k =? Browser._active_tab_index (Browser.mgr w))
          /\ exists page,
               Browser._tabs (Browser.mgr w) !! k = Some page
               /\ Browser.read_tab env page
                  = Browser.Ok (Browser.tab_url info, Browser.tab_title info))
    /\ (forall page e, Browser.page_url env page = Browser.Raise e ->
                       Browser.read_tab env page
                       = Browser.Ok ("(closed)", "(closed)"))
    /\ (Browser.tab_invariant (Browser.mgr w) ->
        Browser._tabs (Browser.mgr w) <> [] ->
        length (Browser.active_entries infos) = 1%nat).
Proof.
  intros Hreads.
  destruct (list_from_ok env 0 (Browser._tabs (Browser.mgr w))
              (Browser._active_tab_index (Browser.mgr w)) Hreads)
    as (infos & Hlist & Hlen & Hall).
  exists infos. split; [| split; [exact Hlen | split; [exact Hall | split]]].
  - unfold Browser.get_tab_list, Browser.bind, Browser.gets, Browser.lift.
    by rewrite Hlist.
  - intros page e Hu. unfold Browser.read_tab. rewrite Hu.
    by rewrite (proj1 Hreads _ _ Hu).
  - intros [Hvalid _] Hne.
    apply (proj1 (list_from_active _ _ _ _ _ Hlist)).
    apply Hvalid in Hne. unfold Browser.tab_count in Hne. lia.
Qed.

Lemma tab_list_mirrors_the_tabs_witness :
  fst (Browser.get_tab_list Samples.hostile Samples.two_tabs)
  = Browser.Ok [ Browser.mkTabInfo 0 "(closed)" "(closed)" true;
                 Browser.mkTabInfo 1 "(closed)" "(closed)" false ].
Proof.
  destruct (tab_list_mirrors_the_tabs Samples.hostile Samples.two_tabs)
    as (infos & Hlist & _).
  - split; intros page e; cbn; intros [= <-]; reflexivity.
  - reflexivity.
Defined.

Section GetPageFacts.
Import Browser.

Lemma find_page_spec (env : Env) (url : string) (pages : list Page) :
  match find_page env url pages with
  | Ok (Some page) =>
      exists i : nat,
        pages !! i = Some page /\ page_url env page = Ok url
        /\ forall (j : nat) p, (j < i)%nat -> pages !! j = Some p ->
                               page_url env p <> Ok url
  | Ok None => forall p, p ∈ pages -> page_url env p <> Ok url
  | Raise e => is_Exception e = false
  end.
Proof.
  induction pages as [|page pages IH]; cbn [find_page].
  - intros p Hp. by apply elem_of_nil in Hp.
  - assert (Hskip : page_url env page <> Ok url ->
              match find_page env url pages with
              | Ok (Some found) =>
                  exists i : nat,
                    (page :: pages) !! i = Some found /\ page_url env found = Ok url
                    /\ forall (j : nat) p, (j < i)%nat ->
                         (page :: pages) !! j = Some p -> page_url env p <> Ok url
              | Ok None => forall p, p ∈ page :: pages -> page_url env p <> Ok url
              | Raise e => is_Exception e = false
              end).
    { intros Hne. destruct (find_page env url pages) as [[found|]|e]; [| | exact IH].
      - destruct IH as (i & Hi & Hu & Hbefore). exists (S i).
        split; [exact Hi |]. split; [exact Hu |].
        intros [|j] p Hj Hp; cbn in Hp; [by injection Hp as <- |].
        apply (Hbefore j); [lia | exact Hp].
      - intros p [->|Hp]%elem_of_cons; [exact Hne | by apply IH]. }
    destruct (page_url env page) as [u|e] eqn:Hu.
    + destruct (String.eqb u url) eqn:Heq.
      * apply String.eqb_eq in Heq as ->. exists 0%nat.
        split; [done |]. split; [exact Hu |]. intros j p Hj. lia.
      * apply Hskip. intros [= ->]. by rewrite String.eqb_refl in Heq.
    + destruct (is_Exception e) eqn:He; [by apply Hskip | exact He].
Qed.

End GetPageFacts.

(** X17.  [get_page] returns the first tab, in tab order, whose url reads
    equal to the one asked for; a tab whose url cannot be read is passed
    over; when no tab matches it returns nothing.  It never raises an
    [Exception] and never changes the session. *)
Theorem get_page_finds_the_first_match
    (env : Browser.Env) (url : string) (w : Browser.World) :
  snd (Browser.get_page env url w) = w
  /\ match fst (Browser.get_page env url w) with
     | Browser.Ok (Some page) =>
         exists i : nat,
           Browser._tabs (Browser.mgr w) !! i = Some page
           /\ Browser.page_url env page = Browser.Ok url
           /\ forall (j : nat) p, (j < i)%nat ->
                Browser._tabs (Browser.mgr w) !! j = Some p ->
                Browser.page_url env p <> Browser.Ok url
     | Browser.Ok None =>
         forall p, p ∈ Browser._tabs (Browser.mgr w) ->
                   Browser.page_url env p <> Browser.Ok url
     | Browser.Raise e => Browser.is_Exception e = false
     end.
Proof.
  unfold Browser.get_page, Browser.bind, Browser.gets, Browser.lift. cbn.
  split; [done |]. apply find_page_spec.
Qed.

Section CloseMore.
Import Browser.

Lemma close_world (env : Env) (w : World) :
  closes_raise_Exception env ->
  exists log, close env w = (Ok tt, mkWorld init log).
Proof.
  intros (Hpage & Hctx & Hbrowser & Hpw).
  unfold close, bind at 1 2, gets at 1.
  rewrite (close_pages_ok env _ w Hpage).
  unfold release_all.
  unfold bind at 1, modify at 1.
  unfold bind at 1, modify at 1.
  unfold bind at 1.
  rewrite (release_ok _ _ _ _ _ Hctx).
  unfold bind at 1.
  rewrite (release_ok _ _ _ _ _ Hbrowser).
  rewrite (release_ok _ _ _ _ _ Hpw).
  destruct w as [[pw br ctx tabs idx] log]. cbn.
  eexists. by destruct ctx, br, pw.
Qed.

(** With a context at hand [new_page] goes straight to the page. *)
Lemma new_page_with_context (env : Env) (url : string) (w : World) (c : Handle) :
  _context (mgr w) = Some c ->
  calls (snd (new_page env url w)) = (calls w ++ open_calls env url)%list
  /\ _context (mgr (snd (new_page env url w))) = Some c
  /\ _browser (mgr (snd (new_page env url w))) = _browser (mgr w)
  /\ _playwright (mgr (snd (new_page env url w))) = _playwright (mgr w).
Proof.
  intros Hc.
  unfold new_page, _ensure_context, open_calls, bind, gets, modify, ret, call.
  cbn. rewrite Hc.
  destruct (context_new_page env) as [page|e]; [| done].
  destruct (page_goto env page url) as [[]|e]; cbn;
    rewrite <- app_assoc; done.
Qed.

Lemma new_page_sets_context (env : Env) (url : string) (w : World) (page : Page) :
  fst (new_page env url w) = Ok page ->
  exists c, _context (mgr (snd (new_page env url w))) = Some c.
Proof.
  unfold new_page, _ensure_context, _ensure_browser, launch,
    bind, gets, modify, ret, call, lift.
  cbn. repeat (case_match; simplify_eq/=); intros; simplify_eq; eauto.
Qed.

End CloseMore.

(** X18.  Teardown is idempotent: after a [close] whose sub-steps failed at
    most with [Exception]s, every field is back to its initial value, so a
    second [close], whatever the browser side would answer, makes no call
    and changes nothing. *)
Theorem second_close_is_a_no_op
    (env env' : Browser.Env) (w : Browser.World) :
  Browser.closes_raise_Exception env ->
  Browser.mgr (snd (Browser.close env w)) = Browser.init
  /\ Browser.close env' (snd (Browser.close env w))
     = (Browser.Ok tt, snd (Browser.close env w)).
Proof.
  intros Hexc. destruct (close_world env w Hexc) as [log ->]. cbn [snd].
  split; reflexivity.
Qed.

Lemma second_close_is_a_no_op_witness :
  Browser.close Samples.hostile
    (snd (Browser.close Samples.hostile Samples.two_tabs))
  = (Browser.Ok tt, snd (Browser.close Samples.hostile Samples.two_tabs)).
Proof.
  refine (proj2 (second_close_is_a_no_op Samples.hostile Samples.hostile
                   Samples.two_tabs _)).
  repeat split; intros ? e; cbn; intros [= <-]; reflexivity.
Defined.

(** X19.  The browser is acquired once: after a tab has been opened, opening
    another one makes no launch and no context call, only the page creation
    and, when that worked, the navigation, and keeps the same context,
    browser and driver; this holds without asking whether the browser is
    still connected. *)
Theorem browser_is_acquired_once
    (env env' : Browser.Env) (url url' : string) (w : Browser.World)
    (page : Browser.Page) :
  fst (Browser.new_page env url w) = Browser.Ok page ->
  let w1 := snd (Browser.new_page env url w) in
  let w2 := snd (Browser.new_page env' url' w1) in
  Browser.calls w2 = (Browser.calls w1 ++ Browser.open_calls env' url')%list
  /\ Browser._context (Browser.mgr w2) = Browser._context (Browser.mgr w1)
  /\ Browser._browser (Browser.mgr w2) = Browser._browser (Browser.mgr w1)
  /\ Browser._playwright (Browser.mgr w2) = Browser._playwright (Browser.mgr w1)
  /\ Browser._context (Browser.mgr w1) <> None.
Proof.
  intros Hok w1 w2. subst w1 w2.
  destruct (new_page_sets_context env url w page Hok) as [c Hc].
  destruct (new_page_with_context env' url' _ c Hc) as (H1 & H2 & H3 & H4).
  rewrite H1, H2, H3, H4, Hc. done.
Qed.

Lemma browser_is_acquired_once_witness :
  Browser.calls
    (snd (Browser.new_page Samples.hostile "https://down.example.org/"
            (snd (Browser.new_page Samples.hostile "https://shop.example.org/"
                    Browser.init_world))))
  = [ Browser.CallStart; Browser.CallLaunch; Browser.CallNewContext;
      Browser.CallNewPage; Browser.CallGoto 7%nat "https://shop.example.org/";
      Browser.CallNewPage; Browser.CallGoto 7%nat "https://down.example.org/" ].
Proof.
  destruct (browser_is_acquired_once Samples.hostile Samples.hostile
              "https://shop.example.org/" "https://down.example.org/"
              Browser.init_world 7%nat eq_refl) as [Hcalls _].
  rewrite Hcalls. reflexivity.
Defined.

(** ** Page actions *)

Section PageActionFacts.
Import Browser PageActions.

(** What a handler that returns a value lets through. *)
Lemma catch_value {A} (body : Result A) (a : A) (e : PyExn) :
  catch body (Ok a) = Raise e -> is_Exception e = false.
Proof.
  unfold catch. destruct body as [b|e']; [done |].
  destruct (is_Exception e') eqn:He; [done |]. by intros [= <-].
Qed.

Lemma catch_true (body : Result bool) :
  catch body (Ok false) = Ok true <-> body = Ok true.
Proof.
  unfold catch. destruct body as [b|e]; [done |].
  by destruct (is_Exception e).
Qed.

Lemma click_attempt_ok (env : PageEnv) (el : Element) :
  (exists u, catch (element_click env el) (element_evaluate env el js_click) = Ok u)
  <-> click_lands env el.
Proof.
  unfold catch, click_lands.
  destruct (element_click env el) as [[]|e] eqn:Hc.
  - split; [by left | eauto].
  - destruct (is_Exception e) eqn:He.
    + destruct (element_evaluate env el js_click) as [[]|e'] eqn:Hj.
      * split; [right; eauto | eauto].
      * split; [by intros [? ?] |].
        intros [? | (e0 & [= <-] & _ & ?)]; done.
    + split; [by intros [? ?] |].
      intros [? | (e0 & [= <-] & ? & _)]; [done | congruence].
Qed.

End PageActionFacts.

(** X20.  [click] reports instead of raising: whatever the page does, it
    never raises an [Exception], and it returns [True] exactly when the
    element was located and visible, could be scrolled into view, and the
    click landed, natively or, after the native click failed with an
    [Exception], through the script click. *)
Theorem click_reports_instead_of_raising
    (env : PageActions.PageEnv) (selector : string) :
  (forall e, PageActions.click env selector = Browser.Raise e ->
             Browser.is_Exception e = false)
  /\ (PageActions.click env selector = Browser.Ok true
      <-> exists el,
            PageActions.locate env selector = Browser.Ok (Some el)
            /\ PageActions.is_visible env el = Browser.Ok true
            /\ PageActions.scroll_into_view_if_needed env el = Browser.Ok tt
            /\ PageActions.click_lands env el).
Proof.
  split; [intros e; apply catch_value |].
  unfold PageActions.click. rewrite catch_true. unfold PageActions.rbind.
  destruct (PageActions.locate env selector) as [[el|]|e];
    [| split; [done | by intros (? & [= ] & _)]
     | split; [done | by intros (? & [= ] & _)]].
  destruct (PageActions.is_visible env el) as [[]|e] eqn:Hv; cbn;
    [| split; [done | intros (? & [= <-] & ? & _); congruence]
     | split; [done | intros (? & [= <-] & ? & _); congruence]].
  destruct (PageActions.scroll_into_view_if_needed env el) as [[]|e] eqn:Hs;
    [| split; [done | intros (? & [= <-] & _ & ? & _); congruence]].
  pose proof (click_attempt_ok env el) as Hland.
  destruct (PageActions.catch (PageActions.element_click env el)
              (PageActions.element_evaluate env el PageActions.js_click))
    as [[]|e].
  - split; [| done]. intros _. exists el. repeat split; try done.
    apply Hland. eauto.
  - split; [done |]. intros (? & [= <-] & _ & _ & Hl).
    apply Hland in Hl as [? ?]. done.
Qed.

(** X21.  [fill] and [select_option] report instead of raising too: neither
    ever raises an [Exception]; [select_option] returns [True] exactly when
    the element exists and the selection by label worked, and [fill] exactly
    when the element exists, is visible, and each of its five steps (scroll,
    focus click, clear, type, Escape) worked. *)
Theorem fill_and_select_report_instead_of_raising
    (env : PageActions.PageEnv) (selector value : string) :
  (forall e, PageActions.fill env selector value = Browser.Raise e ->
             Browser.is_Exception e = false)
  /\ (forall e, PageActions.select_option env selector value = Browser.Raise e ->
                Browser.is_Exception e = false)
  /\ (PageActions.select_option env selector value = Browser.Ok true
      <-> exists el,
            PageActions.query_selector env selector = Browser.Ok (Some el)
            /\ PageActions.element_select_option env el value = Browser.Ok tt)
  /\ (PageActions.fill env selector value = Browser.Ok true
      <-> exists el,
            PageActions.query_selector env selector = Browser.Ok (Some el)
            /\ PageActions.is_visible env el = Browser.Ok true
            /\ PageActions.element_evaluate env el PageActions.js_scroll_center
               = Browser.Ok tt
            /\ PageActions.element_evaluate env el PageActions.js_click
               = Browser.Ok tt
            /\ PageActions.element_evaluate env el PageActions.js_clear
               = Browser.Ok tt
            /\ PageActions.element_type env el value = Browser.Ok tt
            /\ PageActions.element_press env el "Escape" = Browser.Ok tt).
Proof.
  split; [intros e; apply catch_value |].
  split; [intros e; apply catch_value |].
  split.
  - unfold PageActions.select_option. rewrite catch_true. unfold PageActions.rbind.
    destruct (PageActions.query_selector env selector) as [[el|]|e];
      [| split; [done | by intros (? & [= ] & _)]
       | split; [done | by intros (? & [= ] & _)]].
    destruct (PageActions.element_select_option env el value) as [[]|e] eqn:Hs.
    + split; [eauto | done].
    + split; [done | intros (? & [= <-] & ?); congruence].
  - unfold PageActions.fill. rewrite catch_true. unfold PageActions.rbind.
    destruct (PageActions.query_selector env selector) as [[el|]|e];
      [| split; [done | by intros (? & [= ] & _)]
       | split; [done | by intros (? & [= ] & _)]].
    destruct (PageActions.is_visible env el) as [[]|e] eqn:Hv; cbn;
      [| split; [done | intros (? & [= <-] & ? & _); congruence]
       | split; [done | intros (? & [= <-] & ? & _); congruence]].
    destruct (PageActions.element_evaluate env el PageActions.js_scroll_center)
      as [[]|e] eqn:H1;
      [| split; [done | intros (? & [= <-] & _ & ? & _); congruence]].
    destruct (PageActions.element_evaluate env el PageActions.js_click)
      as [[]|e] eqn:H2;
      [| split; [done | intros (? & [= <-] & _ & _ & ? & _); congruence]].
    destruct (PageActions.element_evaluate env el PageActions.js_clear)
      as [[]|e] eqn:H3;
      [| split; [done | intros (? & [= <-] & _ & _ & _ & ? & _); congruence]].
    destruct (PageActions.element_type env el value) as [[]|e] eqn:H4;
      [| split; [done | intros (? & [= <-] & _ & _ & _ & _ & ? & _); congruence]].
    destruct (PageActions.element_press env el "Escape") as [[]|e] eqn:H5;
      [| split; [done | intros (? & [= <-] & _ & _ & _ & _ & _ & ?); congruence]].
    split; [| done]. intros _. exists el. by repeat split.
Qed.

(** ** Search action *)

Section SearchFacts.
Import Browser Search.

Lemma search_loop_spec {S : Type}
    (scrape : string -> S -> Result (list ProductListing) * S)
    (names : list string) (all_results : list ResultRow) (searched : list string)
    (st : S) :
  scrapers_raise_Exception scrape ->
  fst (search_loop scrape names all_results searched st)
  = Ok ((all_results ++ concat (rows_of <$> answers scrape names st))%list,
        (searched ++ (searched_entry <$> answers scrape names st))%list).
Proof.
  intros Hexc. revert all_results searched st.
  induction names as [|name names IH]; intros all_results searched st.
  - cbn. by rewrite !app_nil_r.
  - cbn [search_loop answers].
    destruct (has_scraper name) eqn:Hhas; cbn [negb]; [| apply IH].
    cbn [fmap list_fmap concat]. unfold rows_of at 1, searched_entry at 1.
    cbn [fst snd]. pose proof (Hexc name st) as Hraise.
    destruct (scrape name st) as [[listings|e] st']; cbn [fst snd] in *.
    + rewrite IH. by rewrite <- !app_assoc.
    + rewrite (Hraise e eq_refl), IH. by rewrite <- !app_assoc.
Qed.

Lemma answers_names {S : Type}
    (scrape : string -> S -> Result (list ProductListing) * S)
    (names : list string) (st : S) :
  fst <$> answers scrape names st = supported names.
Proof.
  revert st. induction names as [|name names IH]; intros st; [done |].
  cbn [answers supported List.filter].
  destruct (has_scraper name); [| apply IH].
  cbn. f_equal. apply IH.
Qed.

Lemma starts_with_prefix (p x s : string) :
  PyStr.starts_with (p ++ x) s = true -> PyStr.starts_with p s = true.
Proof.
  revert s. induction p as [|a p IH]; intros s; [done |].
  rewrite append_cons. destruct s as [|b s]; [done |].
  rewrite !starts_with_cons. destruct (Ascii.eqb a b); [apply IH | done].
Qed.

(** Where a text occurs, each of its beginnings occurs. *)
Lemma contains_prefix (p x s : string) :
  PyStr.contains (p ++ x) s = true -> PyStr.contains p s = true.
Proof.
  unfold PyStr.contains.
  enough (forall i, PyStr.find_nat (p ++ x) s = Some i ->
                    exists j, PyStr.find_nat p s = Some j) as Hfind.
  { destruct (PyStr.find_nat (p ++ x) s) as [i|]; [| done].
    destruct (Hfind i eq_refl) as [j ->]. done. }
  induction s as [|c s IH]; intros i.
  - cbn [PyStr.find_nat].
    destruct (PyStr.starts_with (p ++ x) "") eqn:Hs; [| done].
    rewrite (starts_with_prefix _ _ _ Hs). eauto.
  - rewrite !find_nat_cons.
    destruct (PyStr.starts_with (p ++ x) (String c s)) eqn:Hs.
    + rewrite (starts_with_prefix _ _ _ Hs). eauto.
    + destruct (PyStr.find_nat (p ++ x) s) as [k|]; [| done].
      destruct (IH k eq_refl) as [j ->].
      destruct (PyStr.starts_with p (String c s)); cbn; eauto.
Qed.

End SearchFacts.

(** X22.  [search] survives failing scrapers: when the scrapers raise at
    most [Exception]s the search returns normally.  The scrapers asked are
    those of the requested retailers the registry knows, once per mention
    and in the order asked (names it does not know are dropped without a
    trace); [retailers_searched] lists each of them, marked "(error)" when
    its scraper failed; the results are the rows of the scrapers that
    answered, in that order, and the total is their number. *)
Theorem search_reports_each_known_retailer {S : Type}
    (scrape : string -> string -> Z -> S
              -> Browser.Result (list Search.ProductListing) * S)
    (query : string) (max_results : Z) (retailers : option (list string))
    (st : S) :
  Search.scrapers_raise_Exception (fun name => scrape name query max_results) ->
  let asked :=
    Search.answers (fun name => scrape name query max_results)
      (Search.requested retailers) st in
  fst <$> asked = Search.supported (Search.requested retailers)
  /\ fst (Search.search scrape query max_results retailers st)
     = Browser.Ok
         (Search.mkSearchResult query
            (concat (Search.rows_of <$> asked))
            (Search.searched_entry <$> asked)
            (Z.of_nat (length (concat (Search.rows_of <$> asked))))).
Proof.
  intros Hexc asked. split; [apply answers_names |].
  pose proof (search_loop_spec _ (Search.requested retailers) [] [] st Hexc)
    as Hloop.
  unfold Search.search.
  destruct (Search.search_loop _ _ _ _ _) as [[[all_results searched]|e] st'];
    cbn [fst] in *; [| done].
  by injection Hloop as -> ->.
Qed.

Lemma search_reports_each_known_retailer_witness :
  fst (Search.search Fixtures.one_mouse "wireless mouse" 5
         (Some ["bestbuy"; "amazon"; "walmart"]) 0%nat)
  = Browser.Ok
      (Search.mkSearchResult "wireless mouse"
         [ Search.mkRow "Wireless Mouse" (Some "$19.99")
             (Some "https://www.amazon.com/dp/B0MOUSE")
             (Some "4.5 out of 5 stars") (Some "1,234") "amazon" true ]
         ["amazon"] 1).
Proof.
  refine (eq_trans (proj2 (search_reports_each_known_retailer Fixtures.one_mouse
             "wireless mouse" 5 (Some ["bestbuy"; "amazon"; "walmart"]) 0%nat _))
            _).
  - intros name st e. discriminate.
  - reflexivity.
Defined.

(** X23.  [open_page] turns every [Exception] into an error result, but an
    error result does not mean that nothing happened: when the navigation
    itself fails the tabs are as before, whereas when the page opened and
    only the extraction of its elements failed, the new tab has been
    appended and is the active page although the caller is told
    "error". *)
Theorem open_page_error_may_leave_a_tab
    (env : Browser.Env) (dom : Search.DomEnv) (url : string) (w : Browser.World) :
  (forall e, fst (Search.open_page env dom url w) = Browser.Raise e ->
             Browser.is_Exception e = false)
  /\ (forall e,
        fst (Browser.new_page env url w) = Browser.Raise e ->
        Browser.is_Exception e = true ->
        fst (Search.open_page env dom url w)
        = Browser.Ok (Search.OpenedError (Browser.message e))
        /\ Browser._tabs (Browser.mgr (snd (Search.open_page env dom url w)))
           = Browser._tabs (Browser.mgr w))
  /\ (forall page e,
        fst (Browser.new_page env url w) = Browser.Ok page ->
        Search.extracted dom page = Browser.Raise e ->
        Browser.is_Exception e = true ->
        fst (Search.open_page env dom url w)
        = Browser.Ok (Search.OpenedError (Browser.message e))
        /\ Browser._tabs (Browser.mgr (snd (Search.open_page env dom url w)))
           = (Browser._tabs (Browser.mgr w) ++ [page])%list
        /\ Browser.active_page (Browser.mgr (snd (Search.open_page env dom url w)))
           = Some page)
  /\ (forall page elements,
        fst (Browser.new_page env url w) = Browser.Ok page ->
        Search.extracted dom page = Browser.Ok elements ->
        exists text,
          fst (Search.open_page env dom url w)
          = Browser.Ok
              (Search.OpenedOk (default url (Search.e_url elements))
                 (default "" (Search.e_title elements))
                 (Z.of_nat (length (Search.e_buttons elements)))
                 (Z.of_nat (length (Search.e_inputs elements))) text)
          /\ (length text <= 10)%nat).
Proof.
  pose proof (new_page_cases env url w) as Hcases.
  unfold Search.open_page, Browser.try_except, Browser.bind,
    Search.extract_page_elements, Browser.lift, Browser.ret.
  destruct (Browser.new_page env url w) as [[page|e0] w1] eqn:Hnew;
    cbn [fst snd] in *.
  - destruct Hcases as [(e & [= ] & _) | (page' & [= <-] & Ht & Hi)].
    destruct (Search.extracted dom page) as [elements|e1] eqn:Hex.
    + cbn [fst snd]. split; [done |]. split; [done |].
      split; [intros page' e [= <-] He; congruence |].
      intros page' elements' [= <-] He.
      assert (elements' = elements) as -> by congruence. eexists. split; [reflexivity |].
      apply List.firstn_le_length.
    + split; [| split; [done | split; [| intros page' els [= <-]; congruence]]].
      * intros e. destruct (Browser.is_Exception e1) eqn:He1; cbn; [done |].
        by intros [= <-].
      * intros page' e [= <-] He' He.
        assert (e1 = e) as -> by congruence. rewrite He. cbn.
        split; [done |]. split; [exact Ht |].
        apply (active_page_at _ (length (Browser._tabs (Browser.mgr w)))).
        -- exact Hi.
        -- rewrite Ht. by apply list_lookup_middle.
  - destruct Hcases as [(e & [= <-] & Ht & Hi) | (page' & [= ] & _)].
    split; [| split; [| done]].
    + intros e. destruct (Browser.is_Exception e0) eqn:He0; cbn; [done |].
      by intros [= <-].
    + intros e [= <-] He. rewrite He. cbn. done.
Qed.

Lemma open_page_error_may_leave_a_tab_witness :
  fst (Search.open_page Samples.hostile Fixtures.broken_dom
         "https://shop.example.org/" Samples.two_tabs)
  = Browser.Ok (Search.OpenedError "Execution context was destroyed")
  /\ Browser._tabs (Browser.mgr
       (snd (Search.open_page Samples.hostile Fixtures.broken_dom
               "https://shop.example.org/" Samples.two_tabs)))
     = [5%nat; 6%nat; 7%nat].
Proof.
  destruct (open_page_error_may_leave_a_tab Samples.hostile Fixtures.broken_dom
              "https://shop.example.org/" Samples.two_tabs)
    as (_ & _ & Hleft & _).
  destruct (Hleft 7%nat (Browser.PyException "Execution context was destroyed")
              eq_refl eq_refl eq_refl) as (Hr & Ht & _).
  split; [exact Hr | exact Ht].
Defined.

(** X24.  The two retailer detections are nested: every url in which the
    resolver recognises Amazon (by one of its three domains) is an Amazon url
    for the search action too, which looks for the bare name anywhere in the
    url and knows no other retailer. *)
Theorem resolver_amazon_is_search_amazon (url : string) :
  (Resolver._detect_retailer url = Some "amazon" ->
   Search._detect_retailer url = Some "amazon")
  /\ (forall name, Search._detect_retailer url = Some name -> name = "amazon").
Proof.
  unfold Search._detect_retailer, Search.SCRAPER_CLASSES. cbn [Search.detect_in].
  split.
  - unfold Resolver._detect_retailer, Resolver.RETAILER_URL_PATTERNS.
    cbn [Resolver.detect_in existsb].
    set (l := PyStr.lower url).
    assert (Hp : forall x, PyStr.contains ("amazon" ++ x) l = true ->
                           PyStr.contains "amazon" l = true)
      by (intros x; apply contains_prefix).
    destruct (PyStr.contains "amazon.com" l) eqn:H1.
    { intros _. by rewrite (Hp ".com" H1). }
    destruct (PyStr.contains "amazon.co.uk" l) eqn:H2.
    { intros _. by rewrite (Hp ".co.uk" H2). }
    destruct (PyStr.contains "amazon.ca" l) eqn:H3.
    { intros _. by rewrite (Hp ".ca" H3). }
    cbn [orb].
    repeat match goal with
           | |- context [if ?b then _ else _] => destruct b
           end; intros [=].
  - intros name. destruct (PyStr.contains "amazon" (PyStr.lower url)); [| done].
    by intros [= <-].
Qed.

Lemma resolver_amazon_is_search_amazon_witness :
  Search._detect_retailer "https://www.Amazon.co.uk/dp/B0" = Some "amazon".
Proof.
  apply (proj1 (resolver_amazon_is_search_amazon "https://www.Amazon.co.uk/dp/B0")).
  vm_compute. reflexivity.
Defined.

(** ** Redaction *)

Section RedactionFacts.
Import PyStr.

Lemma digits_app (a b : string) :
  digits_of (a ++ b) = digits_of a ++ digits_of b.
Proof.
  induction a as [|c a IH]; [by rewrite !append_nil |].
  rewrite append_cons. cbn [digits_of].
  destruct (is_digit c); [by rewrite append_cons, IH | exact IH].
Qed.

Lemma digits_all (s : string) : Gate.all_chars is_digit (digits_of s) = true.
Proof.
  induction s as [|c s IH]; [done |]. cbn [digits_of].
  destruct (is_digit c) eqn:Hc; [| exact IH].
  cbn [Gate.all_chars]. by rewrite Hc, IH.
Qed.

Lemma digits_fixed (s : string) :
  Gate.all_chars is_digit s = true -> digits_of s = s.
Proof.
  induction s as [|c s IH]; [done |]. cbn [Gate.all_chars digits_of].
  intros [Hc Hs]%andb_prop. by rewrite Hc, (IH Hs).
Qed.

Lemma all_chars_drop (p : ascii -> bool) (n : nat) (s : string) :
  Gate.all_chars p s = true -> Gate.all_chars p (drop n s) = true.
Proof.
  revert s. induction n as [|n IH]; intros [|c s]; cbn [drop]; try done.
  cbn [Gate.all_chars]. intros [_ Hs]%andb_prop. by apply IH.
Qed.

(** The last four digits are digits, and there are four of them. *)
Lemma last_four_digits (number : string) :
  (4 <= String.length (digits_of number))%nat ->
  digits_of (last_chars 4 (digits_of number)) = last_chars 4 (digits_of number)
  /\ String.length (last_chars 4 (digits_of number)) = 4%nat.
Proof.
  intros Hlen. unfold last_chars. split.
  - apply digits_fixed, all_chars_drop, digits_all.
  - rewrite length_drop. lia.
Qed.

(** A text without "@" has no "@" character. *)
Lemma contains_char (q : ascii) (s : string) :
  contains (String q "") s = false ->
  Gate.all_chars (fun c => negb (Ascii.eqb q c)) s = true.
Proof.
  unfold contains. induction s as [|c s IH]; [done |].
  rewrite find_nat_cons, starts_with_cons. cbn [Gate.all_chars].
  destruct (Ascii.eqb q c); [done |].
  destruct (find_nat (String q "") s); [done |]. intros _. by rewrite IH.
Qed.

(** Where the first "@" is. *)
Lemma find_char_first (q : ascii) (a rest : string) :
  contains (String q "") a = false ->
  find_nat (String q "") (a ++ String q rest) = Some (String.length a).
Proof.
  intros Ha%contains_char. induction a as [|c a IH].
  - rewrite append_nil, find_nat_cons, starts_with_cons, Ascii.eqb_refl. done.
  - cbn [Gate.all_chars] in Ha. apply andb_prop in Ha as [Hc Ha].
    apply negb_true_iff in Hc.
    rewrite append_cons, find_nat_cons, starts_with_cons, Hc, (IH Ha). done.
Qed.

Lemma take_app_length (a b : string) : take (String.length a) (a ++ b) = a.
Proof.
  induction a as [|c a IH]; [by destruct b |].
  rewrite append_cons. cbn. by rewrite IH.
Qed.

Lemma drop_app_length (a b : string) : drop (String.length a) (a ++ b) = b.
Proof.
  induction a as [|c a IH]; [by rewrite append_nil |].
  rewrite append_cons. cbn. exact IH.
Qed.

Lemma split_once_first (q : ascii) (a rest : string) :
  contains (String q "") a = false ->
  split_once (String q "") (a ++ String q rest) = Some (a, rest).
Proof.
  intros Ha. unfold split_once. rewrite (find_char_first _ _ _ Ha).
  rewrite take_app_length.
  change (a ++ String q rest) with (a ++ String q "" ++ rest).
  rewrite <- append_assoc, <- (length_append a (String q "")), drop_app_length.
  done.
Qed.

(** A text without the separator is one piece; with one separator it is
    two. *)
Lemma split_single (q : ascii) (a : string) :
  contains (String q "") a = false -> split (String q "") a = [a].
Proof.
  intros Ha%contains_char. unfold split.
  rewrite <- (append_empty_r a) at 1.
  rewrite (split_go_through _ _ _ _ Ha). cbn. by rewrite append_empty_r.
Qed.

Lemma split_at_char (q : ascii) (a rest : string) :
  contains (String q "") a = false ->
  split (String q "") (a ++ String q rest)
  = a :: split (String q "") rest.
Proof.
  intros Ha%contains_char. unfold split.
  rewrite (split_go_through _ _ _ _ Ha).
  change (String q rest) with (String q "" ++ rest).
  rewrite split_go_sep_first. cbn. by rewrite append_empty_r.
Qed.

End RedactionFacts.

(** X25.  [redact_card_number] shows at most the last four digits: the
    only digits in its output are the last four digits of the input (none
    when the input has fewer than four), whatever else the input contains.
    Redacting a redacted number changes nothing. *)
Theorem card_redaction_shows_only_the_last_four (number : string) :
  let digits := PyStr.digits_of number in
  PyStr.digits_of (Sanitizer.redact_card_number number)
  = (if (String.length digits <? 4)%nat then "" else PyStr.last_chars 4 digits)
  /\ (String.length (PyStr.digits_of (Sanitizer.redact_card_number number)) <= 4)%nat
  /\ Sanitizer.redact_card_number (Sanitizer.redact_card_number number)
     = Sanitizer.redact_card_number number.
Proof.
  intros digits. subst digits. unfold Sanitizer.redact_card_number at 1 2 4 5.
  destruct (String.length (PyStr.digits_of number) <? 4)%nat eqn:Hlen.
  - split; [reflexivity |]. split; [exact (Nat.le_0_l 4) | reflexivity].
  - apply Nat.ltb_ge in Hlen.
    destruct (last_four_digits number Hlen) as [Hfixed Hfour].
    assert (Hshown : PyStr.digits_of
                       ("****-****-****-"
                        ++ PyStr.last_chars 4 (PyStr.digits_of number))
                     = PyStr.last_chars 4 (PyStr.digits_of number)).
    { rewrite digits_app, Hfixed. reflexivity. }
    rewrite Hshown. split; [reflexivity |]. split; [lia |].
    unfold Sanitizer.redact_card_number. rewrite Hshown, Hfour.
    change (4 <? 4)%nat with false. cbv iota.
    unfold PyStr.last_chars at 1. rewrite Hfour. reflexivity.
Qed.

(** X26.  [redact_email] keeps the first character of the local part and
    everything after the first "@", and nothing of what lies between, so two
    addresses that differ only there, or in how long the local part is, are
    shown alike.  A text without "@" is returned as it is, unredacted; an
    address that starts with "@" raises [IndexError]. *)
Theorem email_redaction_hides_the_local_part (email : string) :
  (PyStr.contains "@" email = false ->
   Sanitizer.redact_email email = Browser.Ok email)
  /\ (forall rest,
        email = "@" ++ rest ->
        Sanitizer.redact_email email
        = Browser.Raise (Browser.PyException "IndexError"))
  /\ (forall (c : ascii) (hidden domain : string),
        PyStr.contains "@" (String c hidden) = false ->
        email = String c hidden ++ "@" ++ domain ->
        Sanitizer.redact_email email = Browser.Ok (String c "***@" ++ domain)).
Proof.
  unfold Sanitizer.redact_email. split; [| split].
  - unfold PyStr.contains, PyStr.split_once.
    by destruct (PyStr.find_nat "@" email).
  - intros rest ->.
    change ("@" ++ rest) with ("" ++ String "@" rest).
    by rewrite split_once_first.
  - intros c hidden domain Hlocal ->.
    change ("@" ++ domain) with (String "@" domain).
    by rewrite (split_once_first _ _ _ Hlocal).
Qed.

Lemma email_redaction_hides_the_local_part_witness :
  Sanitizer.redact_email "ada.lovelace@example.org"
  = Browser.Ok "a***@example.org".
Proof.
  destruct (email_redaction_hides_the_local_part "ada.lovelace@example.org")
    as (_ & _ & Hshown).
  apply (Hshown "a"%char "da.lovelace" "example.org"); reflexivity.
Defined.

(** ** Profile summary *)

Section WordFacts.
Import PyStr Profile.

Lemma length_rev_app (s acc : string) :
  String.length (String.rev_app s acc)
  = (String.length s + String.length acc)%nat.
Proof.
  revert acc. induction s as [|c s IH]; intros acc; [done |].
  cbn. rewrite IH. cbn. lia.
Qed.

Lemma rev_app_rev_app (s acc rest : string) :
  String.rev_app (String.rev_app s acc) rest = String.rev_app acc (s ++ rest).
Proof.
  revert acc rest. induction s as [|c s IH]; intros acc rest.
  - by rewrite append_nil.
  - cbn [String.rev_app]. rewrite IH. cbn [String.rev_app].
    by rewrite append_cons.
Qed.

Lemma rev_rev_app (w : string) : String.rev (String.rev_app w "") = w.
Proof.
  unfold String.rev. rewrite rev_app_rev_app. cbn [String.rev_app].
  apply append_empty_r.
Qed.



Lemma is_word_spec (w : string) :
  is_word w = true ->
  w <> "" /\ Gate.all_chars (fun c => negb (is_space c)) w = true.
Proof.
  unfold is_word. intros [Hne Hw]%andb_prop. split; [| done].
  intros ->. discriminate Hne.
Qed.

(** Reading a word. *)
Lemma split_ws_go_word (w rest cur : string) :
  Gate.all_chars (fun c => negb (is_space c)) w = true ->
  split_ws_go (w ++ rest) cur = split_ws_go rest (String.rev_app w cur).
Proof.
  revert cur. induction w as [|c w IH]; intros cur; [by rewrite append_nil |].
  cbn [Gate.all_chars]. intros [Hc Hw]%andb_prop.
  apply negb_true_iff in Hc.
  rewrite append_cons. cbn [split_ws_go String.rev_app]. rewrite Hc.
  by apply IH.
Qed.

Lemma split_ws_one_word (w : string) :
  is_word w = true -> split_ws w = [w].
Proof.
  intros [Hne Hw]%is_word_spec. unfold split_ws.
  rewrite <- (append_empty_r w) at 1.
  rewrite (split_ws_go_word _ _ _ Hw). cbn [split_ws_go].
  destruct (String.rev_app w "") as [|c cur] eqn:Hrev.
  - pose proof (length_rev_app w "") as Hlen. rewrite Hrev in Hlen.
    destruct w; [done | cbn in Hlen; lia].
  - by rewrite <- Hrev, rev_rev_app.
Qed.

Lemma split_ws_word_then (w rest : string) :
  is_word w = true -> split_ws (w ++ " " ++ rest) = w :: split_ws rest.
Proof.
  intros [Hne Hw]%is_word_spec. unfold split_ws.
  rewrite (split_ws_go_word _ _ _ Hw).
  change (" " ++ rest) with (String " " rest). cbn [split_ws_go].
  change (is_space " ") with true. cbv iota.
  destruct (String.rev_app w "") as [|c cur] eqn:Hrev.
  - pose proof (length_rev_app w "") as Hlen. rewrite Hrev in Hlen.
    destruct w; [done | cbn in Hlen; lia].
  - by rewrite <- Hrev, rev_rev_app.
Qed.

(** [split()] gives back words written with single spaces. *)
Lemma split_ws_spaced (words : list string) :
  forallb is_word words = true -> split_ws (spaced words) = words.
Proof.
  induction words as [|w words IH]; [done |].
  cbn [forallb]. intros [Hw Hws]%andb_prop.
  destruct words as [|w' words]; [by apply split_ws_one_word |].
  change (spaced (w :: w' :: words)) with (w ++ " " ++ spaced (w' :: words)).
  by rewrite (split_ws_word_then _ _ Hw), (IH Hws).
Qed.



End WordFacts.



(** X28.  What the summary shows of a name: of a name of two or more words
    the first word in full and the initial of the last word, the words in
    between not at all; a name of one word is shown in full. *)
Theorem name_redaction_keeps_first_word_and_last_initial
    (first : string) (middle : list string) (final : string) :
  forallb Profile.is_word (first :: middle ++ [final]) = true ->
  Profile.redacted_name (Profile.spaced (first :: middle ++ [final]))
  = Browser.Ok (first ++ " " ++ PyStr.take 1 final ++ ".")
  /\ Profile.redacted_name first = Browser.Ok first.
Proof.
  intros Hwords. split.
  - unfold Profile.redacted_name. cbv zeta. rewrite (split_ws_spaced _ Hwords).
    assert (Hfinal : Profile.is_word final = true).
    { cbn [forallb] in Hwords. apply andb_prop in Hwords as [_ Hrest].
      rewrite forallb_app in Hrest. apply andb_prop in Hrest as [_ Hrest].
      cbn in Hrest. by destruct (Profile.is_word final). }
    apply is_word_spec in Hfinal as [Hne _].
    replace (1 <? length (first :: middle ++ [final]))%nat with true
      by (symmetry; apply Nat.ltb_lt; cbn; rewrite length_app; cbn; lia).
    assert (Hlast : last (first :: middle ++ [final]) = Some final)
      by apply (last_snoc final (first :: middle)).
    rewrite Hlast. destruct final as [|c final]; [done |]. reflexivity.
  - cbn [forallb] in Hwords. apply andb_prop in Hwords as [Hfirst _].
    unfold Profile.redacted_name. by rewrite (split_ws_one_word _ Hfirst).
Qed.

Lemma name_redaction_keeps_first_word_and_last_initial_witness :
  Profile.redacted_name "Ada King Lovelace" = Browser.Ok "Ada L.".
Proof.
  apply (proj1 (name_redaction_keeps_first_word_and_last_initial
                  "Ada" ["King"] "Lovelace" eq_refl)).
Defined.

(** X29.  The summary's email redaction and [redact_email] agree on an
    address with one "@" and something before it.  They differ elsewhere:
    with a second "@" the summary shows the domain only up to it, and an
    address that starts with "@", on which [redact_email] raises, is shown
    by the summary with the "@" as its first character. *)
Theorem the_two_email_redactions_agree_on_plain_addresses
    (c : ascii) (hidden domain : string) :
  PyStr.contains "@" (String c hidden) = false ->
  PyStr.contains "@" domain = false ->
  (Profile.redacted_email (String c hidden ++ "@" ++ domain)
   = Browser.Ok (String c "***@" ++ domain)
   /\ Sanitizer.redact_email (String c hidden ++ "@" ++ domain)
      = Browser.Ok (String c "***@" ++ domain))
  /\ (forall more,
        Profile.redacted_email (String c hidden ++ "@" ++ domain ++ "@" ++ more)
        = Browser.Ok (String c "***@" ++ domain)
        /\ Sanitizer.redact_email (String c hidden ++ "@" ++ domain ++ "@" ++ more)
           = Browser.Ok (String c "***@" ++ domain ++ "@" ++ more))
  /\ (Profile.redacted_email ("@" ++ domain) = Browser.Ok ("@***@" ++ domain)
      /\ Sanitizer.redact_email ("@" ++ domain)
         = Browser.Raise (Browser.PyException "IndexError")).
Proof.
  intros Hlocal Hdomain.
  assert (Hsan : forall rest,
            Sanitizer.redact_email (String c hidden ++ "@" ++ rest)
            = Browser.Ok (String c "***@" ++ rest)).
  { intros rest. unfold Sanitizer.redact_email.
    change ("@" ++ rest) with (String "@" rest).
    by rewrite (split_once_first _ _ _ Hlocal). }
  split; [| split].
  - split; [| apply Hsan].
    unfold Profile.redacted_email. rewrite append_cons. cbn [Profile.first_char].
    rewrite <- append_cons. change ("@" ++ domain) with (String "@" domain).
    rewrite (split_at_char _ _ _ Hlocal), (split_single _ _ Hdomain).
    reflexivity.
  - intros more. split; [| apply Hsan].
    unfold Profile.redacted_email. rewrite append_cons. cbn [Profile.first_char].
    rewrite <- append_cons.
    change ("@" ++ domain ++ "@" ++ more) with (String "@" (domain ++ String "@" more)).
    rewrite (split_at_char _ _ _ Hlocal), (split_at_char _ _ _ Hdomain).
    reflexivity.
  - split.
    + unfold Profile.redacted_email.
      change ("@" ++ domain) with (String "@" domain). cbn [Profile.first_char].
      change (String "@" domain) with ("" ++ String "@" domain).
      rewrite split_at_char by done. rewrite (split_single _ _ Hdomain).
      reflexivity.
    + unfold Sanitizer.redact_email.
      change ("@" ++ domain) with ("" ++ String "@" domain).
      by rewrite split_once_first.
Qed.

Lemma the_two_email_redactions_agree_on_plain_addresses_witness :
  Profile.redacted_email "ada@example.org" = Browser.Ok "a***@example.org"
  /\ Sanitizer.redact_email "ada@example.org" = Browser.Ok "a***@example.org".
Proof.
  apply (proj1 (the_two_email_redactions_agree_on_plain_addresses
                  "a"%char "da" "example.org" eq_refl eq_refl)).
Defined.

(** X30.  A preview that fails while building the summary has already
    issued its code: the handler raises, yet the store holds the new record,
    and a confirm call with that code within 300 seconds of its creation is
    accepted although no preview was ever shown. *)
Theorem failed_preview_leaves_a_confirmable_code
    (profile : Profile.UserProfile) (e : Browser.PyExn)
    (now_sweep now_store now : Z) (b0 b1 b2 : byte) (arg_url : option string)
    (pending : gmap string Gate.PendingConfirmation) :
  Profile.get_redacted_summary profile = Browser.Raise e ->
  now - now_store <= 300 ->
  let code := Gate._generate_confirmation_code b0 b1 b2 in
  let outcome :=
    Profile.preview_with_summary true (Browser.Ok profile)
      now_sweep now_store b0 b1 b2 arg_url pending in
  fst outcome = Browser.Raise e
  /\ snd outcome !! code
     = Some (Gate.mkPending now_store (default "current_cart" arg_url))
  /\ fst (Gate._handle_confirm_purchase now code (snd outcome))
     = Gate.RespAccepted code (default "current_cart" arg_url).
Proof.
  intros Hraise Hage code outcome. subst outcome.
  unfold Profile.preview_with_summary, Gate._handle_preview_checkout.
  cbn [negb]. rewrite Hraise. cbn [fst snd]. fold code.
  split; [done |]. split; [by rewrite lookup_insert_eq |].
  unfold Gate._handle_confirm_purchase. subst code. rewrite code_normal.
  rewrite (cleanup_keeps_live now _ _
             (Gate.mkPending now_store (default "current_cart" arg_url)));
    [reflexivity | by rewrite lookup_insert_eq | exact Hage].
Qed.

Lemma failed_preview_leaves_a_confirmable_code_witness :
  fst (Gate._handle_confirm_purchase 400 "A1B2C3"
         (snd (Profile.preview_with_summary true (Browser.Ok Fixtures.nameless)
                 100 100 xa1 xb2 xc3 None ∅)))
  = Gate.RespAccepted "A1B2C3" "current_cart".
Proof.
  refine (proj2 (proj2 (failed_preview_leaves_a_confirmable_code
            Fixtures.nameless Profile.IndexError 100 100 400
            xa1 xb2 xc3 None ∅ _ _))).
  - reflexivity.
  - lia.
Defined.
